(** * Supply-chain analyzer: a shallow embedding of
      [security/sbom/supply-chain-analyzer.py]

    The development follows the Python module function by function.

    - Python values are the inductive [pyval]; a [dict] is an association
      list in insertion order, with the replace-or-append update of Python
      dictionaries.
    - A Python [str] is the UTF-8 encoding of its text, one [ascii] per
      byte; its length and its characters are counted in code points.
    - A Python [float] is read as an exact rational ([Q]); decimal literals
      such as [0.5] are the rationals they denote.  Rounding of IEEE doubles
      is outside the model.
    - A raised exception is the [Raise] branch of [result].
    - A method that the class calls on [self] without defining it raises
      [AttributeError] at the call, as the attribute lookup does.
    - [networkx.DiGraph] is modelled by its two insertion-ordered tables,
      the node table and the successor table. *)

From Stdlib Require Import List String Ascii Bool ZArith QArith Qminmax Lia Lqa.
From Stdlib Require Import DecimalString.
Import ListNotations.

Set Warnings "-register-all".
Local Open Scope string_scope.
Local Open Scope Z_scope.

(* ===================================================================== *)
(** ** Python runtime values *)
(* ===================================================================== *)

Module Py.

Inductive exn : Type :=
| TypeError
| AttributeError
| ValueError
| KeyError
| IndexError
| OverflowError
| NodeNotFound
| NetworkXNoPath
| NetworkXError
| LookupFailure (msg : string).

Inductive result (A : Type) : Type :=
| Ok (a : A)
| Raise (e : exn).
Arguments Ok {A} a.
Arguments Raise {A} e.

Definition bind {A B} (c : result A) (k : A -> result B) : result B :=
  match c with
  | Ok a => k a
  | Raise e => Raise e
  end.

Definition rmap {A B} (f : A -> B) (c : result A) : result B :=
  match c with
  | Ok a => Ok (f a)
  | Raise e => Raise e
  end.

(** [for x in xs: acc = body(acc, x)] where the body may raise. *)
Fixpoint for_each {A S} (body : S -> A -> result S) (xs : list A) (acc : S)
  : result S :=
  match xs with
  | [] => Ok acc
  | x :: rest => bind (body acc x) (for_each body rest)
  end.

Inductive pyval : Type :=
| PNone
| PBool (b : bool)
| PInt (n : Z)
| PFloat (q : Q)
| PStr (s : string)
| PList (xs : list pyval)
| PDict (kvs : list (string * pyval)).

Definition dict : Type := list (string * pyval).

(** Association lists in insertion order (Python 3.7+ dictionaries). *)
Section AList.
Context {V : Type}.

Fixpoint alist_get (l : list (string * V)) (k : string) : option V :=
  match l with
  | [] => None
  | (k', v) :: rest => if String.eqb k k' then Some v else alist_get rest k
  end.

(** [l[k] = v]: overwrite in place, or append a new key at the end. *)
Fixpoint alist_set (l : list (string * V)) (k : string) (v : V)
  : list (string * V) :=
  match l with
  | [] => [(k, v)]
  | (k', v') :: rest =>
      if String.eqb k k' then (k', v) :: rest
      else (k', v') :: alist_set rest k v
  end.

Definition alist_mem (l : list (string * V)) (k : string) : bool :=
  match alist_get l k with Some _ => true | None => false end.

Definition keys (l : list (string * V)) : list string := map fst l.
End AList.

(** [d.get(k, default)] *)
Definition get (d : dict) (k : string) (default : pyval) : pyval :=
  match alist_get d k with
  | Some v => v
  | None => default
  end.

(** [d.update(other)] *)
Definition update (d other : dict) : dict :=
  fold_left (fun acc kv => alist_set acc (fst kv) (snd kv)) other d.

(** Truth value of an object in a condition. *)
Definition truthy (v : pyval) : bool :=
  match v with
  | PNone => false
  | PBool b => b
  | PInt n => negb (n =? 0)
  | PFloat q => negb (Qeq_bool q 0)
  | PStr s => negb (String.eqb s "")
  | PList xs => match xs with [] => false | _ => true end
  | PDict kvs => match kvs with [] => false | _ => true end
  end.

(** [v == 'literal'] *)
Definition eq_str (v : pyval) (lit : string) : bool :=
  match v with
  | PStr s => String.eqb s lit
  | _ => false
  end.

(** The numeric reading used by [<], [>] and [==] against a number: ints,
    floats and bools are compared by value, anything else is a
    [TypeError]. *)
Definition as_num (v : pyval) : result Q :=
  match v with
  | PInt n => Ok (inject_Z n)
  | PFloat q => Ok q
  | PBool b => Ok (if b then 1%Q else 0%Q)
  | _ => Raise TypeError
  end.

(** The first magnitude that no longer rounds to a finite double:
    [2**1024 - 2**970]. *)
Definition float_limit : Z := 2 ^ 1024 - 2 ^ 970.

(** The operand of [*] against a float: an int or bool is converted to
    float first, which raises [OverflowError] for an int that is too large;
    a value that is not a number is a [TypeError]. *)
Definition to_float (v : pyval) : result Q :=
  match v with
  | PInt n =>
      if Z.abs n <? float_limit then Ok (inject_Z n) else Raise OverflowError
  | PFloat q => Ok q
  | PBool b => Ok (if b then 1%Q else 0%Q)
  | _ => Raise TypeError
  end.

(** [v.get] exists on dictionaries only. *)
Definition as_dict (v : pyval) : result dict :=
  match v with
  | PDict kvs => Ok kvs
  | _ => Raise AttributeError
  end.

(** A byte [10xxxxxx] continues the code point that an earlier byte
    began. *)
Definition continuation (c : ascii) : bool :=
  let n := nat_of_ascii c in (128 <=? n)%nat && (n <? 192)%nat.

(** The code points of a string, each as a string of its own. *)
Fixpoint code_points (s : string) : list string :=
  match s with
  | EmptyString => []
  | String c rest =>
      match code_points rest with
      | [] => [String c EmptyString]
      | p :: ps =>
          match rest with
          | String c' _ =>
              if continuation c' then String c p :: ps
              else String c EmptyString :: p :: ps
          | EmptyString => [String c EmptyString]
          end
      end
  end.

Definition chars (s : string) : list pyval := map PStr (code_points s).

(** [for x in v]: lists yield their items, strings their characters,
    dictionaries their keys; other values are not iterable. *)
Definition iterate (v : pyval) : result (list pyval) :=
  match v with
  | PList xs => Ok xs
  | PStr s => Ok (chars s)
  | PDict kvs => Ok (map (fun kv => PStr (fst kv)) kvs)
  | _ => Raise TypeError
  end.

(** [len(v)] *)
Definition len (v : pyval) : result nat :=
  match v with
  | PList xs => Ok (List.length xs)
  | PStr s => Ok (List.length (code_points s))
  | PDict kvs => Ok (List.length kvs)
  | _ => Raise TypeError
  end.

Definition str_of_Z (n : Z) : string := NilZero.string_of_int (Z.to_int n).
Definition str_of_nat (n : nat) : string := str_of_Z (Z.of_nat n).

(** [s.startswith(prefix)] *)
Definition startswith (s p : string) : bool := String.prefix p s.

(** [sep.join(items)] on a list of strings. *)
Definition join (sep : string) (items : list string) : string :=
  String.concat sep items.

End Py.

Import Py.

Declare Scope py_scope.
Notation "x <- c ;; k" := (Py.bind c (fun x => k))
  (at level 61, c at next level, right associativity) : py_scope.
Local Open Scope py_scope.

(* ===================================================================== *)
(** ** networkx.DiGraph *)
(* ===================================================================== *)

Module NX.

(** [_node] maps a node to its attribute dictionary, [_adj] maps a node to
    its successors, each with the attribute dictionary of the edge.  Both
    tables keep insertion order; a directed graph holds at most one edge per
    ordered pair of nodes. *)
Record DiGraph : Type := {
  _node : list (string * dict);
  _adj : list (string * list (string * dict))
}.

Definition empty : DiGraph := {| _node := []; _adj := [] |}.

(** [graph.nodes()] *)
Definition nodes (g : DiGraph) : list string := keys (_node g).

(** [graph.has_node(n)]: node identifiers are strings here, so any other
    value (unhashable ones included) is reported absent. *)
Definition has_node (g : DiGraph) (n : pyval) : bool :=
  match n with
  | PStr s => alist_mem (_node g) s
  | _ => false
  end.

(** [graph.add_node(n, **attr)] *)
Definition add_node (g : DiGraph) (n : string) (attr : dict) : DiGraph :=
  match alist_get (_node g) n with
  | None => {| _node := _node g ++ [(n, update [] attr)];
               _adj := _adj g ++ [(n, [])] |}
  | Some d => {| _node := alist_set (_node g) n (update d attr);
                 _adj := _adj g |}
  end.

(** [graph.add_edge(u, v, **attr)] *)
Definition add_edge (g : DiGraph) (u v : string) (attr : dict) : DiGraph :=
  let g := if alist_mem (_node g) u then g else add_node g u [] in
  let g := if alist_mem (_node g) v then g else add_node g v [] in
  let nbrs := match alist_get (_adj g) u with Some l => l | None => [] end in
  let datadict := match alist_get nbrs v with Some d => d | None => [] end in
  {| _node := _node g;
     _adj := alist_set (_adj g) u (alist_set nbrs v (update datadict attr)) |}.

(** [graph.edges()]: sources in node order, targets in the order in which
    the edges out of a source were first added. *)
Definition edges (g : DiGraph) : list (string * string) :=
  flat_map (fun row => map (fun cell => (fst row, fst cell)) (snd row))
           (_adj g).

(** [graph.edges[u, v]] *)
Definition edge_data (g : DiGraph) (u v : string) : result dict :=
  match alist_get (_adj g) u with
  | Some nbrs =>
      match alist_get nbrs v with
      | Some d => Ok d
      | None => Raise KeyError
      end
  | None => Raise KeyError
  end.

(** [graph.nodes[n]] *)
Definition node_data (g : DiGraph) (n : string) : result dict :=
  match alist_get (_node g) n with
  | Some d => Ok d
  | None => Raise KeyError
  end.

Definition successors (g : DiGraph) (n : string) : list string :=
  match alist_get (_adj g) n with
  | Some nbrs => keys nbrs
  | None => []
  end.

(** The nodes with an edge to [n], listed here in source-node order; the
    analyzer only asks whether the list is empty. *)
Definition pred (g : DiGraph) (n : string) : list string :=
  keys (filter (fun row => alist_mem (snd row) n) (_adj g)).

(** [graph.predecessors(n)]: [NetworkXError] when [n] is not a node. *)
Definition predecessors (g : DiGraph) (n : string) : result (list string) :=
  if alist_mem (_node g) n then Ok (pred g n) else Raise NetworkXError.

(** [graph.degree()]: out-degree plus in-degree. *)
Definition degree (g : DiGraph) (n : string) : nat :=
  (List.length (successors g n) + List.length (pred g n))%nat.

(** [graph.has_edge(u, v)] *)
Definition has_edge (g : DiGraph) (u v : string) : bool :=
  match alist_get (_adj g) u with
  | Some nbrs => alist_mem nbrs v
  | None => false
  end.

(** The shape every graph built by [add_node] and [add_edge] has: no node
    is listed twice, every node has exactly one successor row, and no row
    lists a successor twice. *)
Record wf (g : DiGraph) : Prop := {
  wf_nodes : NoDup (keys (_node g));
  wf_rows : keys (_adj g) = keys (_node g);
  wf_succ : Forall (fun row => NoDup (keys (snd row))) (_adj g)
}.

Definition str_mem (s : string) (l : list string) : bool :=
  existsb (String.eqb s) l.

(** Breadth-first search by levels; [fuel] bounds the number of levels. *)
Fixpoint bfs (g : DiGraph) (fuel : nat) (frontier seen : list string)
    (target : string) (dist : nat) : option nat :=
  if str_mem target frontier then Some dist
  else
    match fuel with
    | O => None
    | S fuel' =>
        let next :=
          nodup string_dec
            (filter (fun v => negb (str_mem v seen))
                    (flat_map (successors g) frontier)) in
        match next with
        | [] => None
        | _ => bfs g fuel' next (seen ++ next) target (S dist)
        end
    end.

(** [nx.shortest_path_length(graph, source, target)]: the number of edges
    on a shortest directed path, [NodeNotFound] when an endpoint is not in
    the graph, [NetworkXNoPath] when the target cannot be reached. *)
Definition shortest_path_length (g : DiGraph) (source target : string)
  : result nat :=
  if alist_mem (_node g) source && alist_mem (_node g) target then
    match bfs g (List.length (_node g)) [source] [source] target 0 with
    | Some d => Ok d
    | None => Raise NetworkXNoPath
    end
  else Raise NodeNotFound.

End NX.

Import NX.

(* ===================================================================== *)
(** ** The analyzer *)
(* ===================================================================== *)

Module Analyzer.

Local Open Scope Q_scope.

Inductive TrustLevel : Type :=
| VERIFIED | TRUSTED | NEUTRAL | SUSPICIOUS | UNTRUSTED.

Inductive DependencyType : Type :=
| DIRECT | TRANSITIVE | DEV | PEER | OPTIONAL.

Definition TrustLevel_eqb (a b : TrustLevel) : bool :=
  match a, b with
  | VERIFIED, VERIFIED | TRUSTED, TRUSTED | NEUTRAL, NEUTRAL
  | SUSPICIOUS, SUSPICIOUS | UNTRUSTED, UNTRUSTED => true
  | _, _ => false
  end.

(** [DependencyType(value)]: lookup of an enum member by its value. *)
Definition DependencyType_of (value : pyval) : result DependencyType :=
  if eq_str value "direct" then Ok DIRECT
  else if eq_str value "transitive" then Ok TRANSITIVE
  else if eq_str value "dev" then Ok DEV
  else if eq_str value "peer" then Ok PEER
  else if eq_str value "optional" then Ok OPTIONAL
  else Raise ValueError.

Record SupplyChainNode : Type := {
  n_id : string;
  n_name : pyval;
  n_version : pyval;
  n_package_manager : string;
  n_dependency_type : DependencyType;
  n_trust_level : TrustLevel;
  n_risk_score : Q;
  n_maintainer_info : dict;
  n_repository_info : dict;
  n_security_metrics : dict;
  n_metadata : dict
}.

Record SupplyChainEdge : Type := {
  e_source_id : string;
  e_target_id : string;
  e_dependency_type : DependencyType;
  e_version_constraint : pyval;
  e_introduced_by : option string;
  e_risk_contribution : Q
}.

Record SupplyChainAnalysis : Type := {
  analysis_id : string;
  timestamp : Z;
  total_nodes : nat;
  total_edges : nat;
  max_depth : Z;
  risk_distribution : list (string * Z);
  trust_distribution : list (string * Z);
  critical_paths : list (list string);
  vulnerable_paths : list (list string);
  orphaned_dependencies : list string;
  circular_dependencies : list (list string);
  single_points_of_failure : list string;
  supply_chain_score : Q;
  recommendations : list string;
  a_nodes : list SupplyChainNode;
  a_edges : list SupplyChainEdge
}.

(** The dictionary [results] built by [_perform_graph_analysis]. *)
Record GraphAnalysis : Type := {
  r_max_depth : Z;
  r_average_degree : Q;
  r_risk_distribution : list (string * Z);
  r_trust_distribution : list (string * Z);
  r_critical_paths : list (list string);
  r_vulnerable_paths : list (list string);
  r_orphaned_dependencies : list string;
  r_circular_dependencies : list (list string);
  r_single_points_of_failure : list string;
  r_betweenness_centrality : list (string * Q);
  r_closeness_centrality : list (string * Q);
  r_pagerank : list (string * Q)
}.

(** One [logger.warning] record of the enrichment step. *)
Inductive log_record : Type :=
| Warning (node_id : string) (e : exn).

(** What the Python runtime and networkx supply and this development does
    not spell out: the text of floats and containers inside an f-string, and
    the three centrality algorithms, whose outputs the analysis stores but
    never reads. *)
Class Runtime : Type := {
  py_repr : pyval -> string;
  betweenness_centrality : DiGraph -> result (list (string * Q));
  closeness_centrality : DiGraph -> result (list (string * Q));
  pagerank : DiGraph -> result (list (string * Q))
}.

(** The enrichment collaborators: the registry client of a package manager,
    the security sources and the trust databases.  Any call may raise. *)
Class Clients : Type := {
  get_package_info : string -> pyval -> pyval -> result pyval;
  _get_security_information : pyval -> pyval -> string -> result pyval;
  _get_trust_information : pyval -> pyval -> string -> result pyval
}.

(** The clients as the module defines them: every registry client answers
    with an empty mapping, the two intelligence lookups with fixed values. *)
Definition placeholder_clients : Clients := {|
  get_package_info := fun _ _ _ => Ok (PDict []);
  _get_security_information := fun _ _ _ =>
    Ok (PDict [("vulnerability_count", PInt 0);
               ("critical_vulnerabilities", PInt 0);
               ("security_advisories", PList [])]);
  _get_trust_information := fun _ _ _ =>
    Ok (PDict [("signed", PBool false);
               ("maintainer_reputation", PFloat 0.5);
               ("security_incidents", PInt 0)])
|}.

(** [self.<method>(...)] for a method that [SupplyChainAnalyzer] calls and
    neither it nor the module defines.  The class has no base class and no
    [__getattr__], so the attribute lookup raises [AttributeError] before an
    argument is evaluated.  The fourteen such methods are
    [_extract_maintainer_info], [_extract_repository_info],
    [_extract_security_metrics], [_find_dependency_introducer],
    [_calculate_edge_risk_contribution], [_calculate_max_depth],
    [_calculate_risk_distribution], [_calculate_trust_distribution],
    [_find_critical_paths], [_find_vulnerable_paths],
    [_find_orphaned_dependencies], [_find_circular_dependencies],
    [_find_single_points_of_failure] and [_store_analysis]. *)
Definition undefined_method {A : Type} (method : string) : result A :=
  Raise AttributeError.

Definition Qltb (x y : Q) : bool := negb (Qle_bool y x).

(* --------------------------------------------------------------------- *)
(** *** SBOM extraction *)

(** Keys of [self.package_registries]. *)
Definition package_registries : list string :=
  ["npm"; "pypi"; "maven"; "nuget"; "rubygems"].

Definition _extract_components (sbom_data : dict) : result (list dict) :=
  let components : list dict := [] in
  if eq_str (get sbom_data "bomFormat" PNone) "CycloneDX" then
    items <- iterate (get sbom_data "components" (PList []));;
    for_each (fun components item =>
        component <- as_dict item;;
        Ok (components ++
            [[("name", get component "name" PNone);
              ("version", get component "version" PNone);
              ("type", get component "type" PNone);
              ("purl", get component "purl" PNone);
              ("scope", get component "scope" (PStr "required"));
              ("licenses", get component "licenses" (PList []));
              ("hashes", get component "hashes" (PList []))]])%list)
      items components
  else if truthy (get sbom_data "spdxVersion" PNone) then
    items <- iterate (get sbom_data "packages" (PList []));;
    for_each (fun components item =>
        package <- as_dict item;;
        Ok (components ++
            [[("name", get package "name" PNone);
              ("version", get package "versionInfo" (PStr "unknown"));
              ("type", PStr "library");
              ("downloadLocation", get package "downloadLocation" PNone);
              ("licenseConcluded", get package "licenseConcluded" PNone);
              ("copyrightText", get package "copyrightText" PNone)]])%list)
      items components
  else Ok components.

Definition _extract_dependencies (sbom_data : dict) : result (list dict) :=
  let dependencies : list dict := [] in
  if eq_str (get sbom_data "bomFormat" PNone) "CycloneDX" then
    items <- iterate (get sbom_data "dependencies" (PList []));;
    for_each (fun dependencies item =>
        dep_info <- as_dict item;;
        let source := get dep_info "ref" PNone in
        targets <- iterate (get dep_info "dependsOn" (PList []));;
        for_each (fun dependencies target =>
            Ok (dependencies ++
                [[("source", source);
                  ("target", target);
                  ("type", PStr "depends_on")]])%list)
          targets dependencies)
      items dependencies
  else if truthy (get sbom_data "spdxVersion" PNone) then
    items <- iterate (get sbom_data "relationships" (PList []));;
    for_each (fun dependencies item =>
        relationship <- as_dict item;;
        if eq_str (get relationship "relationshipType" PNone) "DEPENDS_ON" then
          Ok (dependencies ++
              [[("source", get relationship "spdxElementId" PNone);
                ("target", get relationship "relatedSpdxElement" PNone);
                ("type", PStr "depends_on")]])%list
        else Ok dependencies)
      items dependencies
  else Ok dependencies.

Definition _extract_package_manager (purl : pyval) : result string :=
  if negb (truthy purl) then Ok "unknown"
  else
    match purl with
    | PStr p =>
        if startswith p "pkg:npm/" then Ok "npm"
        else if startswith p "pkg:pypi/" then Ok "pypi"
        else if startswith p "pkg:maven/" then Ok "maven"
        else if startswith p "pkg:nuget/" then Ok "nuget"
        else if startswith p "pkg:gem/" then Ok "rubygems"
        else Ok "unknown"
    | _ => Raise AttributeError
    end.

(* --------------------------------------------------------------------- *)
(** *** Per-node helpers *)

Definition _determine_dependency_type (node_data : dict) (graph : DiGraph)
    (node_id : string) : result DependencyType :=
  let scope := get node_data "scope" (PStr "required") in
  if eq_str scope "optional" then Ok OPTIONAL
  else if eq_str scope "dev" then Ok DEV
  else
    predecessors <- NX.predecessors graph node_id;;
    match predecessors with
    | [] => Ok DIRECT
    | _ => Ok TRANSITIVE
    end.

Definition _calculate_trust_level (node_data : dict) : result TrustLevel :=
  trust_info <- as_dict (get node_data "trust_info" (PDict []));;
  if truthy (get trust_info "signed" (PBool false)) then Ok VERIFIED
  else
    maintainer_score <-
      as_num (get trust_info "maintainer_reputation" (PFloat 0.5));;
    if Qltb 0.8 maintainer_score then Ok TRUSTED
    else if Qltb maintainer_score 0.3 then Ok SUSPICIOUS
    else
      security_incidents <-
        as_num (get trust_info "security_incidents" (PInt 0));;
      if Qltb 3 security_incidents then Ok UNTRUSTED
      else Ok NEUTRAL.

(** [list(graph.nodes())[0]] *)
Definition first_node (graph : DiGraph) : result string :=
  match NX.nodes graph with
  | n :: _ => Ok n
  | [] => Raise IndexError
  end.

(** The [try] block at the end of [_calculate_node_risk_score]: the depth
    added to the score, nothing when the lookup raises. *)
Definition depth_term (graph : DiGraph) (node_id : string) : Q :=
  match (source <- first_node graph;;
         NX.shortest_path_length graph source node_id) with
  | Ok depth => inject_Z (Z.of_nat depth) * 0.1
  | Raise _ => 0
  end.

Definition _calculate_node_risk_score (node_data : dict) (graph : DiGraph)
    (node_id : string) : result Q :=
  let risk_score := 0.0 in
  security_info <- as_dict (get node_data "security_info" (PDict []));;
  let vuln_count := get security_info "vulnerability_count" (PInt 0) in
  let critical_vulns :=
    get security_info "critical_vulnerabilities" (PInt 0) in
  critical_vulns <- to_float critical_vulns;;
  let risk_score := risk_score + critical_vulns * 2.0 in
  vuln_count <- to_float vuln_count;;
  let risk_score := risk_score + vuln_count * 0.5 in
  registry_info <- as_dict (get node_data "registry_info" (PDict []));;
  age_days <- as_num (get registry_info "age_days" (PInt 365));;
  let risk_score :=
    if Qltb age_days 30 then risk_score + 1.0
    else if Qltb 2000 age_days then risk_score + 0.5
    else risk_score in
  downloads <- as_num (get registry_info "downloads" (PInt 0));;
  let risk_score :=
    if Qltb downloads 1000 then risk_score + 1.0
    else if Qltb downloads 10000 then risk_score + 0.5
    else risk_score in
  maintainer_count <- len (get registry_info "maintainers" (PList []));;
  let risk_score :=
    if Nat.eqb maintainer_count 1 then risk_score + 0.5
    else if Nat.eqb maintainer_count 0 then risk_score + 1.0
    else risk_score in
  let risk_score := risk_score + depth_term graph node_id in
  Ok (Qmin risk_score 10.0).

(* --------------------------------------------------------------------- *)
(** *** Scoring and recommendations *)

(** [sum(xs)] *)
Definition Qsum (xs : list Q) : Q := fold_left Qplus xs 0.

Definition Qlen {A} (xs : list A) : Q := inject_Z (Z.of_nat (List.length xs)).

Definition nonempty {A} (xs : list A) : bool :=
  match xs with [] => false | _ => true end.

Definition high_risk (n : SupplyChainNode) : bool := Qltb 7.0 (n_risk_score n).

Definition untrusted (n : SupplyChainNode) : bool :=
  TrustLevel_eqb (n_trust_level n) UNTRUSTED.

Definition _calculate_supply_chain_score (nodes : list SupplyChainNode)
    (edges : list SupplyChainEdge) (analysis_results : GraphAnalysis) : Q :=
  if negb (nonempty nodes) then 0.0
  else
    let node_scores := map (fun node => 10.0 - n_risk_score node) nodes in
    let base_score := Qsum node_scores / Qlen node_scores in
    let penalties := 0.0 in
    let penalties :=
      if nonempty (r_circular_dependencies analysis_results)
      then penalties + Qlen (r_circular_dependencies analysis_results) * 0.5
      else penalties in
    let penalties :=
      if nonempty (r_single_points_of_failure analysis_results)
      then penalties + Qlen (r_single_points_of_failure analysis_results) * 0.3
      else penalties in
    let penalties :=
      if nonempty (r_orphaned_dependencies analysis_results)
      then penalties + Qlen (r_orphaned_dependencies analysis_results) * 0.2
      else penalties in
    let high_risk_nodes := filter high_risk nodes in
    let penalties :=
      if nonempty high_risk_nodes
      then penalties + Qlen high_risk_nodes * 0.4
      else penalties in
    let untrusted_nodes := filter untrusted nodes in
    let penalties :=
      if nonempty untrusted_nodes
      then penalties + Qlen untrusted_nodes * 0.6
      else penalties in
    let final_score := Qmax 0.0 (Qmin 10.0 (base_score - penalties)) in
    final_score.

(** [', '.join([n.name for n in nodes[:3]])]: [join] accepts strings only. *)
Definition join_names (nodes : list SupplyChainNode) : result string :=
  names <- for_each (fun names n =>
                       match n_name n with
                       | PStr s => Ok (names ++ [s])%list
                       | _ => Raise TypeError
                       end)
                    (firstn 3 nodes) [];;
  Ok (join ", " names).

Definition _generate_recommendations (analysis_results : GraphAnalysis)
    (nodes : list SupplyChainNode) (edges : list SupplyChainEdge)
  : result (list string) :=
  let recommendations : list string := [] in
  let high_risk_nodes := filter high_risk nodes in
  recommendations <-
    (if nonempty high_risk_nodes then
       names <- join_names high_risk_nodes;;
       Ok (recommendations ++
           [("CRITICAL: " ++ str_of_nat (List.length high_risk_nodes)
            ++ " components have high supply chain risk. "
            ++ "Review and consider alternatives for: " ++ names)%string])%list
     else Ok recommendations);;
  let untrusted_nodes := filter untrusted nodes in
  recommendations <-
    (if nonempty untrusted_nodes then
       names <- join_names untrusted_nodes;;
       Ok (recommendations ++
           [("SECURITY: " ++ str_of_nat (List.length untrusted_nodes)
            ++ " components are untrusted. "
            ++ "Verify authenticity and consider removal: " ++ names)%string])%list
     else Ok recommendations);;
  let recommendations :=
    if nonempty (r_circular_dependencies analysis_results) then
      (recommendations ++
       [("ARCHITECTURE: "
        ++ str_of_nat (List.length (r_circular_dependencies analysis_results))
        ++ " circular dependencies detected. "
        ++ "Refactor to eliminate circular references and reduce complexity.")%string])%list
    else recommendations in
  let recommendations :=
    if nonempty (r_single_points_of_failure analysis_results) then
      (recommendations ++
       [("RESILIENCE: "
        ++ str_of_nat (List.length (r_single_points_of_failure analysis_results))
        ++ " single points of failure identified. "
        ++ "Consider alternative packages or implement redundancy.")%string])%list
    else recommendations in
  let recommendations :=
    if nonempty (r_orphaned_dependencies analysis_results) then
      (recommendations ++
       [("CLEANUP: "
        ++ str_of_nat (List.length (r_orphaned_dependencies analysis_results))
        ++ " orphaned dependencies found. "
        ++ "Remove unused dependencies to reduce attack surface.")%string])%list
    else recommendations in
  let recommendations :=
    if (10 <? r_max_depth analysis_results)%Z then
      (recommendations ++
       [("COMPLEXITY: Dependency chain depth is "
        ++ str_of_Z (r_max_depth analysis_results) ++ ". "
        ++ "Consider flattening dependencies to reduce supply chain complexity.")%string])%list
    else recommendations in
  Ok (recommendations ++
      ["Implement dependency pinning with exact versions for critical components";
       "Set up automated dependency scanning and vulnerability monitoring";
       "Establish a software bill of materials (SBOM) generation process";
       "Create a dependency approval process for new packages";
       "Implement package signature verification where available";
       "Regular audit and cleanup of unused dependencies"])%list.

(* --------------------------------------------------------------------- *)
(** *** Graph construction, enrichment and the analysis pipeline *)

Section Pipeline.
Context {RT : Runtime} {CL : Clients}.

(** [f"{v}"] *)
Definition format_value (v : pyval) : string :=
  match v with
  | PNone => "None"
  | PBool true => "True"
  | PBool false => "False"
  | PInt n => str_of_Z n
  | PStr s => s
  | _ => py_repr v
  end.

(** First loop of [_build_dependency_graph]. *)
Definition add_components (graph : DiGraph) (components : list dict)
  : DiGraph :=
  fold_left (fun graph component =>
      let node_id :=
        (format_value (get component "name" (PStr "")) ++ "@"
         ++ format_value (get component "version" (PStr "")))%string in
      add_node graph node_id component)
    components graph.

(** Body of the second loop of [_build_dependency_graph].  [has_node] holds
    of strings only, so the guarded call always receives two node
    identifiers. *)
Definition add_dependency (graph : DiGraph) (dep : dict) : DiGraph :=
  let source := get dep "source" PNone in
  let target := get dep "target" PNone in
  if truthy source && truthy target
     && has_node graph source && has_node graph target
  then
    match source, target with
    | PStr u, PStr v => add_edge graph u v dep
    | _, _ => graph
    end
  else graph.

(** Second loop of [_build_dependency_graph]. *)
Definition add_dependencies (graph : DiGraph) (dependencies : list dict)
  : DiGraph :=
  fold_left add_dependency dependencies graph.

(** One statement of the [try] block of [_enrich_node_data]: it runs only
    while no earlier statement has raised, stores the answer under [key],
    and on an exception leaves [enriched] as it is. *)
Definition try_call (st : dict * option exn) (key : string)
    (call : result pyval) : dict * option exn :=
  match snd st with
  | Some _ => st
  | None =>
      match call with
      | Ok v => (alist_set (fst st) key v, None)
      | Raise e => (fst st, Some e)
      end
  end.

(** The coroutine returns the mapping gathered so far together with the
    warning it logged, or raises when the package-manager test, which sits
    before the [try], raises. *)
Definition _enrich_node_data (node_id : string) (node_data : dict)
  : result dict * list log_record :=
  let enriched : dict := [] in
  let name := get node_data "name" (PStr "") in
  let version := get node_data "version" (PStr "") in
  let purl := get node_data "purl" (PStr "") in
  match _extract_package_manager purl with
  | Raise e => (Raise e, [])
  | Ok package_manager =>
      let st : dict * option exn := (enriched, None) in
      let st :=
        if str_mem package_manager package_registries
        then try_call st "registry_info"
               (get_package_info package_manager name version)
        else st in
      let st := try_call st "security_info"
                  (_get_security_information name version package_manager) in
      let st := try_call st "trust_info"
                  (_get_trust_information name version package_manager) in
      (Ok (fst st),
       match snd st with
       | Some e => [Warning node_id e]
       | None => []
       end)
  end.

(** [range(0, stop, step)] *)
Definition range_step (stop step : nat) : list nat :=
  map (fun k => (k * step)%nat) (seq 0 ((stop + step - 1) / step)%nat).

(** [xs[i]] *)
Definition list_index {A} (xs : list A) (i : nat) : result A :=
  match nth_error xs i with
  | Some x => Ok x
  | None => Raise IndexError
  end.

(** [graph.nodes[node_id].update(data)] *)
Definition update_node (graph : DiGraph) (node_id : string) (data : dict)
  : result DiGraph :=
  d <- NX.node_data graph node_id;;
  Ok {| _node := alist_set (_node graph) node_id (update d data);
        _adj := _adj graph |}.

(** Body of [for j, data in enumerate(enriched_data)]: only an outcome
    that is a mapping is merged into the node at position [i + j]. *)
Definition merge_one (i : nat) (graph : DiGraph) (jd : nat * result dict)
  : result DiGraph :=
  match snd jd with
  | Ok data =>
      node_id <- list_index (NX.nodes graph) (i + fst jd);;
      update_node graph node_id data
  | Raise _ => Ok graph
  end.

(** Merge of one batch. *)
Definition merge_batch (i : nat) (enriched_data : list (result dict))
    (graph : DiGraph) : result DiGraph :=
  for_each (merge_one i)
    (combine (seq 0 (List.length enriched_data)) enriched_data) graph.

(** Body of [for i in range(0, len(tasks), batch_size)].
    [asyncio.gather(..., return_exceptions=True)] hands every outcome back as
    a value; the records logged inside a batch are kept in task order. *)
Definition run_batch (tasks : list (string * dict)) (batch_size : nat)
    (st : DiGraph * list log_record) (i : nat)
  : result (DiGraph * list log_record) :=
  let batch := firstn batch_size (skipn i tasks) in
  let outcomes :=
    map (fun task => _enrich_node_data (fst task) (snd task)) batch in
  let enriched_data := map fst outcomes in
  graph <- merge_batch i enriched_data (fst st);;
  Ok (graph, (snd st ++ List.concat (map snd outcomes))%list).

(** The tasks are created from the node table before any batch runs; the
    dictionary of a node is written only after its own task has returned, so
    each task reads the attributes the node had when the step began. *)
Definition _enrich_dependency_graph (graph : DiGraph)
  : result (DiGraph * list log_record) :=
  let tasks := _node graph in
  let batch_size := 10%nat in
  for_each (run_batch tasks batch_size)
    (range_step (List.length tasks) batch_size) (graph, []).

Definition _build_dependency_graph (sbom_data : dict)
  : result (DiGraph * list log_record) :=
  let graph := NX.empty in
  components <- _extract_components sbom_data;;
  let graph := add_components graph components in
  dependencies <- _extract_dependencies sbom_data;;
  let graph := add_dependencies graph dependencies in
  _enrich_dependency_graph graph.

Definition _analyze_nodes (graph : DiGraph) : result (list SupplyChainNode) :=
  for_each (fun nodes node_id =>
      node_data <- NX.node_data graph node_id;;
      let name := get node_data "name" (PStr "") in
      let version := get node_data "version" (PStr "") in
      let purl := get node_data "purl" (PStr "") in
      package_manager <- _extract_package_manager purl;;
      dependency_type <-
        _determine_dependency_type node_data graph node_id;;
      trust_level <- _calculate_trust_level node_data;;
      risk_score <- _calculate_node_risk_score node_data graph node_id;;
      maintainer_info <-
        undefined_method (A := dict) "_extract_maintainer_info";;
      repository_info <-
        undefined_method (A := dict) "_extract_repository_info";;
      security_metrics <-
        undefined_method (A := dict) "_extract_security_metrics";;
      let node := {|
        n_id := node_id;
        n_name := name;
        n_version := version;
        n_package_manager := package_manager;
        n_dependency_type := dependency_type;
        n_trust_level := trust_level;
        n_risk_score := risk_score;
        n_maintainer_info := maintainer_info;
        n_repository_info := repository_info;
        n_security_metrics := security_metrics;
        n_metadata := node_data |} in
      Ok (nodes ++ [node])%list)
    (NX.nodes graph) [].

Definition _analyze_edges (graph : DiGraph) : result (list SupplyChainEdge) :=
  for_each (fun edges st =>
      let source := fst st in
      let target := snd st in
      edge_data <- NX.edge_data graph source target;;
      dependency_type <-
        DependencyType_of (get edge_data "type" (PStr "direct"));;
      let version_constraint :=
        get edge_data "version_constraint" (PStr "*") in
      introduced_by <-
        undefined_method (A := option string) "_find_dependency_introducer";;
      risk_contribution <-
        undefined_method (A := Q) "_calculate_edge_risk_contribution";;
      let edge := {|
        e_source_id := source;
        e_target_id := target;
        e_dependency_type := dependency_type;
        e_version_constraint := version_constraint;
        e_introduced_by := introduced_by;
        e_risk_contribution := risk_contribution |} in
      Ok (edges ++ [edge])%list)
    (NX.edges graph) [].

Definition _perform_graph_analysis (graph : DiGraph)
    (nodes : list SupplyChainNode) (edges : list SupplyChainEdge)
  : result GraphAnalysis :=
  max_depth <- undefined_method (A := Z) "_calculate_max_depth";;
  let average_degree :=
    if nonempty (NX.nodes graph)
    then Qsum (map (fun n => inject_Z (Z.of_nat (NX.degree graph n)))
                   (NX.nodes graph))
         / Qlen (NX.nodes graph)
    else 0 in
  risk_distribution <-
    undefined_method (A := list (string * Z)) "_calculate_risk_distribution";;
  trust_distribution <-
    undefined_method (A := list (string * Z)) "_calculate_trust_distribution";;
  critical_paths <-
    undefined_method (A := list (list string)) "_find_critical_paths";;
  vulnerable_paths <-
    undefined_method (A := list (list string)) "_find_vulnerable_paths";;
  orphaned <-
    undefined_method (A := list string) "_find_orphaned_dependencies";;
  circular <-
    undefined_method (A := list (list string)) "_find_circular_dependencies";;
  spof <-
    undefined_method (A := list string) "_find_single_points_of_failure";;
  betweenness <- betweenness_centrality graph;;
  closeness <- closeness_centrality graph;;
  rank <- pagerank graph;;
  Ok {| r_max_depth := max_depth;
        r_average_degree := average_degree;
        r_risk_distribution := risk_distribution;
        r_trust_distribution := trust_distribution;
        r_critical_paths := critical_paths;
        r_vulnerable_paths := vulnerable_paths;
        r_orphaned_dependencies := orphaned;
        r_circular_dependencies := circular;
        r_single_points_of_failure := spof;
        r_betweenness_centrality := betweenness;
        r_closeness_centrality := closeness;
        r_pagerank := rank |}.

(** [uuid.uuid4()] and [datetime.now(timezone.utc)] are the two inputs the
    run takes from its environment; they are arguments here.  The
    [logger.info] lines are not traced. *)
Definition analyze_supply_chain (fresh_uuid : string) (now : Z)
    (sbom_data : dict) : result (SupplyChainAnalysis * list log_record) :=
  let analysis_id := fresh_uuid in
  let timestamp := now in
  built <- _build_dependency_graph sbom_data;;
  let graph := fst built in
  nodes <- _analyze_nodes graph;;
  edges <- _analyze_edges graph;;
  analysis_results <- _perform_graph_analysis graph nodes edges;;
  let supply_chain_score :=
    _calculate_supply_chain_score nodes edges analysis_results in
  recommendations <- _generate_recommendations analysis_results nodes edges;;
  let analysis := {|
    analysis_id := analysis_id;
    timestamp := timestamp;
    total_nodes := List.length nodes;
    total_edges := List.length edges;
    max_depth := r_max_depth analysis_results;
    risk_distribution := r_risk_distribution analysis_results;
    trust_distribution := r_trust_distribution analysis_results;
    critical_paths := r_critical_paths analysis_results;
    vulnerable_paths := r_vulnerable_paths analysis_results;
    orphaned_dependencies := r_orphaned_dependencies analysis_results;
    circular_dependencies := r_circular_dependencies analysis_results;
    single_points_of_failure := r_single_points_of_failure analysis_results;
    supply_chain_score := supply_chain_score;
    recommendations := recommendations;
    a_nodes := nodes;
    a_edges := edges |} in
  _ <- undefined_method (A := unit) "_store_analysis";;
  Ok (analysis, snd built).

End Pipeline.

End Analyzer.

Import Analyzer.

(* ===================================================================== *)
(** ** The specification's formulas, written from its own words *)
(* ===================================================================== *)

Module Spec.

Local Open Scope Q_scope.

(** [clamp(x, lo, hi)] *)
Definition clamp (x lo hi : Q) : Q := Qmax lo (Qmin hi x).

(** Average over all nodes of [10 - risk_score]. *)
Definition base_score (nodes : list SupplyChainNode) : Q :=
  Qsum (map (fun n => 10 - n_risk_score n) nodes) / Qlen nodes.

(** Number of nodes that satisfy a test. *)
Definition count (p : SupplyChainNode -> bool) (nodes : list SupplyChainNode)
  : Q :=
  Qlen (filter p nodes).

(** The penalties, summed without any intermediate floor. *)
Definition total_penalties (nodes : list SupplyChainNode)
    (circular : list (list string)) (spof orphaned : list string) : Q :=
  Qlen circular * 0.5
  + Qlen spof * 0.3
  + Qlen orphaned * 0.2
  + count (fun n => Qltb 7.0 (n_risk_score n)) nodes * 0.4
  + count (fun n => TrustLevel_eqb (n_trust_level n) UNTRUSTED) nodes * 0.6.

(** Age penalty with "older than 5 years" read as more than 5 * 365 days. *)
Definition age_penalty_five_years (age_days : Q) : Q :=
  if Qltb age_days 30 then 1.0
  else if Qltb (5 * 365) age_days then 0.5
  else 0.

(** Age penalty with the threshold of 2000 days. *)
Definition age_penalty (age_days : Q) : Q :=
  if Qltb age_days 30 then 1.0
  else if Qltb 2000 age_days then 0.5
  else 0.

Definition popularity_penalty (downloads : Q) : Q :=
  if Qltb downloads 1000 then 1.0
  else if Qltb downloads 10000 then 0.5
  else 0.

Definition maintainer_penalty (maintainer_count : nat) : Q :=
  match maintainer_count with
  | 1%nat => 0.5
  | 0%nat => 1.0
  | _ => 0
  end.

(** The weighted sum before the depth term and the cap. *)
Definition risk_sum (age : Q -> Q) (critical vulns age_days downloads : Q)
    (maintainer_count : nat) : Q :=
  critical * 2.0 + vulns * 0.5 + age age_days
  + popularity_penalty downloads + maintainer_penalty maintainer_count.

(** Shortest-path distance from the first node of the graph, when there is
    one. *)
Definition distance_from_first_node (graph : DiGraph) (node_id : string)
  : option nat :=
  match first_node graph with
  | Ok root =>
      match NX.shortest_path_length graph root node_id with
      | Ok d => Some d
      | Raise _ => None
      end
  | Raise _ => None
  end.

(** 0.1 per edge of distance, nothing for a node that is not reached. *)
Definition depth_penalty (distance : option nat) : Q :=
  match distance with
  | Some d => inject_Z (Z.of_nat d) * 0.1
  | None => 0
  end.

(** The lookups made for a node, in the order in which they are made: the
    registry of its package manager when there is one, then the security
    sources, then the trust databases. *)
Definition lookups {CL : Clients} (package_manager : string)
    (name version : pyval) : list (string * result pyval) :=
  ((if str_mem package_manager package_registries
    then [("registry_info", get_package_info package_manager name version)]
    else [])
   ++ [("security_info",
        _get_security_information name version package_manager);
       ("trust_info",
        _get_trust_information name version package_manager)])%list.

(** The answers received before the first lookup that raises, and the
    exception of that lookup. *)
Fixpoint answers_before_failure (calls : list (string * result pyval))
  : dict * option exn :=
  match calls with
  | [] => ([], None)
  | (key, Ok v) :: rest =>
      let r := answers_before_failure rest in ((key, v) :: fst r, snd r)
  | (_, Raise e) :: _ => ([], Some e)
  end.

(** A node after the merge of its own enrichment outcome. *)
Definition enriched_node {CL : Clients} (task : string * dict)
  : string * dict :=
  (fst task,
   match fst (_enrich_node_data (fst task) (snd task)) with
   | Ok data => update (snd task) data
   | Raise _ => snd task
   end).

(** The two endpoints named by a dependency record. *)
Definition endpoints (dep : dict) : option (string * string) :=
  match get dep "source" PNone, get dep "target" PNone with
  | PStr u, PStr v => Some (u, v)
  | _, _ => None
  end.

(** The dependency records with both endpoints in the node set, one pair
    per record, in the order of the SBOM. *)
Definition accepted_entries (graph : DiGraph) (dependencies : list dict)
  : list (string * string) :=
  flat_map (fun dep =>
      match endpoints dep with
      | Some (u, v) =>
          if str_mem u (nodes graph) && str_mem v (nodes graph)
          then [(u, v)] else []
      | None => []
      end)
    dependencies.

(** The shape of a record produced by [_extract_dependencies]. *)
Definition dependency_record (dep : dict) : Prop :=
  exists source target,
    dep = [("source", source); ("target", target);
           ("type", PStr "depends_on")].

(** Every edge of the graph carries the type 'depends_on'. *)
Definition edges_typed (g : DiGraph) : Prop :=
  forall u v data,
    NX.edge_data g u v = Ok data ->
    get data "type" (PStr "direct") = PStr "depends_on".

(** One enrichment outcome, as [asyncio.gather] hands it back. *)
Definition outcome_of {CL : Clients} (task : string * dict) : result dict :=
  fst (_enrich_node_data (fst task) (snd task)).

(** The trust rules in their order of precedence. *)
Definition trust_rule (signed : bool) (reputation incidents : Q) : TrustLevel :=
  if signed then VERIFIED
  else if Qltb 0.8 reputation then TRUSTED
  else if Qltb reputation 0.3 then SUSPICIOUS
  else if Qltb 3 incidents then UNTRUSTED
  else NEUTRAL.

End Spec.

(* ===================================================================== *)
(** ** Sample inputs *)
(* ===================================================================== *)

Module Samples.

Local Open Scope Q_scope.

Definition sample_runtime : Runtime := {|
  py_repr := fun _ => "";
  betweenness_centrality := fun _ => Ok [];
  closeness_centrality := fun _ => Ok [];
  pagerank := fun _ => Ok []
|}.

(** Clients whose trust database cannot be reached. *)
Definition trust_down_clients : Clients := {|
  get_package_info := fun _ _ _ => Ok (PDict []);
  _get_security_information := fun _ _ _ =>
    Ok (PDict [("vulnerability_count", PInt 0);
               ("critical_vulnerabilities", PInt 0);
               ("security_advisories", PList [])]);
  _get_trust_information := fun _ _ _ =>
    Raise (LookupFailure "trust database unreachable")
|}.

Definition component (name version : string) : pyval :=
  PDict [("name", PStr name); ("version", PStr version)].

Definition depends (ref : string) (dependsOn : list string) : pyval :=
  PDict [("ref", PStr ref); ("dependsOn", PList (map PStr dependsOn))].

Definition cyclonedx (components dependencies : list pyval) : dict :=
  [("bomFormat", PStr "CycloneDX");
   ("components", PList components);
   ("dependencies", PList dependencies)].


(** [A@1.0] depends on [B@2.0]. *)
Definition sbom_one_edge : dict :=
  cyclonedx [component "A" "1.0"; component "B" "2.0"]
            [depends "A@1.0" ["B@2.0"]].

(** The same dependency listed twice. *)
Definition sbom_duplicate_entry : dict :=
  cyclonedx [component "A" "1.0"; component "B" "2.0"]
            [depends "A@1.0" ["B@2.0"; "B@2.0"]].

(** A component that depends on itself. *)
Definition sbom_self_loop : dict :=
  cyclonedx [component "A" "1.0"] [depends "A@1.0" ["A@1.0"]].

(** A dependency on a component that the SBOM does not list. *)
Definition sbom_dangling_entry : dict :=
  cyclonedx [component "A" "1.0"; component "B" "2.0"]
            [depends "A@1.0" ["B@2.0"; "C@3.0"]].

(** A component record without a name. *)
Definition sbom_missing_name : dict :=
  cyclonedx [PDict [("version", PStr "1.0")]] [].

(** A lone component. *)
Definition sbom_single : dict := cyclonedx [component "A" "1.0"] [].

(** Node data of a package published 1900 days ago. *)
Definition old_package : dict :=
  [("name", PStr "A"); ("version", PStr "1.0");
   ("registry_info", PDict [("age_days", PInt 1900)])].

(** Node data with two critical vulnerabilities and nothing else. *)
Definition two_critical : dict :=
  [("name", PStr "A"); ("version", PStr "1.0");
   ("security_info", PDict [("critical_vulnerabilities", PInt 2)])].



(** A graph with the single node [A@1.0]. *)
Definition single_node_graph : DiGraph :=
  add_node NX.empty "A@1.0" [].



Definition neutral_node (risk : Q) : SupplyChainNode := {|
  n_id := "A@1.0";
  n_name := PStr "A";
  n_version := PStr "1.0";
  n_package_manager := "unknown";
  n_dependency_type := DIRECT;
  n_trust_level := NEUTRAL;
  n_risk_score := risk;
  n_maintainer_info := [];
  n_repository_info := [];
  n_security_metrics := [];
  n_metadata := []
|}.

Definition no_findings : GraphAnalysis := {|
  r_max_depth := 0;
  r_average_degree := 0;
  r_risk_distribution := [];
  r_trust_distribution := [];
  r_critical_paths := [];
  r_vulnerable_paths := [];
  r_orphaned_dependencies := [];
  r_circular_dependencies := [];
  r_single_points_of_failure := [];
  r_betweenness_centrality := [];
  r_closeness_centrality := [];
  r_pagerank := []
|}.

End Samples.

(* ===================================================================== *)
(** ** Basic facts *)
(* ===================================================================== *)

Section BasicFacts.

Local Open Scope Q_scope.

Lemma Qltb_lt (x y : Q) : Qltb x y = true <-> x < y.
Proof.
  unfold Qltb. rewrite negb_true_iff.
  split; intro H.
  - apply Qnot_le_lt. intro Hle. apply Qle_bool_iff in Hle. congruence.
  - destruct (Qle_bool y x) eqn:E; [|reflexivity].
    apply Qle_bool_iff in E. exfalso. exact (Qlt_not_le _ _ H E).
Qed.

Lemma Qltb_ge (x y : Q) : Qltb x y = false <-> y <= x.
Proof.
  unfold Qltb. rewrite negb_false_iff. apply Qle_bool_iff.
Qed.

Lemma Qlen_nil {A} : Qlen (@nil A) == 0.
Proof. reflexivity. Qed.

Lemma Qlen_nonneg {A} (xs : list A) : 0 <= Qlen xs.
Proof.
  unfold Qlen. change 0 with (inject_Z 0). rewrite <- Zle_Qle. lia.
Qed.

Lemma Qlen_map {A B} (f : A -> B) (xs : list A) : Qlen (map f xs) = Qlen xs.
Proof. unfold Qlen. now rewrite length_map. Qed.

Lemma fold_left_Qplus_ext {A} (f g : A -> Q) (xs : list A) :
  (forall x, f x == g x) ->
  forall a b, a == b ->
  fold_left Qplus (map f xs) a == fold_left Qplus (map g xs) b.
Proof.
  intro Hfg. induction xs as [|x xs IH]; intros a b Hab; simpl.
  - exact Hab.
  - apply IH. rewrite Hab, (Hfg x). reflexivity.
Qed.

Lemma Qsum_map_ext {A} (f g : A -> Q) (xs : list A) :
  (forall x, f x == g x) -> Qsum (map f xs) == Qsum (map g xs).
Proof.
  intro Hfg. unfold Qsum. apply fold_left_Qplus_ext; [exact Hfg|reflexivity].
Qed.

(** A penalty guarded by [if xs:] is the unguarded product. *)
Lemma guarded_penalty {A} (xs : list A) (p w : Q) :
  (if nonempty xs then p + Qlen xs * w else p) == p + Qlen xs * w.
Proof.
  destruct xs as [|x xs]; simpl.
  - rewrite Qlen_nil. lra.
  - reflexivity.
Qed.

Lemma high_risk_spec (n : SupplyChainNode) :
  high_risk n = true <-> 7 < n_risk_score n.
Proof. unfold high_risk. rewrite Qltb_lt. split; intro H; lra. Qed.

Lemma untrusted_spec (n : SupplyChainNode) :
  untrusted n = true <-> n_trust_level n = UNTRUSTED.
Proof.
  unfold untrusted. destruct (n_trust_level n); simpl; split; congruence.
Qed.

End BasicFacts.

(* ===================================================================== *)
(** ** The aggregate score *)
(* ===================================================================== *)

Section Score.

Local Open Scope Q_scope.

(** C2.  For a non-empty node list the aggregate score is
    [clamp(base_score - total_penalties, 0, 10)]: the base score is the mean
    of [10 - risk_score], the penalties are 0.5 per circular dependency,
    0.3 per single point of failure, 0.2 per orphaned dependency, 0.4 per
    node whose risk score exceeds 7.0 and 0.6 per untrusted node, summed
    without a floor, and the clamp is taken once, on the difference. *)
Theorem supply_chain_score_formula
    (nodes : list SupplyChainNode) (edges : list SupplyChainEdge)
    (analysis_results : GraphAnalysis) :
  nodes <> [] ->
  _calculate_supply_chain_score nodes edges analysis_results
  == Spec.clamp
       (Spec.base_score nodes
        - Spec.total_penalties nodes
            (r_circular_dependencies analysis_results)
            (r_single_points_of_failure analysis_results)
            (r_orphaned_dependencies analysis_results))
       0 10.
Proof.
  intro Hne.
  unfold _calculate_supply_chain_score.
  destruct nodes as [|n nodes]; [congruence|].
  change (negb (nonempty (n :: nodes))) with false. cbv iota zeta.
  rewrite !guarded_penalty.
  unfold Spec.clamp, Spec.base_score, Spec.total_penalties, Spec.count.
  rewrite Qlen_map.
  apply Q.max_compat; [reflexivity|].
  apply Q.min_compat; [reflexivity|].
  fold high_risk. fold untrusted.
  change (fun n0 : SupplyChainNode => Qltb 7.0 (n_risk_score n0))
    with high_risk.
  change (fun n0 : SupplyChainNode => TrustLevel_eqb (n_trust_level n0) UNTRUSTED)
    with untrusted.
  unfold Qminus. apply Qplus_comp.
  - apply Qmult_comp; [|reflexivity].
    apply Qsum_map_ext. intro x. lra.
  - apply Qopp_comp. lra.
Qed.

End Score.

(* ===================================================================== *)
(** ** Trust level *)
(* ===================================================================== *)

Section Trust.

Local Open Scope Q_scope.

Variable node_data : dict.
Variable trust_info : dict.
Hypothesis trust_info_present :
  get node_data "trust_info" (PDict []) = PDict trust_info.

Let signed := truthy (get trust_info "signed" (PBool false)).
Let reputation := as_num (get trust_info "maintainer_reputation" (PFloat 0.5)).
Let incidents := as_num (get trust_info "security_incidents" (PInt 0)).

Lemma trust_level_unfold :
  _calculate_trust_level node_data =
  if signed then Ok VERIFIED
  else
    maintainer_score <- reputation;;
    if Qltb 0.8 maintainer_score then Ok TRUSTED
    else if Qltb maintainer_score 0.3 then Ok SUSPICIOUS
    else
      security_incidents <- incidents;;
      if Qltb 3 security_incidents then Ok UNTRUSTED else Ok NEUTRAL.
Proof.
  unfold _calculate_trust_level. rewrite trust_info_present. reflexivity.
Qed.

(** C10.  The trust rules apply in a fixed order.  A signed package is
    [VERIFIED] whatever its maintainer reputation and incident count.
    Otherwise a reputation above 0.8 gives [TRUSTED] and one below 0.3 gives
    [SUSPICIOUS], both before the incident count is looked at.  Otherwise
    more than 3 security incidents give [UNTRUSTED], and every remaining
    node is [NEUTRAL]. *)
Theorem trust_level_precedence :
  (signed = true -> _calculate_trust_level node_data = Ok VERIFIED)
  /\ (forall rep,
        signed = false -> reputation = Ok rep -> 0.8 < rep ->
        _calculate_trust_level node_data = Ok TRUSTED)
  /\ (forall rep,
        signed = false -> reputation = Ok rep -> rep < 0.3 ->
        _calculate_trust_level node_data = Ok SUSPICIOUS)
  /\ (forall rep inc,
        signed = false -> reputation = Ok rep -> 0.3 <= rep <= 0.8 ->
        incidents = Ok inc -> 3 < inc ->
        _calculate_trust_level node_data = Ok UNTRUSTED)
  /\ (forall rep inc,
        signed = false -> reputation = Ok rep -> 0.3 <= rep <= 0.8 ->
        incidents = Ok inc -> inc <= 3 ->
        _calculate_trust_level node_data = Ok NEUTRAL).
Proof.
  rewrite trust_level_unfold.
  repeat split.
  - intros ->. reflexivity.
  - intros rep -> -> Hrep. simpl.
    apply Qltb_lt in Hrep. now rewrite Hrep.
  - intros rep -> -> Hrep. simpl.
    assert (H1 : Qltb 0.8 rep = false) by (apply Qltb_ge; lra).
    apply Qltb_lt in Hrep. now rewrite H1, Hrep.
  - intros rep inc -> -> [Hlo Hhi] -> Hinc. simpl.
    apply Qltb_ge in Hlo, Hhi. apply Qltb_lt in Hinc.
    now rewrite Hhi, Hlo, Hinc.
  - intros rep inc -> -> [Hlo Hhi] -> Hinc. simpl.
    apply Qltb_ge in Hlo, Hhi, Hinc.
    now rewrite Hhi, Hlo, Hinc.
Qed.

End Trust.

(* ===================================================================== *)
(** ** Per-node risk score *)
(* ===================================================================== *)

Section Risk.

Local Open Scope Q_scope.

Lemma depth_term_spec (graph : DiGraph) (node_id : string) :
  depth_term graph node_id
  = Spec.depth_penalty (Spec.distance_from_first_node graph node_id).
Proof.
  unfold depth_term, Spec.distance_from_first_node, Spec.depth_penalty.
  destruct (first_node graph) as [root|e]; simpl; [|reflexivity].
  destruct (shortest_path_length graph root node_id); reflexivity.
Qed.

Lemma depth_penalty_nonneg (distance : option nat) :
  0 <= Spec.depth_penalty distance.
Proof.
  destruct distance as [d|]; simpl; [|lra].
  assert (H : 0 <= inject_Z (Z.of_nat d)).
  { change 0 with (inject_Z 0). rewrite <- Zle_Qle. lia. }
  lra.
Qed.

Lemma age_penalty_nonneg (a : Q) : 0 <= Spec.age_penalty a.
Proof.
  unfold Spec.age_penalty.
  destruct (Qltb a 30); [lra|]. destruct (Qltb 2000 a); lra.
Qed.

Lemma popularity_penalty_nonneg (d : Q) : 0 <= Spec.popularity_penalty d.
Proof.
  unfold Spec.popularity_penalty.
  destruct (Qltb d 1000); [lra|]. destruct (Qltb d 10000); lra.
Qed.

Lemma maintainer_penalty_nonneg (m : nat) : 0 <= Spec.maintainer_penalty m.
Proof.
  destruct m as [|[|m]]; simpl; lra.
Qed.

(** The score of a node whose enrichment data reads as the given numbers. *)
Lemma node_risk_score_value
    (node_data security_info registry_info : dict)
    (graph : DiGraph) (node_id : string)
    (critical vulns age_days downloads : Q) (maintainer_count : nat) :
  get node_data "security_info" (PDict []) = PDict security_info ->
  get node_data "registry_info" (PDict []) = PDict registry_info ->
  to_float (get security_info "critical_vulnerabilities" (PInt 0)) = Ok critical ->
  to_float (get security_info "vulnerability_count" (PInt 0)) = Ok vulns ->
  as_num (get registry_info "age_days" (PInt 365)) = Ok age_days ->
  as_num (get registry_info "downloads" (PInt 0)) = Ok downloads ->
  len (get registry_info "maintainers" (PList [])) = Ok maintainer_count ->
  exists r,
    _calculate_node_risk_score node_data graph node_id = Ok r
    /\ r == Qmin
              (Spec.risk_sum Spec.age_penalty critical vulns age_days
                 downloads maintainer_count
               + Spec.depth_penalty
                   (Spec.distance_from_first_node graph node_id))
              10.
Proof.
  intros Hsec Hreg Hcrit Hvuln Hage Hdl Hm.
  unfold _calculate_node_risk_score.
  rewrite Hsec. cbn [as_dict bind].
  rewrite Hcrit. cbn [bind].
  rewrite Hvuln. cbn [bind].
  rewrite Hreg. cbn [as_dict bind].
  rewrite Hage. cbn [bind].
  rewrite Hdl. cbn [bind].
  rewrite Hm. cbn [bind].
  eexists. split; [reflexivity|].
  rewrite depth_term_spec.
  apply Q.min_compat; [|reflexivity].
  unfold Spec.risk_sum, Spec.age_penalty, Spec.popularity_penalty.
  destruct (Qltb age_days 30), (Qltb 2000 age_days),
    (Qltb downloads 1000), (Qltb downloads 10000),
    maintainer_count as [|[|m]]; simpl; lra.
Qed.

(** A computed score comes from enrichment data that reads as numbers. *)
Lemma node_risk_score_reads
    (node_data : dict) (graph : DiGraph) (node_id : string) (r : Q) :
  _calculate_node_risk_score node_data graph node_id = Ok r ->
  exists security_info registry_info critical vulns age_days downloads
         maintainer_count,
    get node_data "security_info" (PDict []) = PDict security_info
    /\ get node_data "registry_info" (PDict []) = PDict registry_info
    /\ to_float (get security_info "critical_vulnerabilities" (PInt 0))
       = Ok critical
    /\ to_float (get security_info "vulnerability_count" (PInt 0)) = Ok vulns
    /\ as_num (get registry_info "age_days" (PInt 365)) = Ok age_days
    /\ as_num (get registry_info "downloads" (PInt 0)) = Ok downloads
    /\ len (get registry_info "maintainers" (PList [])) = Ok maintainer_count.
Proof.
  unfold _calculate_node_risk_score. intro H.
  destruct (get node_data "security_info" (PDict [])) as [| | | | |?|si];
    try discriminate H.
  cbn [as_dict bind] in H.
  destruct (to_float (get si "critical_vulnerabilities" (PInt 0)))
    as [c|] eqn:Hc; [|discriminate H].
  cbn [bind] in H.
  destruct (to_float (get si "vulnerability_count" (PInt 0)))
    as [v|] eqn:Hv; [|discriminate H].
  cbn [bind] in H.
  destruct (get node_data "registry_info" (PDict [])) as [| | | | |?|reg];
    try discriminate H.
  cbn [as_dict bind] in H.
  destruct (as_num (get reg "age_days" (PInt 365)))
    as [a|] eqn:Ha; [|discriminate H].
  cbn [bind] in H.
  destruct (as_num (get reg "downloads" (PInt 0)))
    as [d|] eqn:Hd; [|discriminate H].
  cbn [bind] in H.
  destruct (len (get reg "maintainers" (PList [])))
    as [m|] eqn:Hm; [|discriminate H].
  exists si, reg, c, v, a, d, m. repeat split; assumption.
Qed.

(** With the enrichment data of a node read as numbers (the defaults
    standing for missing entries), its risk score is the sum of critical
    vulnerabilities x 2.0, vulnerability count x 0.5, the age penalty (+1.0
    below 30 days, +0.5 above 2000 days), the popularity penalty (+1.0 below
    1000 downloads, else +0.5 below 10000), the maintainer penalty (+0.5
    for one maintainer, +1.0 for none) and 0.1 x the shortest-path distance
    from the first node of the graph (nothing when the node is not reached
    from it), capped at 10.  For non-negative counts the cap is the clamp to
    [0,10], and with two critical vulnerabilities the score is at least
    4.0. *)
Lemma node_risk_score_formula
    (node_data security_info registry_info : dict)
    (graph : DiGraph) (node_id : string)
    (critical vulns age_days downloads : Q) (maintainer_count : nat) :
  get node_data "security_info" (PDict []) = PDict security_info ->
  get node_data "registry_info" (PDict []) = PDict registry_info ->
  to_float (get security_info "critical_vulnerabilities" (PInt 0)) = Ok critical ->
  to_float (get security_info "vulnerability_count" (PInt 0)) = Ok vulns ->
  as_num (get registry_info "age_days" (PInt 365)) = Ok age_days ->
  as_num (get registry_info "downloads" (PInt 0)) = Ok downloads ->
  len (get registry_info "maintainers" (PList [])) = Ok maintainer_count ->
  let total :=
    Spec.risk_sum Spec.age_penalty critical vulns age_days downloads
      maintainer_count
    + Spec.depth_penalty (Spec.distance_from_first_node graph node_id) in
  exists r,
    _calculate_node_risk_score node_data graph node_id = Ok r
    /\ r == Qmin total 10
    /\ (0 <= critical -> 0 <= vulns -> r == Spec.clamp total 0 10)
    /\ (critical == 2 -> 0 <= vulns -> 4 <= r).
Proof.
  intros Hsec Hreg Hcrit Hvuln Hage Hdl Hm total.
  destruct (node_risk_score_value _ _ _ graph node_id _ _ _ _ _
              Hsec Hreg Hcrit Hvuln Hage Hdl Hm) as [r [Hr Hval]].
  fold total in Hval.
  exists r. split; [exact Hr|]. split; [exact Hval|].
  assert (Hbound : 0 <= critical -> 0 <= vulns ->
                   critical * 2 + vulns * 0.5 <= total).
  { intros Hc Hv. unfold total, Spec.risk_sum.
    pose proof (age_penalty_nonneg age_days).
    pose proof (popularity_penalty_nonneg downloads).
    pose proof (maintainer_penalty_nonneg maintainer_count).
    pose proof (depth_penalty_nonneg
                  (Spec.distance_from_first_node graph node_id)).
    lra. }
  split.
  - intros Hc Hv. specialize (Hbound Hc Hv).
    rewrite Hval. unfold Spec.clamp. rewrite (Q.min_comm 10 total).
    symmetry. apply Q.max_r.
    apply Q.min_glb; lra.
  - intros Hc Hv.
    assert (Hc0 : 0 <= critical) by lra.
    specialize (Hbound Hc0 Hv).
    rewrite Hval. apply Q.min_glb; lra.
Qed.


End Risk.

(* ===================================================================== *)
(** ** Association lists *)
(* ===================================================================== *)

Section AListFacts.

Context {V : Type}.
Implicit Types (l : list (string * V)) (k : string) (v : V).

Lemma alist_get_set_same l k v : alist_get (alist_set l k v) k = Some v.
Proof.
  induction l as [|[k' v'] l IH]; simpl.
  - now rewrite String.eqb_refl.
  - destruct (String.eqb k k') eqn:E; simpl; rewrite E; [reflexivity|exact IH].
Qed.

Lemma alist_get_set_other l k k' v :
  k <> k' -> alist_get (alist_set l k v) k' = alist_get l k'.
Proof.
  intro Hne. induction l as [|[k0 v0] l IH]; simpl.
  - destruct (String.eqb k' k) eqn:E; [|reflexivity].
    apply String.eqb_eq in E. congruence.
  - destruct (String.eqb k k0) eqn:E; simpl.
    + apply String.eqb_eq in E. subst k0.
      destruct (String.eqb k' k) eqn:E'; [|reflexivity].
      apply String.eqb_eq in E'. congruence.
    + now rewrite IH.
Qed.

Lemma alist_mem_In l k : alist_mem l k = true <-> In k (keys l).
Proof.
  unfold alist_mem. induction l as [|[k' v'] l IH]; simpl.
  - split; [discriminate|tauto].
  - destruct (String.eqb k k') eqn:E.
    + apply String.eqb_eq in E. subst. tauto.
    + apply String.eqb_neq in E. rewrite IH. split; [tauto|].
      intros [H|H]; [congruence|exact H].
Qed.

Lemma alist_mem_false l k : alist_mem l k = false <-> ~ In k (keys l).
Proof.
  rewrite <- alist_mem_In. destruct (alist_mem l k); split; congruence.
Qed.

Lemma alist_get_None l k : alist_get l k = None <-> ~ In k (keys l).
Proof.
  rewrite <- alist_mem_false. unfold alist_mem.
  destruct (alist_get l k); split; congruence.
Qed.

Lemma keys_set_present l k v :
  In k (keys l) -> keys (alist_set l k v) = keys l.
Proof.
  induction l as [|[k' v'] l IH]; simpl; [tauto|].
  intro H. destruct (String.eqb k k') eqn:E; simpl; [reflexivity|].
  apply String.eqb_neq in E. f_equal. apply IH.
  destruct H as [H|H]; [congruence|exact H].
Qed.

Lemma keys_set_absent l k v :
  ~ In k (keys l) -> keys (alist_set l k v) = (keys l ++ [k])%list.
Proof.
  induction l as [|[k' v'] l IH]; simpl; [reflexivity|].
  intro H. destruct (String.eqb k k') eqn:E.
  - apply String.eqb_eq in E. subst. tauto.
  - simpl. f_equal. apply IH. tauto.
Qed.

Lemma keys_app l1 l2 : keys (l1 ++ l2) = (keys l1 ++ keys l2)%list.
Proof. apply map_app. Qed.

Lemma alist_get_app_absent l1 l2 k :
  ~ In k (keys l1) -> alist_get (l1 ++ l2) k = alist_get l2 k.
Proof.
  induction l1 as [|[k' v'] l1 IH]; simpl; [reflexivity|].
  intro H. destruct (String.eqb k k') eqn:E.
  - apply String.eqb_eq in E. subst. tauto.
  - apply IH. tauto.
Qed.

Lemma alist_set_app_absent l1 l2 k v :
  ~ In k (keys l1) -> alist_set (l1 ++ l2) k v = (l1 ++ alist_set l2 k v)%list.
Proof.
  induction l1 as [|[k' v'] l1 IH]; simpl; [reflexivity|].
  intro H. destruct (String.eqb k k') eqn:E.
  - apply String.eqb_eq in E. subst. tauto.
  - f_equal. apply IH. tauto.
Qed.

Lemma alist_get_In l k v :
  NoDup (keys l) -> (alist_get l k = Some v <-> In (k, v) l).
Proof.
  induction l as [|[k' v'] l IH]; simpl; intro Hnd.
  - split; [discriminate|tauto].
  - inversion Hnd as [|? ? Hnotin Hnd']; subst.
    destruct (String.eqb k k') eqn:E.
    + apply String.eqb_eq in E. subst k'. split.
      * intros [= ->]. now left.
      * intros [[= ->]|Hin]; [reflexivity|].
        exfalso. apply Hnotin. change k with (fst (k, v)).
        now apply in_map.
    + apply String.eqb_neq in E. rewrite (IH Hnd'). split; [tauto|].
      intros [[= <- <-]|Hin]; [congruence|exact Hin].
Qed.

Lemma NoDup_keys_set l k v : NoDup (keys l) -> NoDup (keys (alist_set l k v)).
Proof.
  intro Hnd. destruct (in_dec string_dec k (keys l)) as [Hin|Hnotin].
  - now rewrite keys_set_present.
  - rewrite keys_set_absent by exact Hnotin.
    apply NoDup_app; [exact Hnd|repeat constructor; simpl; tauto|].
    intros x Hx [Hk|[]]. subst. tauto.
Qed.

End AListFacts.

(* ===================================================================== *)
(** ** Directed graphs *)
(* ===================================================================== *)

Section GraphFacts.

Lemma wf_empty : wf NX.empty.
Proof. split; simpl; constructor. Qed.

Lemma wf_add_node (g : DiGraph) (n : string) (attr : dict) :
  wf g -> wf (add_node g n attr).
Proof.
  intros [Hn Hr Hs]. unfold add_node.
  destruct (alist_get (_node g) n) as [d|] eqn:E; split; simpl.
  - apply NoDup_keys_set, Hn.
  - rewrite keys_set_present; [exact Hr|].
    apply alist_mem_In. unfold alist_mem. now rewrite E.
  - exact Hs.
  - apply alist_get_None in E. rewrite keys_app. simpl.
    apply NoDup_app; [exact Hn|repeat constructor; simpl; tauto|].
    intros x Hx [Hk|[]]. subst. tauto.
  - rewrite !keys_app, Hr. reflexivity.
  - apply Forall_app. split; [exact Hs|]. repeat constructor.
Qed.

Lemma nodes_add_node (g : DiGraph) (n : string) (attr : dict) (x : string) :
  In x (nodes (add_node g n attr)) <-> In x (nodes g) \/ x = n.
Proof.
  unfold nodes, add_node.
  destruct (alist_get (_node g) n) as [d|] eqn:E; simpl.
  - assert (Hin : In n (keys (_node g))).
    { apply alist_mem_In. unfold alist_mem. now rewrite E. }
    rewrite keys_set_present by exact Hin.
    split; [tauto|]. intros [H | ->]; assumption.
  - rewrite keys_app, in_app_iff. simpl. split.
    + intros [H|[H|H]]; [now left|now right|destruct H].
    + intros [H | ->]; [now left|right; now left].
Qed.

(** With both endpoints present, [add_edge] touches one successor row. *)
Lemma add_edge_present (g : DiGraph) (u v : string) (attr : dict) :
  alist_mem (_node g) u = true ->
  alist_mem (_node g) v = true ->
  add_edge g u v attr =
  {| _node := _node g;
     _adj :=
       alist_set (_adj g) u
         (alist_set
            (match alist_get (_adj g) u with Some l => l | None => [] end) v
            (update
               (match
                   alist_get
                     (match alist_get (_adj g) u with
                      | Some l => l
                      | None => []
                      end) v
                 with
                 | Some d => d
                 | None => []
                 end) attr)) |}.
Proof.
  intros Hu Hv. unfold add_edge. rewrite Hu, Hv. reflexivity.
Qed.

Lemma rows_set_NoDup (rows : list (string * list (string * dict)))
    (u : string) (row : list (string * dict)) :
  Forall (fun r => NoDup (keys (snd r))) rows ->
  NoDup (keys row) ->
  Forall (fun r => NoDup (keys (snd r))) (alist_set rows u row).
Proof.
  intros Hs Hrow. induction rows as [|[k r] rows IH]; simpl.
  - repeat constructor. exact Hrow.
  - inversion Hs; subst.
    destruct (String.eqb u k); constructor; auto.
Qed.

Lemma wf_add_edge (g : DiGraph) (u v : string) (attr : dict) :
  wf g ->
  alist_mem (_node g) u = true ->
  alist_mem (_node g) v = true ->
  wf (add_edge g u v attr).
Proof.
  intros [Hn Hr Hs] Hu Hv. rewrite add_edge_present by assumption.
  assert (Hin : In u (keys (_adj g))).
  { rewrite Hr. now apply alist_mem_In. }
  split; simpl.
  - exact Hn.
  - now rewrite keys_set_present.
  - destruct (alist_get (_adj g) u) as [nbrs|] eqn:E.
    2:{ apply alist_get_None in E. tauto. }
    assert (Hnb : NoDup (keys nbrs)).
    { rewrite <- Hr in Hn. apply (alist_get_In _ _ _ Hn) in E.
      rewrite Forall_forall in Hs. exact (Hs _ E). }
    apply rows_set_NoDup; [exact Hs|].
    apply NoDup_keys_set, Hnb.
Qed.

Lemma has_edge_add_edge (g : DiGraph) (u v : string) (attr : dict)
    (x y : string) :
  alist_mem (_node g) u = true ->
  alist_mem (_node g) v = true ->
  has_edge (add_edge g u v attr) x y
  = has_edge g x y || (String.eqb x u && String.eqb y v).
Proof.
  intros Hu Hv. rewrite add_edge_present by assumption.
  unfold has_edge. simpl.
  destruct (String.eqb x u) eqn:Exu.
  - apply String.eqb_eq in Exu. subst x.
    rewrite alist_get_set_same.
    destruct (alist_get (_adj g) u) as [nbrs|]; unfold alist_mem.
    + destruct (String.eqb y v) eqn:Eyv.
      * apply String.eqb_eq in Eyv. subst y.
        rewrite alist_get_set_same. now rewrite orb_true_r.
      * apply String.eqb_neq in Eyv.
        rewrite alist_get_set_other by congruence.
        now rewrite orb_false_r.
    + simpl. now destruct (String.eqb y v).
  - apply String.eqb_neq in Exu.
    rewrite alist_get_set_other by congruence.
    now rewrite orb_false_r.
Qed.

Lemma edges_has_edge (g : DiGraph) (x y : string) :
  wf g -> (In (x, y) (edges g) <-> has_edge g x y = true).
Proof.
  intros [Hn Hr Hs]. rewrite <- Hr in Hn.
  unfold edges, has_edge. rewrite in_flat_map. split.
  - intros [[k nbrs] [Hrow Hin]]. simpl in Hin.
    apply in_map_iff in Hin. destruct Hin as [[k' d] [[= <- <-] Hcell]].
    apply (alist_get_In _ _ _ Hn) in Hrow. rewrite Hrow.
    apply alist_mem_In. change k' with (fst (k', d)). now apply in_map.
  - destruct (alist_get (_adj g) x) as [nbrs|] eqn:E; [|discriminate].
    intro Hmem. apply alist_mem_In in Hmem.
    apply (alist_get_In _ _ _ Hn) in E.
    exists (x, nbrs). split; [exact E|]. simpl.
    apply in_map_iff in Hmem. destruct Hmem as [[k' d] [<- Hcell]].
    apply in_map_iff. exists (k', d). split; [reflexivity|exact Hcell].
Qed.

Lemma NoDup_row_edges (k : string) (nbrs : list (string * dict)) :
  NoDup (keys nbrs) -> NoDup (map (fun cell => (k, fst cell)) nbrs).
Proof.
  induction nbrs as [|[v d] nbrs IH]; simpl; intro H; [constructor|].
  inversion H as [|? ? Hnotin Hnd]; subst. constructor; [|now apply IH].
  intro Hin. apply in_map_iff in Hin. destruct Hin as [[v' d'] [[= ->] Hc]].
  apply Hnotin. change v with (fst (v, d')). now apply in_map.
Qed.

Lemma NoDup_edges (g : DiGraph) : wf g -> NoDup (edges g).
Proof.
  intros [Hn Hr Hs]. rewrite <- Hr in Hn. clear Hr.
  unfold edges. induction (_adj g) as [|[k nbrs] rows IH]; simpl.
  - constructor.
  - inversion Hn as [|? ? Hnotin Hnd]; subst. inversion Hs; subst.
    apply NoDup_app.
    + now apply NoDup_row_edges.
    + now apply IH.
    + intros [a b] Hin1 Hin2.
      apply in_map_iff in Hin1. destruct Hin1 as [[v d] [[= <- <-] _]].
      apply in_flat_map in Hin2. destruct Hin2 as [[k' r] [Hrow Hcell]].
      simpl in Hcell. apply in_map_iff in Hcell.
      destruct Hcell as [[v' d'] [[= -> _] _]].
      apply Hnotin. change k with (fst (k, r)). now apply in_map.
Qed.

End GraphFacts.

(* ===================================================================== *)
(** ** Graph construction *)
(* ===================================================================== *)

Section BuilderFacts.

Context {RT : Runtime}.

Lemma wf_add_components (components : list dict) (g : DiGraph) :
  wf g -> wf (add_components g components).
Proof.
  unfold add_components. revert g.
  induction components as [|c cs IH]; intros g Hwf; simpl; [exact Hwf|].
  apply IH, wf_add_node, Hwf.
Qed.

Lemma node_id_nonempty (a b : string) : (a ++ "@" ++ b)%string <> "".
Proof. destruct a; discriminate. Qed.

Lemma add_components_nonempty (components : list dict) (g : DiGraph) :
  (forall n, In n (nodes g) -> n <> "") ->
  forall n, In n (nodes (add_components g components)) -> n <> "".
Proof.
  unfold add_components. revert g.
  induction components as [|c cs IH]; intros g Hg n; simpl; [apply Hg|].
  apply IH. intros m Hm. apply nodes_add_node in Hm.
  destruct Hm as [Hm | ->]; [now apply Hg|apply node_id_nonempty].
Qed.

Lemma has_node_In (g : DiGraph) (s : string) :
  has_node g (PStr s) = true <-> In s (nodes g).
Proof. apply alist_mem_In. Qed.

(** The guard of the second loop, spelled out. *)
Lemma dependency_guard (g : DiGraph) (dep : dict) :
  truthy (get dep "source" PNone) && truthy (get dep "target" PNone)
  && has_node g (get dep "source" PNone)
  && has_node g (get dep "target" PNone) = true
  <-> exists u v,
        get dep "source" PNone = PStr u /\ get dep "target" PNone = PStr v
        /\ u <> "" /\ v <> "" /\ In u (nodes g) /\ In v (nodes g).
Proof.
  rewrite !andb_true_iff. split.
  - intros [[[Hts Htt] Hs] Ht].
    destruct (get dep "source" PNone) as [| | | |u| |]; try discriminate Hs.
    destruct (get dep "target" PNone) as [| | | |v| |]; try discriminate Ht.
    exists u, v. simpl in Hts, Htt.
    apply negb_true_iff, String.eqb_neq in Hts, Htt.
    apply has_node_In in Hs, Ht. tauto.
  - intros (u & v & -> & -> & Hu & Hv & Hiu & Hiv). simpl.
    apply String.eqb_neq in Hu, Hv. rewrite Hu, Hv.
    apply has_node_In in Hiu, Hiv. unfold has_node in *. tauto.
Qed.

Lemma add_dependency_accepted (g : DiGraph) (dep : dict) (u v : string) :
  get dep "source" PNone = PStr u -> get dep "target" PNone = PStr v ->
  u <> "" -> v <> "" -> In u (nodes g) -> In v (nodes g) ->
  add_dependency g dep = add_edge g u v dep.
Proof.
  intros Hs Ht Hu Hv Hiu Hiv. unfold add_dependency.
  assert (G : truthy (get dep "source" PNone)
              && truthy (get dep "target" PNone)
              && has_node g (get dep "source" PNone)
              && has_node g (get dep "target" PNone) = true).
  { apply dependency_guard. exists u, v. tauto. }
  rewrite G, Hs, Ht. reflexivity.
Qed.

Lemma add_dependency_rejected (g : DiGraph) (dep : dict) :
  truthy (get dep "source" PNone) && truthy (get dep "target" PNone)
  && has_node g (get dep "source" PNone)
  && has_node g (get dep "target" PNone) = false ->
  add_dependency g dep = g.
Proof. intro G. unfold add_dependency. now rewrite G. Qed.

(** A record with an endpoint outside the node set leaves the graph as it
    is. *)
Lemma add_dependency_dangling (g : DiGraph) (dep : dict) :
  has_node g (get dep "source" PNone) = false
  \/ has_node g (get dep "target" PNone) = false ->
  add_dependency g dep = g.
Proof.
  intro H. apply add_dependency_rejected.
  destruct H as [H|H]; rewrite H; [rewrite andb_false_r|]; simpl;
    now rewrite ?andb_false_r.
Qed.

Lemma add_dependency_node (g : DiGraph) (dep : dict) :
  _node (add_dependency g dep) = _node g.
Proof.
  destruct (truthy (get dep "source" PNone)
            && truthy (get dep "target" PNone)
            && has_node g (get dep "source" PNone)
            && has_node g (get dep "target" PNone)) eqn:G.
  - apply dependency_guard in G.
    destruct G as (u & v & Hs & Ht & Hu & Hv & Hiu & Hiv).
    rewrite (add_dependency_accepted g dep u v) by assumption.
    apply has_node_In in Hiu, Hiv.
    now rewrite add_edge_present.
  - now rewrite add_dependency_rejected.
Qed.

Lemma add_dependencies_node (dependencies : list dict) (g : DiGraph) :
  _node (add_dependencies g dependencies) = _node g.
Proof.
  unfold add_dependencies. revert g.
  induction dependencies as [|d ds IH]; intro g; simpl; [reflexivity|].
  rewrite IH. apply add_dependency_node.
Qed.

Lemma wf_add_dependency (g : DiGraph) (dep : dict) :
  wf g -> wf (add_dependency g dep).
Proof.
  intro Hwf.
  destruct (truthy (get dep "source" PNone)
            && truthy (get dep "target" PNone)
            && has_node g (get dep "source" PNone)
            && has_node g (get dep "target" PNone)) eqn:G.
  - apply dependency_guard in G.
    destruct G as (u & v & Hs & Ht & Hu & Hv & Hiu & Hiv).
    rewrite (add_dependency_accepted g dep u v) by assumption.
    apply has_node_In in Hiu, Hiv. now apply wf_add_edge.
  - now rewrite add_dependency_rejected.
Qed.

Lemma wf_add_dependencies (dependencies : list dict) (g : DiGraph) :
  wf g -> wf (add_dependencies g dependencies).
Proof.
  unfold add_dependencies. revert g.
  induction dependencies as [|d ds IH]; intros g Hwf; simpl; [exact Hwf|].
  apply IH, wf_add_dependency, Hwf.
Qed.

(** An edge is in the graph after one record exactly when it was there
    before or the record names it and passes the guard. *)
Lemma has_edge_add_dependency (g : DiGraph) (dep : dict) (x y : string) :
  has_edge (add_dependency g dep) x y = true
  <-> has_edge g x y = true
      \/ (get dep "source" PNone = PStr x /\ get dep "target" PNone = PStr y
          /\ x <> "" /\ y <> "" /\ In x (nodes g) /\ In y (nodes g)).
Proof.
  destruct (truthy (get dep "source" PNone)
            && truthy (get dep "target" PNone)
            && has_node g (get dep "source" PNone)
            && has_node g (get dep "target" PNone)) eqn:G.
  - apply dependency_guard in G.
    destruct G as (u & v & Hs & Ht & Hu & Hv & Hiu & Hiv).
    rewrite (add_dependency_accepted g dep u v) by assumption.
    rewrite has_edge_add_edge by now apply has_node_In.
    rewrite orb_true_iff, andb_true_iff, !String.eqb_eq. split.
    + intros [H|[-> ->]]; [now left|right; tauto].
    + intros [H|(Hs' & Ht' & _)]; [now left|right].
      rewrite Hs in Hs'. rewrite Ht in Ht'.
      injection Hs' as ->. injection Ht' as ->. tauto.
  - rewrite add_dependency_rejected by exact G. split; [tauto|].
    intros [H|H]; [exact H|]. exfalso.
    assert (G' : truthy (get dep "source" PNone)
                 && truthy (get dep "target" PNone)
                 && has_node g (get dep "source" PNone)
                 && has_node g (get dep "target" PNone) = true).
    { apply dependency_guard. exists x, y. tauto. }
    congruence.
Qed.

Lemma has_edge_add_dependencies (dependencies : list dict) (g : DiGraph)
    (x y : string) :
  has_edge (add_dependencies g dependencies) x y = true
  <-> has_edge g x y = true
      \/ (exists dep,
            In dep dependencies
            /\ get dep "source" PNone = PStr x
            /\ get dep "target" PNone = PStr y
            /\ x <> "" /\ y <> "" /\ In x (nodes g) /\ In y (nodes g)).
Proof.
  unfold add_dependencies. revert g.
  induction dependencies as [|d ds IH]; intro g; simpl.
  - split; [tauto|]. intros [H|[dep [[] _]]]. exact H.
  - rewrite IH, has_edge_add_dependency.
    unfold nodes. rewrite add_dependency_node. fold (nodes g).
    split.
    + intros [[H|H]|[dep [Hin H]]].
      * now left.
      * right. exists d. tauto.
      * right. exists dep. tauto.
    + intros [H|[dep [[<-|Hin] H]]].
      * left. now left.
      * left. now right.
      * right. exists dep. tauto.
Qed.

(** Dropping a dangling record from the list changes nothing. *)
Lemma add_dependencies_drop (g : DiGraph) (before after : list dict)
    (dep : dict) :
  has_node g (get dep "source" PNone) = false
  \/ has_node g (get dep "target" PNone) = false ->
  add_dependencies g (before ++ dep :: after)
  = add_dependencies g (before ++ after).
Proof.
  intro H. unfold add_dependencies. rewrite !fold_left_app. simpl.
  f_equal. apply add_dependency_dangling.
  fold (add_dependencies g before).
  unfold has_node in *. now rewrite add_dependencies_node.
Qed.

End BuilderFacts.

(* ===================================================================== *)
(** ** Enrichment *)
(* ===================================================================== *)

Section EnrichmentFacts.

Context {CL : Clients}.


Lemma keys_enriched (tasks : list (string * dict)) :
  keys (map Spec.enriched_node tasks) = keys tasks.
Proof.
  unfold keys. rewrite map_map. reflexivity.
Qed.

Lemma update_nil (d : dict) : update d [] = d.
Proof. reflexivity. Qed.

(** The inner loop of a batch, started in the middle: the nodes before
    position [i + s] are merged already, those of [seg] are merged by the
    loop, and the nodes after them are left alone. *)
Lemma merge_loop (i : nat) (adj : list (string * list (string * dict)))
    (seg : list (string * dict)) :
  forall (pre post : list (string * dict)) (s : nat),
    List.length pre = (i + s)%nat ->
    NoDup (keys (pre ++ seg ++ post)) ->
    for_each (merge_one i)
      (combine (seq s (List.length seg)) (map Spec.outcome_of seg))
      {| _node := map Spec.enriched_node pre ++ seg ++ post; _adj := adj |}
    = Ok {| _node := map Spec.enriched_node (pre ++ seg) ++ post;
            _adj := adj |}.
Proof.
  induction seg as [|t seg IH]; intros pre post s Hlen Hnd.
  - simpl. now rewrite app_nil_r.
  - destruct t as [k d0].
    set (t := (k, d0)) in *.
    assert (Hfresh : ~ In k (keys (map Spec.enriched_node pre))).
    { rewrite keys_enriched. rewrite keys_app in Hnd.
      intro Hin. apply NoDup_app_remove_r in Hnd as Hpre.
      clear Hpre. revert Hnd Hin. clear. intros Hnd Hin.
      induction pre as [|p pre IHp]; simpl in *; [tauto|].
      inversion Hnd as [|? ? Hnotin Hnd']; subst.
      destruct Hin as [Hin|Hin].
      - apply Hnotin. rewrite Hin. apply in_or_app. right. now left.
      - now apply IHp. }
    assert (Het : Spec.enriched_node t
                  = (k, match fst (_enrich_node_data k d0) with
                        | Ok data => update d0 data
                        | Raise _ => d0
                        end)) by reflexivity.
    assert (Hnext :
      for_each (merge_one i)
        (combine (seq (S s) (List.length seg)) (map Spec.outcome_of seg))
        {| _node := map Spec.enriched_node (pre ++ [t]) ++ seg ++ post;
           _adj := adj |}
      = Ok {| _node := map Spec.enriched_node (pre ++ t :: seg) ++ post;
              _adj := adj |}).
    { replace (pre ++ t :: seg)%list with ((pre ++ [t]) ++ seg)%list
        by now rewrite <- app_assoc.
      apply IH.
      - rewrite length_app. simpl. lia.
      - rewrite <- app_assoc. exact Hnd. }
    change (for_each (merge_one i)
              (combine (seq s (List.length (t :: seg)))
                 (map Spec.outcome_of (t :: seg))) ?g)
      with (bind (merge_one i g (s, Spec.outcome_of t))
              (for_each (merge_one i)
                 (combine (seq (S s) (List.length seg))
                    (map Spec.outcome_of seg)))).
    assert (Hone :
      merge_one i
        {| _node := map Spec.enriched_node pre ++ (t :: seg) ++ post;
           _adj := adj |} (s, Spec.outcome_of t)
      = Ok {| _node := map Spec.enriched_node (pre ++ [t]) ++ seg ++ post;
              _adj := adj |}).
    { unfold merge_one. cbn [snd fst].
      rewrite map_app. cbn [map]. rewrite <- app_assoc. cbn [app].
      rewrite Het. unfold Spec.outcome_of. subst t. cbn [fst snd].
      destruct (fst (_enrich_node_data k d0)) as [data|e].
      - assert (Hl : List.length (keys (map Spec.enriched_node pre))
                     = (i + s)%nat).
        { rewrite keys_enriched. unfold keys. now rewrite length_map. }
        unfold list_index, NX.nodes. cbn [_node].
        rewrite keys_app, nth_error_app2 by lia.
        rewrite Hl, Nat.sub_diag.
        cbn [keys map nth_error bind].
        unfold update_node, NX.node_data. cbn [_node _adj].
        rewrite alist_get_app_absent by exact Hfresh.
        cbn [alist_get]. rewrite String.eqb_refl. cbn [bind].
        rewrite alist_set_app_absent by exact Hfresh.
        cbn [alist_set]. rewrite String.eqb_refl. reflexivity.
      - reflexivity. }
    rewrite Hone. cbn [bind]. exact Hnext.
Qed.

Lemma firstn_extend {A} (l : list A) (i n : nat) :
  (firstn i l ++ firstn n (skipn i l))%list = firstn (i + n) l.
Proof.
  revert l. induction i as [|i IH]; intro l; simpl; [reflexivity|].
  destruct l as [|x l]; simpl.
  - now rewrite firstn_nil.
  - now rewrite IH.
Qed.

(** One batch: the nodes at positions [i .. i+9] are merged. *)
Lemma run_batch_spec (tasks : list (string * dict))
    (adj : list (string * list (string * dict)))
    (log : list log_record) (i : nat) :
  NoDup (keys tasks) ->
  (i <= List.length tasks)%nat ->
  run_batch tasks 10
    ({| _node := map Spec.enriched_node (firstn i tasks) ++ skipn i tasks;
        _adj := adj |}, log) i
  = Ok ({| _node := map Spec.enriched_node (firstn (i + 10) tasks)
                    ++ skipn (i + 10) tasks;
           _adj := adj |},
        (log ++ List.concat
                  (map (fun task => snd (_enrich_node_data (fst task) (snd task)))
                       (firstn 10 (skipn i tasks))))%list).
Proof.
  intros Hnd Hi. unfold run_batch, merge_batch. cbn [fst snd].
  rewrite !map_map, length_map.
  pose proof (merge_loop i adj (firstn 10 (skipn i tasks))
                (firstn i tasks) (skipn 10 (skipn i tasks)) 0) as H.
  unfold Spec.outcome_of in H. rewrite !firstn_skipn in H.
  rewrite H.
  - cbn [bind]. rewrite firstn_extend, skipn_skipn.
    now rewrite (Nat.add_comm 10 i).
  - rewrite length_firstn. lia.
  - exact Hnd.
Qed.

(** The batch loop, started at batch number [a]. *)
Lemma batch_loop (tasks : list (string * dict))
    (adj : list (string * list (string * dict))) :
  NoDup (keys tasks) ->
  forall (m a : nat) (log : list log_record),
    (List.length tasks <= (a + m) * 10)%nat ->
    for_each (run_batch tasks 10)
      (map (fun k => (k * 10)%nat) (seq a m))
      ({| _node := map Spec.enriched_node (firstn (a * 10) tasks)
                   ++ skipn (a * 10) tasks;
          _adj := adj |}, log)
    = Ok ({| _node := map Spec.enriched_node tasks; _adj := adj |},
          (log ++ List.concat
                    (map (fun task =>
                            snd (_enrich_node_data (fst task) (snd task)))
                         (skipn (a * 10) tasks)))%list).
Proof.
  intro Hnd. induction m as [|m IH]; intros a log Hlen.
  - simpl. rewrite Nat.add_0_r in Hlen.
    rewrite firstn_all2, skipn_all2 by exact Hlen.
    simpl. now rewrite !app_nil_r.
  - cbn [seq map for_each].
    destruct (Nat.le_gt_cases (a * 10) (List.length tasks)) as [Hle|Hgt].
    + rewrite run_batch_spec by assumption. cbn [bind].
      replace (a * 10 + 10)%nat with (S a * 10)%nat by lia.
      rewrite IH by lia.
      rewrite <- app_assoc, <- concat_app, <- map_app.
      replace (skipn (S a * 10) tasks)
        with (skipn 10 (skipn (a * 10) tasks))
        by (rewrite skipn_skipn; f_equal; lia).
      now rewrite firstn_skipn.
    + assert (E1 : firstn (a * 10) tasks = tasks)
        by (apply firstn_all2; lia).
      assert (E2 : skipn (a * 10) tasks = []) by (apply skipn_all2; lia).
      assert (E3 : firstn (S a * 10) tasks = tasks)
        by (apply firstn_all2; lia).
      assert (E4 : skipn (S a * 10) tasks = []) by (apply skipn_all2; lia).
      specialize (IH (S a) log ltac:(lia)).
      rewrite E3, E4 in IH. rewrite E1, E2.
      unfold run_batch at 1, merge_batch. rewrite E2.
      cbn [fst snd firstn map List.length seq combine for_each bind
             List.concat].
      cbn [map List.concat] in IH.
      rewrite !app_nil_r in IH. rewrite !app_nil_r. exact IH.
Qed.

Lemma range_step_covers (n : nat) : (n <= (n + 10 - 1) / 10 * 10)%nat.
Proof.
  pose proof (Nat.div_mod_eq (n + 10 - 1) 10) as H.
  pose proof (Nat.mod_upper_bound (n + 10 - 1) 10) as Hlt.
  lia.
Qed.

(** The enrichment step never raises: it merges, node by node, the outcome
    of the node's own task, and collects the warnings in node order. *)
Theorem enrich_dependency_graph_total (g : DiGraph) :
  NoDup (nodes g) ->
  _enrich_dependency_graph g
  = Ok ({| _node := map Spec.enriched_node (_node g); _adj := _adj g |},
        List.concat
          (map (fun task => snd (_enrich_node_data (fst task) (snd task)))
               (_node g))).
Proof.
  intro Hnd. unfold _enrich_dependency_graph, range_step.
  pose proof (batch_loop (_node g) (_adj g) Hnd
                ((List.length (_node g) + 10 - 1) / 10) 0 []) as H.
  cbn [Nat.mul firstn skipn map app] in H.
  destruct g as [nd adj]. cbn [_node _adj] in *.
  apply H. apply range_step_covers.
Qed.

End EnrichmentFacts.

(* ===================================================================== *)
(** ** What one enrichment task returns *)
(* ===================================================================== *)

Section EnrichNode.

Context {CL : Clients}.

Lemma enrich_node_data_spec (node_id : string) (node_data : dict)
    (package_manager : string) :
  _extract_package_manager (get node_data "purl" (PStr "")) = Ok package_manager ->
  let outcome :=
    Spec.answers_before_failure
      (Spec.lookups package_manager (get node_data "name" (PStr ""))
         (get node_data "version" (PStr ""))) in
  _enrich_node_data node_id node_data
  = (Ok (fst outcome),
     match snd outcome with
     | Some e => [Warning node_id e]
     | None => []
     end).
Proof.
  intro Hpm. unfold _enrich_node_data, Spec.lookups. rewrite Hpm.
  destruct (str_mem package_manager package_registries);
    [destruct (get_package_info package_manager _ _)|];
    destruct (_get_security_information _ _ package_manager);
    destruct (_get_trust_information _ _ package_manager);
    reflexivity.
Qed.

Lemma enrich_node_data_raise (node_id : string) (node_data : dict) (e : exn) :
  _extract_package_manager (get node_data "purl" (PStr "")) = Raise e ->
  _enrich_node_data node_id node_data = (Raise e, []).
Proof.
  intro Hpm. unfold _enrich_node_data. now rewrite Hpm.
Qed.

End EnrichNode.

(* ===================================================================== *)
(** ** The built graph *)
(* ===================================================================== *)

Section Build.

Context {RT : Runtime} {CL : Clients}.

(** The graph before enrichment. *)
Lemma wf_before_enrichment (components dependencies : list dict) :
  wf (add_dependencies (add_components NX.empty components) dependencies).
Proof. apply wf_add_dependencies, wf_add_components, wf_empty. Qed.

(** Graph construction returns whenever the two extractions do; enrichment
    rewrites node attributes only. *)
Lemma build_dependency_graph_spec (sbom_data : dict)
    (components dependencies : list dict) :
  _extract_components sbom_data = Ok components ->
  _extract_dependencies sbom_data = Ok dependencies ->
  let before :=
    add_dependencies (add_components NX.empty components) dependencies in
  _build_dependency_graph sbom_data
  = Ok ({| _node := map Spec.enriched_node (_node before);
           _adj := _adj before |},
        List.concat
          (map (fun task => snd (_enrich_node_data (fst task) (snd task)))
               (_node before))).
Proof.
  intros Hc Hd before. unfold _build_dependency_graph.
  rewrite Hc. cbn [bind]. rewrite Hd. cbn [bind].
  apply enrich_dependency_graph_total.
  apply (wf_nodes _ (wf_before_enrichment components dependencies)).
Qed.

Lemma wf_enriched (g : DiGraph) :
  wf g -> wf {| _node := map Spec.enriched_node (_node g); _adj := _adj g |}.
Proof.
  intros [Hn Hr Hs]. split; cbn [_node _adj].
  - now rewrite keys_enriched.
  - now rewrite keys_enriched.
  - exact Hs.
Qed.

Lemma nodes_enriched (g : DiGraph) :
  nodes {| _node := map Spec.enriched_node (_node g); _adj := _adj g |}
  = nodes g.
Proof. apply keys_enriched. Qed.

(** Node identifiers are never the empty string. *)
Lemma built_nodes_nonempty (components : list dict) (n : string) :
  In n (nodes (add_components NX.empty components)) -> n <> "".
Proof.
  apply add_components_nonempty. intros m [].
Qed.

(** The edges of a built graph: exactly the pairs of nodes named by some
    dependency record. *)
Lemma built_edges (components dependencies : list dict) (u v : string) :
  let g0 := add_components NX.empty components in
  let before := add_dependencies g0 dependencies in
  In (u, v) (edges before)
  <-> In u (nodes before) /\ In v (nodes before)
      /\ exists dep,
           In dep dependencies
           /\ get dep "source" PNone = PStr u
           /\ get dep "target" PNone = PStr v.
Proof.
  intros g0 before.
  assert (Hnodes : nodes before = nodes g0).
  { unfold nodes, before. now rewrite add_dependencies_node. }
  rewrite Hnodes.
  rewrite (edges_has_edge before u v)
    by apply wf_before_enrichment.
  unfold before. rewrite has_edge_add_dependencies.
  assert (Hempty : has_edge g0 u v = false).
  { destruct (has_edge g0 u v) eqn:E; [|reflexivity].
    apply edges_has_edge in E; [|apply wf_add_components, wf_empty].
    exfalso. revert E. unfold g0, add_components.
    assert (G : forall cs g, edges g = [] ->
                  edges (fold_left
                           (fun graph component =>
                              add_node graph
                                (format_value (get component "name" (PStr ""))
                                 ++ "@"
                                 ++ format_value
                                      (get component "version" (PStr "")))%string
                                component) cs g) = []).
    { induction cs as [|c cs IH]; intros g Hg; simpl; [exact Hg|].
      apply IH. unfold add_node, edges in *.
      destruct (alist_get (_node g) _); cbn [_adj]; [exact Hg|].
      rewrite flat_map_app, Hg. reflexivity. }
    rewrite G by reflexivity. tauto. }
  rewrite Hempty. split.
  - intros [H|(dep & Hin & Hs & Ht & _ & _ & Hu & Hv)]; [discriminate|].
    split; [exact Hu|]. split; [exact Hv|]. exists dep. tauto.
  - intros (Hu & Hv & dep & Hin & Hs & Ht). right. exists dep.
    pose proof (built_nodes_nonempty components u Hu).
    pose proof (built_nodes_nonempty components v Hv).
    tauto.
Qed.

End Build.

(* ===================================================================== *)
(** ** Claims about graph construction *)
(* ===================================================================== *)

Section BuilderClaims.

Context {RT : Runtime} {CL : Clients}.

(** C6.  An edge is added only between two existing nodes, and a
    relationship record whose source or target is not a node is dropped
    without an error: the graph built with the record is the graph built
    without it, node set and edges included. *)
Theorem dangling_dependency_dropped
    (sbom_data sbom_data' : dict) (components before after : list dict)
    (dep : dict) :
  _extract_components sbom_data = Ok components ->
  _extract_components sbom_data' = Ok components ->
  _extract_dependencies sbom_data = Ok (before ++ dep :: after)%list ->
  _extract_dependencies sbom_data' = Ok (before ++ after)%list ->
  has_node (add_components NX.empty components) (get dep "source" PNone)
  = false
  \/ has_node (add_components NX.empty components) (get dep "target" PNone)
     = false ->
  exists graph log,
    _build_dependency_graph sbom_data = Ok (graph, log)
    /\ _build_dependency_graph sbom_data' = Ok (graph, log)
    /\ nodes graph = nodes (add_components NX.empty components)
    /\ forall u v,
         In (u, v) (edges graph) ->
         In u (nodes graph) /\ In v (nodes graph)
         /\ exists d,
              In d (before ++ after)%list
              /\ get d "source" PNone = PStr u
              /\ get d "target" PNone = PStr v.
Proof.
  intros Hc Hc' Hd Hd' Hdangling.
  pose proof (build_dependency_graph_spec _ _ _ Hc Hd) as H.
  pose proof (build_dependency_graph_spec _ _ _ Hc' Hd') as H'.
  cbv zeta in H, H'.
  rewrite (add_dependencies_drop _ before after dep Hdangling) in H.
  eexists. eexists. split; [exact H|]. split; [exact H'|]. split.
  - rewrite nodes_enriched. unfold nodes.
    now rewrite add_dependencies_node.
  - intros u v Hin. rewrite nodes_enriched.
    unfold edges in Hin. cbn [_adj] in Hin.
    apply (built_edges components (before ++ after) u v). exact Hin.
Qed.

(** C4.  The edges of the built graph are the distinct (source, target)
    pairs named by the dependency records whose two endpoints are nodes:
    a self-loop is an edge like any other, and a pair listed several times
    is one edge. *)
Theorem edges_are_distinct_pairs
    (sbom_data : dict) (components dependencies : list dict) :
  _extract_components sbom_data = Ok components ->
  _extract_dependencies sbom_data = Ok dependencies ->
  exists graph log,
    _build_dependency_graph sbom_data = Ok (graph, log)
    /\ NoDup (edges graph)
    /\ forall u v,
         In (u, v) (edges graph)
         <-> In u (nodes graph) /\ In v (nodes graph)
             /\ exists dep,
                  In dep dependencies
                  /\ get dep "source" PNone = PStr u
                  /\ get dep "target" PNone = PStr v.
Proof.
  intros Hc Hd.
  pose proof (build_dependency_graph_spec _ _ _ Hc Hd) as H. cbv zeta in H.
  eexists. eexists. split; [exact H|]. split.
  - apply NoDup_edges, wf_enriched, wf_before_enrichment.
  - intros u v. rewrite nodes_enriched.
    apply (built_edges components dependencies u v).
Qed.


End BuilderClaims.

(* ===================================================================== *)
(** ** Claims about the whole analysis *)
(* ===================================================================== *)

Section PipelineClaims.

Context {RT : Runtime}.

(** The first edge whose data carries the type 'depends_on' stops
    [_analyze_edges]: the string is not a value of [DependencyType]. *)
Lemma analyze_edges_rejects_depends_on (graph : DiGraph) (u v : string)
    (rest : list (string * string)) (data : dict) :
  edges graph = (u, v) :: rest ->
  NX.edge_data graph u v = Ok data ->
  get data "type" (PStr "direct") = PStr "depends_on" ->
  _analyze_edges graph = Raise ValueError.
Proof.
  intros He Hd Ht. unfold _analyze_edges. rewrite He.
  cbn [for_each fst snd]. rewrite Hd. cbn [bind]. rewrite Ht.
  reflexivity.
Qed.

(** [_perform_graph_analysis] stops at its first statement, the call of
    [_calculate_max_depth]. *)
Lemma perform_graph_analysis_raises (graph : DiGraph)
    (nodes : list SupplyChainNode) (edges : list SupplyChainEdge) :
  _perform_graph_analysis graph nodes edges = Raise AttributeError.
Proof. reflexivity. Qed.

(** [_analyze_nodes] never gets past the first node: what can be computed
    from its data is computed, then [_extract_maintainer_info] is called. *)
Lemma analyze_nodes_first_node (graph : DiGraph) (n : string)
    (rest : list string) :
  nodes graph = n :: rest ->
  _analyze_nodes graph
  = (node_data <- NX.node_data graph n;;
     _ <- _extract_package_manager (get node_data "purl" (PStr ""));;
     _ <- _determine_dependency_type node_data graph n;;
     _ <- _calculate_trust_level node_data;;
     _ <- _calculate_node_risk_score node_data graph n;;
     Raise AttributeError).
Proof.
  intro Hn. unfold _analyze_nodes. rewrite Hn. cbn [for_each].
  destruct (NX.node_data graph n) as [d|e]; [|reflexivity]. cbn [bind].
  destruct (_extract_package_manager _) as [pm|e]; [|reflexivity].
  cbn [bind].
  destruct (_determine_dependency_type d graph n) as [dt|e]; [|reflexivity].
  cbn [bind].
  destruct (_calculate_trust_level d) as [t|e]; [|reflexivity]. cbn [bind].
  destruct (_calculate_node_risk_score d graph n) as [r|e]; reflexivity.
Qed.

Lemma analyze_nodes_nonempty_raises (graph : DiGraph) :
  nodes graph <> [] -> exists e, _analyze_nodes graph = Raise e.
Proof.
  intro Hne. destruct (nodes graph) as [|n rest] eqn:Hn; [congruence|].
  rewrite (analyze_nodes_first_node graph n rest Hn).
  destruct (NX.node_data graph n) as [d|e]; [|now exists e]. cbn [bind].
  destruct (_extract_package_manager _) as [pm|e]; [|now exists e].
  cbn [bind].
  destruct (_determine_dependency_type d graph n) as [dt|e]; [|now exists e].
  cbn [bind].
  destruct (_calculate_trust_level d) as [t|e]; [|now exists e]. cbn [bind].
  destruct (_calculate_node_risk_score d graph n) as [r|e]; [|now exists e].
  now exists AttributeError.
Qed.

(** C1.  With the clients the module ships, the analysis of the SBOM in
    which [A@1.0] depends on [B@2.0] raises [AttributeError] and returns no
    result: [_analyze_nodes] reaches the call of [_extract_maintainer_info],
    which the class does not define.  On the graph of that SBOM
    [_analyze_edges] raises too, with [ValueError], at the edge type
    'depends_on'.  A document without components does not fare better: its
    analysis raises [AttributeError] at [_calculate_max_depth]. *)
Theorem analysis_raises_on_one_edge (fresh_uuid : string) (now : Z) :
  analyze_supply_chain (CL := placeholder_clients) fresh_uuid now
    Samples.sbom_one_edge
  = Raise AttributeError
  /\ match _build_dependency_graph (CL := placeholder_clients)
             Samples.sbom_one_edge with
     | Ok (graph, _) =>
         _analyze_nodes graph = Raise AttributeError
         /\ _analyze_edges graph = Raise ValueError
     | Raise _ => False
     end
  /\ analyze_supply_chain (CL := placeholder_clients) fresh_uuid now
       (Samples.cyclonedx [] [])
     = Raise AttributeError.
Proof. repeat split; reflexivity. Qed.

(** On an SBOM without components the run passes the two loops and stops
    in [_perform_graph_analysis]: no aggregate is computed. *)
Lemma analysis_of_empty_sbom {CL : Clients} (fresh_uuid : string) (now : Z) :
  analyze_supply_chain fresh_uuid now [] = Raise AttributeError.
Proof. reflexivity. Qed.


End PipelineClaims.

Section BuilderFindings.

Context {RT : Runtime} {CL : Clients}.

(** C5.  A CycloneDX component without a name is stored under an
    identifier that starts with the text [None], not with the empty
    string: the extracted record carries the key [name] with the value
    [None], so the default of the later [get] is never used. *)
Theorem missing_name_is_rendered_as_None :
  rmap (fun built => nodes (fst built))
    (_build_dependency_graph Samples.sbom_missing_name)
  = Ok ["None@1.0"].
Proof.
  rewrite (build_dependency_graph_spec Samples.sbom_missing_name
             [[("name", PNone); ("version", PStr "1.0"); ("type", PNone);
               ("purl", PNone); ("scope", PStr "required");
               ("licenses", PList []); ("hashes", PList [])]] [])
    by reflexivity.
  cbn [rmap fst]. rewrite nodes_enriched. reflexivity.
Qed.

(** The first loop of the builder, handed a record in which the key
    [name] is absent, does fall back on the empty string. *)
Lemma builder_default_is_empty_string :
  nodes (add_components NX.empty [[("version", PStr "1.0")]]) = ["@1.0"].
Proof. reflexivity. Qed.

End BuilderFindings.

(* ===================================================================== *)
(** ** Every accepted dependency stops the edge analysis *)
(* ===================================================================== *)

Section EdgeTypes.

Lemma for_each_invariant {A S} (P : S -> Prop)
    (body : S -> A -> result S) (xs : list A) :
  (forall acc x acc', P acc -> body acc x = Ok acc' -> P acc') ->
  forall acc r, P acc -> for_each body xs acc = Ok r -> P r.
Proof.
  intro Hbody. induction xs as [|x xs IH]; intros acc r Hacc Hrun; simpl in Hrun.
  - now injection Hrun as <-.
  - destruct (body acc x) as [acc'|e] eqn:E; [|discriminate Hrun].
    simpl in Hrun. eapply IH; [|exact Hrun]. eapply Hbody; eassumption.
Qed.

Lemma extracted_dependencies_shape (sbom_data : dict)
    (dependencies : list dict) :
  _extract_dependencies sbom_data = Ok dependencies ->
  Forall Spec.dependency_record dependencies.
Proof.
  unfold _extract_dependencies.
  destruct (eq_str (get sbom_data "bomFormat" PNone) "CycloneDX").
  - destruct (iterate (get sbom_data "dependencies" (PList [])))
      as [items|e]; [|discriminate]. cbn [bind].
    apply for_each_invariant; [|constructor].
    intros acc item acc' Hacc.
    destruct (as_dict item) as [dep_info|e]; [|discriminate]. cbn [bind].
    destruct (iterate (get dep_info "dependsOn" (PList [])))
      as [targets|e]; [|discriminate]. cbn [bind].
    apply for_each_invariant; [|exact Hacc].
    intros acc0 target acc1 Hacc0 [= <-].
    apply Forall_app. split; [exact Hacc0|].
    repeat constructor. now eexists; eexists.
  - destruct (truthy (get sbom_data "spdxVersion" PNone)).
    + destruct (iterate (get sbom_data "relationships" (PList [])))
        as [items|e]; [|discriminate]. cbn [bind].
      apply for_each_invariant; [|constructor].
      intros acc item acc' Hacc.
      destruct (as_dict item) as [relationship|e]; [|discriminate].
      cbn [bind].
      destruct (eq_str (get relationship "relationshipType" PNone)
                  "DEPENDS_ON"); intros [= <-]; [|exact Hacc].
      apply Forall_app. split; [exact Hacc|].
      repeat constructor. now eexists; eexists.
    + intros [= <-]. constructor.
Qed.

Lemma update_dependency_record (d dep : dict) :
  Spec.dependency_record dep ->
  get (update d dep) "type" (PStr "direct") = PStr "depends_on".
Proof.
  intros (s & t & ->). unfold update, get. cbn [fold_left fst snd].
  now rewrite alist_get_set_same.
Qed.

Lemma edges_typed_add_edge (g : DiGraph) (u v : string) (dep : dict) :
  Spec.edges_typed g ->
  Spec.dependency_record dep ->
  alist_mem (_node g) u = true ->
  alist_mem (_node g) v = true ->
  Spec.edges_typed (add_edge g u v dep).
Proof.
  intros Hg Hdep Hu Hv x y data.
  rewrite add_edge_present by assumption.
  unfold NX.edge_data. cbn [_adj].
  destruct (String.eqb u x) eqn:Eux.
  - apply String.eqb_eq in Eux. subst x. rewrite alist_get_set_same.
    destruct (String.eqb v y) eqn:Evy.
    + apply String.eqb_eq in Evy. subst y. rewrite alist_get_set_same.
      intros [= <-]. now apply update_dependency_record.
    + apply String.eqb_neq in Evy.
      rewrite alist_get_set_other by exact Evy.
      intro H. apply (Hg u y data). unfold NX.edge_data.
      destruct (alist_get (_adj g) u) as [nbrs|]; [exact H|].
      discriminate H.
  - apply String.eqb_neq in Eux.
    rewrite alist_get_set_other by exact Eux.
    apply (Hg x y data).
Qed.

Lemma edges_typed_add_dependencies (dependencies : list dict) (g : DiGraph) :
  Forall Spec.dependency_record dependencies ->
  Spec.edges_typed g ->
  Spec.edges_typed (add_dependencies g dependencies).
Proof.
  unfold add_dependencies. revert g.
  induction dependencies as [|dep deps IH]; intros g Hdeps Hg; simpl;
    [exact Hg|].
  inversion Hdeps as [|? ? Hdep Hrest]; subst.
  apply IH; [exact Hrest|].
  destruct (truthy (get dep "source" PNone)
            && truthy (get dep "target" PNone)
            && has_node g (get dep "source" PNone)
            && has_node g (get dep "target" PNone)) eqn:G.
  - apply dependency_guard in G.
    destruct G as (u & v & Hs & Ht & Hu & Hv & Hiu & Hiv).
    rewrite (add_dependency_accepted g dep u v) by assumption.
    apply has_node_In in Hiu, Hiv. now apply edges_typed_add_edge.
  - now rewrite add_dependency_rejected.
Qed.

Lemma edges_typed_no_edges (g : DiGraph) :
  Forall (fun row => snd row = []) (_adj g) -> Spec.edges_typed g.
Proof.
  intros Hrows u v data. unfold NX.edge_data.
  destruct (alist_get (_adj g) u) as [nbrs|] eqn:E; [|discriminate].
  assert (Hnil : nbrs = []).
  { clear -E Hrows. induction (_adj g) as [|[k r] rows IH];
      simpl in E; [discriminate|].
    inversion Hrows as [|? ? Hr Hrest]; subst.
    destruct (String.eqb u k); [|now apply IH].
    injection E as <-. exact Hr. }
  subst nbrs. discriminate.
Qed.

Context {RT : Runtime}.

Lemma add_components_no_edges (components : list dict) (g : DiGraph) :
  Forall (fun row => snd row = []) (_adj g) ->
  Forall (fun row => snd row = []) (_adj (add_components g components)).
Proof.
  unfold add_components. revert g.
  induction components as [|c cs IH]; intros g Hg; simpl; [exact Hg|].
  apply IH. unfold add_node.
  destruct (alist_get (_node g) _); cbn [_adj]; [exact Hg|].
  apply Forall_app. split; [exact Hg|]. repeat constructor.
Qed.

Context {CL : Clients}.

(** On a graph for which the builder accepted at least one dependency
    [_analyze_edges] raises [ValueError]: every edge carries the type
    'depends_on'. *)
Theorem analyze_edges_of_built_graph_raises (sbom_data : dict)
    (graph : DiGraph) (log : list log_record) :
  _build_dependency_graph sbom_data = Ok (graph, log) ->
  edges graph <> [] ->
  _analyze_edges graph = Raise ValueError.
Proof.
  intros Hbuild Hedges.
  destruct (_extract_components sbom_data) as [components|e] eqn:Hc.
  2:{ unfold _build_dependency_graph in Hbuild. rewrite Hc in Hbuild.
      discriminate Hbuild. }
  destruct (_extract_dependencies sbom_data) as [dependencies|e] eqn:Hd.
  2:{ unfold _build_dependency_graph in Hbuild. rewrite Hc in Hbuild.
      cbn [bind] in Hbuild. rewrite Hd in Hbuild. discriminate Hbuild. }
  pose proof (build_dependency_graph_spec _ _ _ Hc Hd) as Hspec.
  cbv zeta in Hspec. rewrite Hbuild in Hspec. injection Hspec as -> _.
  set (before :=
         add_dependencies (add_components NX.empty components) dependencies)
    in *.
  assert (Htyped : Spec.edges_typed before).
  { apply edges_typed_add_dependencies.
    - exact (extracted_dependencies_shape _ _ Hd).
    - apply edges_typed_no_edges, add_components_no_edges. constructor. }
  destruct (edges _) as [|[u v] rest] eqn:He; [congruence|].
  assert (Hin : In (u, v) (edges before)).
  { unfold edges in *. cbn [_adj] in He. rewrite He. now left. }
  apply edges_has_edge in Hin; [|apply wf_before_enrichment].
  unfold has_edge in Hin.
  destruct (alist_get (_adj before) u) as [nbrs|] eqn:Eu; [|discriminate].
  unfold alist_mem in Hin.
  destruct (alist_get nbrs v) as [data|] eqn:Ev; [|discriminate].
  assert (Hdata :
    NX.edge_data
      {| _node := map Spec.enriched_node (_node before);
         _adj := _adj before |} u v = Ok data).
  { unfold NX.edge_data. cbn [_adj]. now rewrite Eu, Ev. }
  apply (analyze_edges_rejects_depends_on _ u v rest data He Hdata).
  apply (Htyped u v data). unfold NX.edge_data. now rewrite Eu, Ev.
Qed.

End EdgeTypes.

(* ===================================================================== *)
(** ** The claims on concrete inputs *)
(* ===================================================================== *)

Section Instances.

Local Open Scope Q_scope.

#[local] Existing Instance Samples.sample_runtime.

(** The score formula on a single neutral node of risk 2.0. *)
Lemma supply_chain_score_formula_witness :
  _calculate_supply_chain_score [Samples.neutral_node 2] []
    Samples.no_findings
  == Spec.clamp
       (Spec.base_score [Samples.neutral_node 2]
        - Spec.total_penalties [Samples.neutral_node 2] [] [] [])
       0 10.
Proof.
  apply (supply_chain_score_formula [Samples.neutral_node 2] []
           Samples.no_findings).
  discriminate.
Defined.

(** An unsigned package with reputation 0.9 is trusted. *)
Lemma trust_level_precedence_witness :
  _calculate_trust_level
    [("trust_info",
      PDict [("signed", PBool false); ("maintainer_reputation", PFloat 0.9)])]
  = Ok TRUSTED.
Proof.
  refine (proj1 (proj2
    (trust_level_precedence
       [("trust_info",
         PDict [("signed", PBool false);
                ("maintainer_reputation", PFloat 0.9)])]
       [("signed", PBool false); ("maintainer_reputation", PFloat 0.9)]
       eq_refl)) 0.9 eq_refl eq_refl _).
  reflexivity.
Defined.

(** Two critical vulnerabilities and no other data: the score is at least
    4.0. *)
Example two_critical_scores_at_least_four :
  exists r,
    _calculate_node_risk_score Samples.two_critical
      Samples.single_node_graph "A@1.0" = Ok r
    /\ 4 <= r.
Proof.
  destruct (node_risk_score_formula Samples.two_critical
              [("critical_vulnerabilities", PInt 2)] []
              Samples.single_node_graph "A@1.0"
              2 0 365 0 0
              eq_refl eq_refl eq_refl eq_refl eq_refl eq_refl eq_refl)
    as [r [Hr [_ [_ Hfour]]]].
  exists r. split; [exact Hr|].
  apply Hfour; [reflexivity|discriminate].
Qed.


(** The edges of the graph built from an SBOM that lists one dependency
    twice. *)
Lemma edges_are_distinct_pairs_witness :
  exists components dependencies,
    _extract_components Samples.sbom_duplicate_entry = Ok components
    /\ _extract_dependencies Samples.sbom_duplicate_entry = Ok dependencies
    /\ exists graph log,
         _build_dependency_graph (CL := placeholder_clients)
           Samples.sbom_duplicate_entry = Ok (graph, log)
         /\ NoDup (edges graph)
         /\ forall u v,
              In (u, v) (edges graph)
              <-> In u (nodes graph) /\ In v (nodes graph)
                  /\ exists dep,
                       In dep dependencies
                       /\ get dep "source" PNone = PStr u
                       /\ get dep "target" PNone = PStr v.
Proof.
  eexists. eexists. split; [reflexivity|]. split; [reflexivity|].
  eapply (edges_are_distinct_pairs (CL := placeholder_clients)
            Samples.sbom_duplicate_entry); reflexivity.
Defined.

(** The dependency on the unlisted [C@3.0] leaves no trace in the graph. *)
Lemma dangling_dependency_dropped_witness :
  exists graph log,
    _build_dependency_graph (CL := placeholder_clients)
      Samples.sbom_dangling_entry = Ok (graph, log)
    /\ _build_dependency_graph (CL := placeholder_clients)
         Samples.sbom_one_edge = Ok (graph, log)
    /\ nodes graph = ["A@1.0"; "B@2.0"]%string
    /\ edges graph = [("A@1.0", "B@2.0")]%string.
Proof.
  destruct (dangling_dependency_dropped (CL := placeholder_clients)
              Samples.sbom_dangling_entry Samples.sbom_one_edge
              _
              [[("source", PStr "A@1.0"); ("target", PStr "B@2.0");
                ("type", PStr "depends_on")]]
              []
              [("source", PStr "A@1.0"); ("target", PStr "C@3.0");
               ("type", PStr "depends_on")]
              eq_refl eq_refl eq_refl eq_refl (or_intror eq_refl))
    as [graph [log [H1 [H2 [Hn _]]]]].
  exists graph, log. split; [exact H1|]. split; [exact H2|].
  split; [exact Hn|].
  vm_compute in H1. injection H1 as <- _. reflexivity.
Defined.


(** C3.  A package published 1900 days ago, which is more than five years,
    gets no age penalty: its score is 2.0, not the 2.5 of the formula that
    penalises every package older than five years.  The test in the code is
    [age_days > 2000], under the comment [> 5 years]. *)
Theorem old_package_without_age_penalty :
  exists r,
    _calculate_node_risk_score Samples.old_package
      Samples.single_node_graph "A@1.0" = Ok r
    /\ r == 2
    /\ ~ r == Spec.clamp
               (Spec.risk_sum Spec.age_penalty_five_years 0 0 1900 0 0
                + Spec.depth_penalty
                    (Spec.distance_from_first_node
                       Samples.single_node_graph "A@1.0"))
               0 10.
Proof.
  eexists. split; [reflexivity|]. split; [reflexivity|].
  vm_compute. discriminate.
Qed.


(** A dependency listed twice gives a single edge: the SBOM has two
    accepted entries, the graph one edge. *)
Lemma duplicate_entries_are_one_edge :
  exists graph log dependencies,
    _build_dependency_graph (CL := placeholder_clients)
      Samples.sbom_duplicate_entry = Ok (graph, log)
    /\ _extract_dependencies Samples.sbom_duplicate_entry = Ok dependencies
    /\ Spec.accepted_entries graph dependencies
       = [("A@1.0", "B@2.0"); ("A@1.0", "B@2.0")]%string
    /\ edges graph = [("A@1.0", "B@2.0")]%string.
Proof.
  eexists. eexists. eexists.
  split; [reflexivity|]. split; [reflexivity|]. split; reflexivity.
Defined.

(** A component that lists itself as a dependency keeps that edge. *)
Example self_loop_is_kept :
  rmap (fun built => edges (fst built))
    (_build_dependency_graph (CL := placeholder_clients)
       Samples.sbom_self_loop)
  = Ok [("A@1.0", "A@1.0")]%string.
Proof. reflexivity. Qed.


End Instances.


(* ===================================================================== *)
(** ** Further vocabulary for the rest of the module *)
(* ===================================================================== *)

Module Shapes.

(** Keys of a component extracted from a CycloneDX document. *)
Definition cyclonedx_keys : list string :=
  ["name"; "version"; "type"; "purl"; "scope"; "licenses"; "hashes"].

(** Keys of a component extracted from an SPDX document. *)
Definition spdx_keys : list string :=
  ["name"; "version"; "type"; "downloadLocation"; "licenseConcluded";
   "copyrightText"].

(** Keys written by [_enrich_node_data]. *)
Definition enrichment_keys : list string :=
  ["registry_info"; "security_info"; "trust_info"].

(** The five package-url prefixes that [_extract_package_manager] knows. *)
Definition known_prefix (p : string) : bool :=
  startswith p "pkg:npm/" || startswith p "pkg:pypi/"
  || startswith p "pkg:maven/" || startswith p "pkg:nuget/"
  || startswith p "pkg:gem/".

(** The identifier under which the builder stores a component. *)
Definition node_id_of {RT : Runtime} (component : dict) : string :=
  (format_value (get component "name" (PStr "")) ++ "@"
   ++ format_value (get component "version" (PStr "")))%string.

(** The elements of a list in the order of their first occurrence. *)
Definition distinct (xs : list string) : list string :=
  fold_left (fun acc x => if str_mem x acc then acc else (acc ++ [x])%list)
            xs [].

(** Whether a string holds the character [@]. *)
Definition has_at (s : string) : bool :=
  existsb (Ascii.eqb "@"%char) (list_ascii_of_string s).

(** The dependency record built for one source and one target. *)
Definition dependency (source target : pyval) : dict :=
  [("source", source); ("target", target); ("type", PStr "depends_on")].

(** The records of one CycloneDX [dependencies] entry. *)
Definition cyclonedx_records (dep_info : dict) (targets : list pyval)
  : list dict :=
  map (dependency (get dep_info "ref" PNone)) targets.

(** Whether an SPDX relationship is a dependency. *)
Definition is_depends_on (relationship : dict) : bool :=
  eq_str (get relationship "relationshipType" PNone) "DEPENDS_ON".

(** The record built for one SPDX relationship. *)
Definition spdx_record (relationship : dict) : dict :=
  dependency (get relationship "spdxElementId" PNone)
             (get relationship "relatedSpdxElement" PNone).

(** The recommendations appended to every report. *)
Definition general_recommendations : list string :=
  ["Implement dependency pinning with exact versions for critical components";
   "Set up automated dependency scanning and vulnerability monitoring";
   "Establish a software bill of materials (SBOM) generation process";
   "Create a dependency approval process for new packages";
   "Implement package signature verification where available";
   "Regular audit and cleanup of unused dependencies"].

(** The targets listed by one CycloneDX [dependencies] entry. *)
Definition targets_of (dep_info : dict) : list pyval :=
  match iterate (get dep_info "dependsOn" (PList [])) with
  | Ok targets => targets
  | Raise _ => []
  end.

(** No enrichment key is set. *)
Definition unenriched (d : dict) : Prop :=
  forall k, In k enrichment_keys -> alist_get d k = None.

(** The last component of the document stored under an identifier. *)
Definition last_component {RT : Runtime} (components : list dict)
    (node_id : string) : option dict :=
  find (fun c => String.eqb (node_id_of c) node_id) (rev components).

(** The node a warning is about. *)
Definition warning_node (r : log_record) : string :=
  match r with Warning node_id _ => node_id end.

(** The edges counted by the depth term of the risk score: the distance
    from the first node, nothing for a node that is not reached. *)
Definition edges_counted (distance : option nat) : nat :=
  match distance with
  | Some d => d
  | None => 0%nat
  end.

Definition one_if (b : bool) : nat := if b then 1%nat else 0%nat.

(** How many of the six findings of [_generate_recommendations] apply. *)
Definition findings (analysis_results : GraphAnalysis)
    (nodes : list SupplyChainNode) : nat :=
  (one_if (nonempty (filter high_risk nodes))
   + one_if (nonempty (filter untrusted nodes))
   + one_if (nonempty (r_circular_dependencies analysis_results))
   + one_if (nonempty (r_single_points_of_failure analysis_results))
   + one_if (nonempty (r_orphaned_dependencies analysis_results))
   + one_if (10 <? r_max_depth analysis_results)%Z)%nat.

End Shapes.

(** * More sample documents *)

Module Documents.

Local Open Scope Q_scope.

(** A document whose format tag is spelled in lower case. *)
Definition sbom_other_spelling : dict :=
  [("bomFormat", PStr "cyclonedx");
   ("components", PList [Samples.component "A" "1.0"])].

(** An SPDX document with two packages and two relationships, one of which
    is a dependency. *)
Definition relationship (source kind target : string) : dict :=
  [("spdxElementId", PStr source);
   ("relationshipType", PStr kind);
   ("relatedSpdxElement", PStr target)].

Definition sbom_spdx : dict :=
  [("spdxVersion", PStr "SPDX-2.3");
   ("packages",
    PList [PDict [("name", PStr "A"); ("versionInfo", PStr "1.0")];
           PDict [("name", PStr "B"); ("versionInfo", PStr "2.0")]]);
   ("relationships",
    PList [PDict (relationship "SPDXRef-A" "DEPENDS_ON" "SPDXRef-B");
           PDict (relationship "SPDXRef-DOCUMENT" "DESCRIBES" "SPDXRef-A")])].

(** Two records for [A@1.0], from different registries, and one for
    [B@2.0]. *)
Definition sbom_shared_identifier : dict :=
  Samples.cyclonedx
    [PDict [("name", PStr "A"); ("version", PStr "1.0");
            ("purl", PStr "pkg:npm/A@1.0")];
     Samples.component "B" "2.0";
     PDict [("name", PStr "A"); ("version", PStr "1.0");
            ("purl", PStr "pkg:pypi/A@1.0")]]
    [].

(** The graph of two components before enrichment. *)
Definition two_node_graph : DiGraph :=
  add_node
    (add_node NX.empty "A@1.0" [("name", PStr "A"); ("version", PStr "1.0")])
    "B@2.0" [("name", PStr "B"); ("version", PStr "2.0")].

(** Findings with one orphaned dependency. *)
Definition one_orphan : GraphAnalysis := {|
  r_max_depth := 0;
  r_average_degree := 0;
  r_risk_distribution := [];
  r_trust_distribution := [];
  r_critical_paths := [];
  r_vulnerable_paths := [];
  r_orphaned_dependencies := ["B@2.0"%string];
  r_circular_dependencies := [];
  r_single_points_of_failure := [];
  r_betweenness_centrality := [];
  r_closeness_centrality := [];
  r_pagerank := []
|}.

(** A node of risk 9.0 made from a component without a name. *)
Definition nameless_node : SupplyChainNode := {|
  n_id := "None@1.0";
  n_name := PNone;
  n_version := PStr "1.0";
  n_package_manager := "unknown";
  n_dependency_type := DIRECT;
  n_trust_level := NEUTRAL;
  n_risk_score := 9;
  n_maintainer_info := [];
  n_repository_info := [];
  n_security_metrics := [];
  n_metadata := []
|}.


End Documents.


(* ===================================================================== *)
(** ** Package managers and dependency types *)
(* ===================================================================== *)

Section Classification.

Lemma startswith_app (p prefix : string) :
  startswith p prefix = true -> exists rest, p = (prefix ++ rest)%string.
Proof.
  unfold startswith. revert p.
  induction prefix as [|c prefix IH]; intros p H.
  - now exists p.
  - destruct p as [|c' p]; simpl in H; [discriminate|].
    destruct (ascii_dec c c') as [<-|]; [|discriminate].
    destruct (IH p H) as [rest ->]. now exists rest.
Qed.

(** X1.  A package url that is a string is always classified, never
    rejected: a string that starts with [pkg:npm/] gives [npm], with
    [pkg:pypi/] [pypi], with [pkg:maven/] [maven], with [pkg:nuget/]
    [nuget] and with [pkg:gem/] [rubygems]; every other string gives
    [unknown], and so does a missing package url. *)
Theorem package_manager_of_purl (p : string) :
  (startswith p "pkg:npm/" = true ->
   _extract_package_manager (PStr p) = Ok "npm")
  /\ (startswith p "pkg:pypi/" = true ->
      _extract_package_manager (PStr p) = Ok "pypi")
  /\ (startswith p "pkg:maven/" = true ->
      _extract_package_manager (PStr p) = Ok "maven")
  /\ (startswith p "pkg:nuget/" = true ->
      _extract_package_manager (PStr p) = Ok "nuget")
  /\ (startswith p "pkg:gem/" = true ->
      _extract_package_manager (PStr p) = Ok "rubygems")
  /\ (Shapes.known_prefix p = false ->
      _extract_package_manager (PStr p) = Ok "unknown")
  /\ _extract_package_manager PNone = Ok "unknown".
Proof.
  unfold _extract_package_manager, Shapes.known_prefix. cbn [truthy].
  assert (Hne : forall a c, startswith p (String c a) = true ->
                            String.eqb p "" = false).
  { intros a c. destruct p; simpl; [discriminate|reflexivity]. }
  assert (Hclash : forall a b,
            startswith p a = true -> startswith p b = true ->
            exists r r', (a ++ r)%string = (b ++ r')%string).
  { intros a b Ha Hb. apply startswith_app in Ha, Hb.
    destruct Ha as [r Ha], Hb as [r' Hb]. exists r, r'. congruence. }
  repeat split.
  - intro H. rewrite (Hne _ _ H). cbn [negb]. now rewrite H.
  - intro H. rewrite (Hne _ _ H). cbn [negb].
    destruct (startswith p "pkg:npm/") eqn:E1;
      [destruct (Hclash _ _ H E1) as (r & r' & Heq); discriminate Heq|].
    now rewrite H.
  - intro H. rewrite (Hne _ _ H). cbn [negb].
    destruct (startswith p "pkg:npm/") eqn:E1;
      [destruct (Hclash _ _ H E1) as (r & r' & Heq); discriminate Heq|].
    destruct (startswith p "pkg:pypi/") eqn:E2;
      [destruct (Hclash _ _ H E2) as (r & r' & Heq); discriminate Heq|].
    now rewrite H.
  - intro H. rewrite (Hne _ _ H). cbn [negb].
    destruct (startswith p "pkg:npm/") eqn:E1;
      [destruct (Hclash _ _ H E1) as (r & r' & Heq); discriminate Heq|].
    destruct (startswith p "pkg:pypi/") eqn:E2;
      [destruct (Hclash _ _ H E2) as (r & r' & Heq); discriminate Heq|].
    destruct (startswith p "pkg:maven/") eqn:E3;
      [destruct (Hclash _ _ H E3) as (r & r' & Heq); discriminate Heq|].
    now rewrite H.
  - intro H. rewrite (Hne _ _ H). cbn [negb].
    destruct (startswith p "pkg:npm/") eqn:E1;
      [destruct (Hclash _ _ H E1) as (r & r' & Heq); discriminate Heq|].
    destruct (startswith p "pkg:pypi/") eqn:E2;
      [destruct (Hclash _ _ H E2) as (r & r' & Heq); discriminate Heq|].
    destruct (startswith p "pkg:maven/") eqn:E3;
      [destruct (Hclash _ _ H E3) as (r & r' & Heq); discriminate Heq|].
    destruct (startswith p "pkg:nuget/") eqn:E4;
      [destruct (Hclash _ _ H E4) as (r & r' & Heq); discriminate Heq|].
    now rewrite H.
  - intro H. destruct (String.eqb p ""); cbn [negb]; [reflexivity|].
    destruct (startswith p "pkg:npm/"); [discriminate|].
    destruct (startswith p "pkg:pypi/"); [discriminate|].
    destruct (startswith p "pkg:maven/"); [discriminate|].
    destruct (startswith p "pkg:nuget/"); [discriminate|].
    destruct (startswith p "pkg:gem/"); [discriminate|reflexivity].
Qed.

Lemma in_edges_iff (g : DiGraph) (u v : string) :
  In (u, v) (edges g)
  <-> exists row, In row (_adj g) /\ fst row = u /\ In v (keys (snd row)).
Proof.
  unfold edges. rewrite in_flat_map. split.
  - intros [row [Hrow Hin]]. apply in_map_iff in Hin.
    destruct Hin as [cell [[= <- <-] Hcell]].
    exists row. split; [exact Hrow|]. split; [reflexivity|].
    now apply in_map.
  - intros [row [Hrow [<- Hin]]]. exists row. split; [exact Hrow|].
    apply in_map_iff in Hin. destruct Hin as [cell [<- Hcell]].
    apply in_map_iff. now exists cell.
Qed.

Lemma pred_nil (g : DiGraph) (n : string) :
  NX.pred g n = [] <-> forall u, ~ In (u, n) (edges g).
Proof.
  unfold NX.pred. split.
  - intros Hnil u Hin. apply in_edges_iff in Hin.
    destruct Hin as [row [Hrow [_ Hn]]].
    apply alist_mem_In in Hn.
    assert (Hf : In row (filter (fun r => alist_mem (snd r) n) (_adj g))).
    { apply filter_In. now split. }
    apply (in_map fst) in Hf. unfold keys in Hnil. rewrite Hnil in Hf.
    exact Hf.
  - intro Hnone.
    destruct (filter (fun r => alist_mem (snd r) n) (_adj g))
      as [|row rest] eqn:E; [reflexivity|].
    exfalso.
    assert (Hf : In row (filter (fun r => alist_mem (snd r) n) (_adj g))).
    { rewrite E. now left. }
    apply filter_In in Hf. destruct Hf as [Hrow Hmem].
    apply (Hnone (fst row)). apply in_edges_iff.
    exists row. split; [exact Hrow|]. split; [reflexivity|].
    now apply alist_mem_In.
Qed.

Lemma pred_cons (g : DiGraph) (n p : string) (ps : list string) :
  NX.pred g n = p :: ps -> exists u, In (u, n) (edges g).
Proof.
  intro E.
  assert (Hp : In p (NX.pred g n)) by (rewrite E; now left).
  unfold NX.pred, keys in Hp. apply in_map_iff in Hp.
  destruct Hp as [row [_ Hrow]]. apply filter_In in Hrow.
  exists (fst row). apply in_edges_iff. exists row.
  split; [tauto|]. split; [reflexivity|].
  now apply alist_mem_In.
Qed.

(** X2.  The scope decides first: [optional] and [dev] components keep
    that type wherever they sit in the graph, and whether or not they are
    in it.  For every other scope the graph is asked: a node of the graph is
    [DIRECT] exactly when no edge points at it and [TRANSITIVE] otherwise,
    so a component that depends on itself is transitive, and an identifier
    that is not a node of the graph raises [NetworkXError].  [PEER] is never
    assigned. *)
Theorem dependency_type_rules (node_data : dict) (graph : DiGraph)
    (node_id : string) :
  let scope := get node_data "scope" (PStr "required") in
  let answer := _determine_dependency_type node_data graph node_id in
  (scope = PStr "optional" -> answer = Ok OPTIONAL)
  /\ (scope = PStr "dev" -> answer = Ok DEV)
  /\ (eq_str scope "optional" = false -> eq_str scope "dev" = false ->
      (In node_id (nodes graph) ->
       (answer = Ok DIRECT <-> forall u, ~ In (u, node_id) (edges graph))
       /\ (answer = Ok TRANSITIVE
           <-> exists u, In (u, node_id) (edges graph)))
      /\ (~ In node_id (nodes graph) -> answer = Raise NetworkXError))
  /\ answer <> Ok PEER.
Proof.
  intros scope answer. subst answer. unfold _determine_dependency_type.
  fold scope.
  split; [intros ->; reflexivity|].
  split; [intros ->; reflexivity|].
  split.
  - intros -> ->. unfold NX.predecessors. split.
    + intro Hin. apply alist_mem_In in Hin. rewrite Hin. cbn [bind].
      pose proof (pred_nil graph node_id) as Hnil.
      destruct (NX.pred graph node_id) as [|p ps] eqn:E.
      * split; split.
        -- intros _. now apply Hnil.
        -- reflexivity.
        -- discriminate.
        -- intros [u Hu]. exfalso. exact (proj1 Hnil eq_refl u Hu).
      * pose proof (pred_cons graph node_id p ps E) as Hex.
        split; split.
        -- discriminate.
        -- intro Hnone. destruct Hex as [u Hu]. exfalso. exact (Hnone u Hu).
        -- intros _. exact Hex.
        -- reflexivity.
    + intro Hout. apply alist_mem_false in Hout. now rewrite Hout.
  - destruct (eq_str scope "optional"); [discriminate|].
    destruct (eq_str scope "dev"); [discriminate|].
    destruct (NX.predecessors graph node_id) as [[|p ps]|e]; discriminate.
Qed.

End Classification.

(* ===================================================================== *)
(** ** What the two extraction steps produce *)
(* ===================================================================== *)

Section Extraction.

Lemma for_each_collect {A B} (body : list B -> A -> result (list B))
    (h : A -> list B) (xs : list A) :
  (forall acc x, In x xs -> body acc x = Ok (acc ++ h x)%list) ->
  forall acc, for_each body xs acc = Ok (acc ++ flat_map h xs)%list.
Proof.
  induction xs as [|x xs IH]; intros Hbody acc; simpl.
  - now rewrite app_nil_r.
  - rewrite Hbody by now left. simpl.
    rewrite IH by (intros; apply Hbody; now right).
    now rewrite app_assoc.
Qed.

Lemma flat_map_singleton {A B} (f : A -> B) (xs : list A) :
  flat_map (fun x => [f x]) xs = map f xs.
Proof. induction xs as [|x xs IH]; simpl; [reflexivity|now rewrite IH]. Qed.

Lemma flat_map_filter {A B} (p : A -> bool) (f : A -> B) (xs : list A) :
  flat_map (fun x => if p x then [f x] else []) xs = map f (filter p xs).
Proof.
  induction xs as [|x xs IH]; simpl; [reflexivity|].
  destruct (p x); simpl; now rewrite IH.
Qed.

(** X3.  A document that is neither marked [bomFormat = 'CycloneDX'] (the
    comparison is exact, so another spelling does not count) nor carries a
    true [spdxVersion] is not rejected: it yields the empty graph and an
    empty log, whatever else it holds. *)
Theorem unrecognised_format_gives_empty_graph {RT : Runtime} {CL : Clients}
    (sbom_data : dict) :
  eq_str (get sbom_data "bomFormat" PNone) "CycloneDX" = false ->
  truthy (get sbom_data "spdxVersion" PNone) = false ->
  _build_dependency_graph sbom_data = Ok (NX.empty, []).
Proof.
  intros Hc Hs.
  unfold _build_dependency_graph, _extract_components, _extract_dependencies.
  rewrite Hc, Hs. reflexivity.
Qed.

(** X4.  From a CycloneDX document the dependency step returns one record
    per entry of every [dependsOn], in document order, with the [ref] of
    the enclosing entry as source and the type 'depends_on'; an entry
    without [dependsOn] contributes nothing. *)
Theorem cyclonedx_dependency_records (sbom_data : dict) (entries : list dict) :
  eq_str (get sbom_data "bomFormat" PNone) "CycloneDX" = true ->
  get sbom_data "dependencies" (PList []) = PList (map PDict entries) ->
  Forall (fun dep_info =>
            iterate (get dep_info "dependsOn" (PList []))
            = Ok (Shapes.targets_of dep_info)) entries ->
  _extract_dependencies sbom_data
  = Ok (flat_map (fun dep_info =>
                    Shapes.cyclonedx_records dep_info
                      (Shapes.targets_of dep_info)) entries).
Proof.
  intros Hfmt Hdeps Hiter. unfold _extract_dependencies.
  rewrite Hfmt, Hdeps. cbn [iterate bind].
  rewrite (for_each_collect _
             (fun item =>
                match item with
                | PDict dep_info =>
                    Shapes.cyclonedx_records dep_info
                      (Shapes.targets_of dep_info)
                | _ => []
                end)).
  - cbn [app]. f_equal. rewrite flat_map_concat_map, map_map.
    now rewrite <- flat_map_concat_map.
  - intros acc item Hin. apply in_map_iff in Hin.
    destruct Hin as [dep_info [<- Hin]]. cbn [as_dict bind].
    rewrite Forall_forall in Hiter. rewrite (Hiter _ Hin). cbn [bind].
    rewrite (for_each_collect _
               (fun target =>
                  [Shapes.dependency (get dep_info "ref" PNone) target])).
    + now rewrite flat_map_singleton.
    + reflexivity.
Qed.

(** X5.  From an SPDX document the dependency step keeps the relationships
    whose [relationshipType] is exactly 'DEPENDS_ON', in document order, and
    ignores every other relationship. *)
Theorem spdx_dependency_records (sbom_data : dict)
    (relationships : list dict) :
  eq_str (get sbom_data "bomFormat" PNone) "CycloneDX" = false ->
  truthy (get sbom_data "spdxVersion" PNone) = true ->
  get sbom_data "relationships" (PList []) = PList (map PDict relationships) ->
  _extract_dependencies sbom_data
  = Ok (map Shapes.spdx_record
          (filter Shapes.is_depends_on relationships)).
Proof.
  intros Hfmt Hspdx Hrel. unfold _extract_dependencies.
  rewrite Hfmt, Hspdx, Hrel. cbn [iterate bind].
  rewrite (for_each_collect _
             (fun item =>
                match item with
                | PDict relationship =>
                    if Shapes.is_depends_on relationship
                    then [Shapes.spdx_record relationship] else []
                | _ => []
                end)).
  - cbn [app]. f_equal. rewrite <- flat_map_filter.
    rewrite !flat_map_concat_map, map_map. reflexivity.
  - intros acc item Hin. apply in_map_iff in Hin.
    destruct Hin as [relationship [<- Hin]]. cbn [as_dict bind].
    unfold Shapes.is_depends_on.
    destruct (eq_str (get relationship "relationshipType" PNone)
                "DEPENDS_ON"); [reflexivity|].
    now rewrite app_nil_r.
Qed.

(** The keys of an extracted component do not depend on the record. *)
Lemma component_keys_fixed (sbom_data : dict) (components : list dict) :
  _extract_components sbom_data = Ok components ->
  Forall (fun component =>
            keys component = Shapes.cyclonedx_keys
            \/ keys component = Shapes.spdx_keys) components.
Proof.
  unfold _extract_components.
  destruct (eq_str (get sbom_data "bomFormat" PNone) "CycloneDX").
  - destruct (iterate (get sbom_data "components" (PList [])))
      as [items|e]; [|discriminate]. cbn [bind].
    apply for_each_invariant; [|constructor].
    intros acc item acc' Hacc.
    destruct (as_dict item) as [component|e]; [|discriminate].
    cbn [bind]. intros [= <-].
    apply Forall_app. split; [exact Hacc|].
    repeat constructor.
  - destruct (truthy (get sbom_data "spdxVersion" PNone)).
    + destruct (iterate (get sbom_data "packages" (PList [])))
        as [items|e]; [|discriminate]. cbn [bind].
      apply for_each_invariant; [|constructor].
      intros acc item acc' Hacc.
      destruct (as_dict item) as [package|e]; [|discriminate].
      cbn [bind]. intros [= <-].
      apply Forall_app. split; [exact Hacc|].
      constructor; [now right|constructor].
    + intros [= <-]. constructor.
Qed.

(** Which of the two key lists applies is decided by the format of the
    document. *)
Lemma component_keys_by_format (sbom_data : dict) (components : list dict) :
  _extract_components sbom_data = Ok components ->
  Forall (fun component =>
            keys component
            = if eq_str (get sbom_data "bomFormat" PNone) "CycloneDX"
              then Shapes.cyclonedx_keys else Shapes.spdx_keys) components.
Proof.
  unfold _extract_components.
  destruct (eq_str (get sbom_data "bomFormat" PNone) "CycloneDX").
  - destruct (iterate (get sbom_data "components" (PList [])))
      as [items|e]; [|discriminate]. cbn [bind].
    apply for_each_invariant; [|constructor].
    intros acc item acc' Hacc.
    destruct (as_dict item) as [component|e]; [|discriminate].
    cbn [bind]. intros [= <-].
    apply Forall_app. split; [exact Hacc|].
    repeat constructor.
  - destruct (truthy (get sbom_data "spdxVersion" PNone)).
    + destruct (iterate (get sbom_data "packages" (PList [])))
        as [items|e]; [|discriminate]. cbn [bind].
      apply for_each_invariant; [|constructor].
      intros acc item acc' Hacc.
      destruct (as_dict item) as [package|e]; [|discriminate].
      cbn [bind]. intros [= <-].
      apply Forall_app. split; [exact Hacc|].
      repeat constructor.
    + intros [= <-]. constructor.
Qed.

(** X6.  Whatever a component record of the document holds, the extracted
    component has a fixed set of keys, decided by the format of the
    document: the seven CycloneDX keys for a CycloneDX document, the six
    SPDX keys for any other document from which components are extracted.
    [name] and [version] are always among them.  Any other field of the
    record, an identifier such as a [bom-ref] included, is dropped, and the
    three enrichment keys are never present. *)
Theorem extracted_component_keys (sbom_data : dict) (components : list dict) :
  _extract_components sbom_data = Ok components ->
  (eq_str (get sbom_data "bomFormat" PNone) "CycloneDX" = true ->
   Forall (fun component => keys component = Shapes.cyclonedx_keys)
          components)
  /\ (eq_str (get sbom_data "bomFormat" PNone) "CycloneDX" = false ->
      Forall (fun component => keys component = Shapes.spdx_keys)
             components)
  /\ Forall (fun component =>
               In "name" (keys component)
               /\ In "version" (keys component)
               /\ Shapes.unenriched component) components.
Proof.
  intro Hc. pose proof (component_keys_by_format _ _ Hc) as Hkeys.
  split; [intro E; now rewrite E in Hkeys|].
  split; [intro E; now rewrite E in Hkeys|].
  eapply Forall_impl; [|exact Hkeys].
  intros c Hk.
  assert (Hk' : keys c = Shapes.cyclonedx_keys \/ keys c = Shapes.spdx_keys)
    by (destruct (eq_str _ _); [now left|now right]).
  clear Hk.
  split; [destruct Hk' as [-> | ->]; simpl; tauto|].
  split; [destruct Hk' as [-> | ->]; simpl; tauto|].
  intros k Hin. apply alist_get_None.
  destruct Hk' as [-> | ->]; simpl in Hin |- *;
    intuition (subst; discriminate).
Qed.

End Extraction.

(* ===================================================================== *)
(** ** The node set of a built graph *)
(* ===================================================================== *)

Section NodeSet.

Context {RT : Runtime}.

Lemma str_mem_keys {V} (l : list (string * V)) (k : string) :
  str_mem k (keys l) = alist_mem l k.
Proof.
  unfold str_mem, alist_mem. induction l as [|[k' v] l IH]; simpl;
    [reflexivity|].
  destruct (String.eqb k k'); [reflexivity|exact IH].
Qed.

Lemma nodes_add_node_step (g : DiGraph) (n : string) (attr : dict) :
  nodes (add_node g n attr)
  = if str_mem n (nodes g) then nodes g else (nodes g ++ [n])%list.
Proof.
  unfold nodes at 2. rewrite str_mem_keys. unfold alist_mem, nodes, add_node.
  destruct (alist_get (_node g) n) as [d|] eqn:E; cbn [_node].
  - apply keys_set_present. apply alist_mem_In. unfold alist_mem.
    now rewrite E.
  - now rewrite keys_app.
Qed.

Lemma nodes_add_components (components : list dict) (g : DiGraph) :
  nodes (add_components g components)
  = fold_left (fun acc x => if str_mem x acc then acc else (acc ++ [x])%list)
              (map Shapes.node_id_of components) (nodes g).
Proof.
  unfold add_components. revert g.
  induction components as [|c cs IH]; intro g; simpl; [reflexivity|].
  rewrite IH, nodes_add_node_step. reflexivity.
Qed.

Lemma distinct_length (xs acc : list string) :
  (List.length
     (fold_left (fun acc x => if str_mem x acc then acc else (acc ++ [x])%list)
                xs acc)
   <= List.length acc + List.length xs)%nat.
Proof.
  revert acc. induction xs as [|x xs IH]; intro acc; simpl; [lia|].
  specialize (IH (if str_mem x acc then acc else (acc ++ [x])%list)).
  destruct (str_mem x acc); [lia|].
  rewrite length_app in IH. simpl in IH. lia.
Qed.

(** What graph construction returns, read backwards. *)
Lemma build_inversion {CL : Clients} (sbom_data : dict) (graph : DiGraph)
    (log : list log_record) :
  _build_dependency_graph sbom_data = Ok (graph, log) ->
  exists components dependencies,
    _extract_components sbom_data = Ok components
    /\ _extract_dependencies sbom_data = Ok dependencies
    /\ graph
       = {| _node :=
              map Spec.enriched_node
                (_node (add_dependencies
                          (add_components NX.empty components) dependencies));
            _adj :=
              _adj (add_dependencies
                      (add_components NX.empty components) dependencies) |}
    /\ log
       = List.concat
           (map (fun task => snd (_enrich_node_data (fst task) (snd task)))
                (_node (add_dependencies
                          (add_components NX.empty components)
                          dependencies))).
Proof.
  intro Hbuild.
  destruct (_extract_components sbom_data) as [components|e] eqn:Hc.
  2:{ unfold _build_dependency_graph in Hbuild. rewrite Hc in Hbuild.
      discriminate Hbuild. }
  destruct (_extract_dependencies sbom_data) as [dependencies|e] eqn:Hd.
  2:{ unfold _build_dependency_graph in Hbuild. rewrite Hc in Hbuild.
      cbn [bind] in Hbuild. rewrite Hd in Hbuild. discriminate Hbuild. }
  pose proof (build_dependency_graph_spec _ _ _ Hc Hd) as Hspec.
  cbv zeta in Hspec. rewrite Hbuild in Hspec. injection Hspec as -> ->.
  exists components, dependencies. repeat split; reflexivity.
Qed.

Lemma built_nodes {CL : Clients} (sbom_data : dict) (graph : DiGraph)
    (log : list log_record) (components : list dict) :
  _build_dependency_graph sbom_data = Ok (graph, log) ->
  _extract_components sbom_data = Ok components ->
  nodes graph = nodes (add_components NX.empty components).
Proof.
  intros Hbuild Hc.
  destruct (build_inversion _ _ _ Hbuild) as (cs & ds & Hc' & _ & -> & _).
  rewrite Hc in Hc'. injection Hc' as <-.
  rewrite nodes_enriched. unfold nodes. now rewrite add_dependencies_node.
Qed.

(** X7.  The nodes of the built graph are the identifiers
    [name@version] of the extracted components, each once, in the order in
    which they first occur: components that share an identifier are one
    node, so there are never more nodes than components. *)
Theorem built_nodes_are_distinct_ids {CL : Clients} (sbom_data : dict)
    (graph : DiGraph) (log : list log_record) (components : list dict) :
  _build_dependency_graph sbom_data = Ok (graph, log) ->
  _extract_components sbom_data = Ok components ->
  nodes graph = Shapes.distinct (map Shapes.node_id_of components)
  /\ NoDup (nodes graph)
  /\ (List.length (nodes graph) <= List.length components)%nat.
Proof.
  intros Hbuild Hc.
  rewrite (built_nodes _ _ _ _ Hbuild Hc).
  split; [apply nodes_add_components|]. split.
  - apply (wf_nodes _ (wf_add_components components NX.empty wf_empty)).
  - rewrite nodes_add_components.
    pose proof (distinct_length (map Shapes.node_id_of components) []) as H.
    rewrite length_map in H. exact H.
Qed.

Lemma has_at_node_id (a b : string) :
  Shapes.has_at (a ++ "@" ++ b)%string = true.
Proof.
  unfold Shapes.has_at. induction a as [|c a IH]; [reflexivity|].
  cbn [append list_ascii_of_string existsb].
  apply orb_true_iff. right. exact IH.
Qed.

Lemma add_components_has_at (components : list dict) (g : DiGraph) :
  (forall n, In n (nodes g) -> Shapes.has_at n = true) ->
  forall n, In n (nodes (add_components g components)) ->
            Shapes.has_at n = true.
Proof.
  unfold add_components. revert g.
  induction components as [|c cs IH]; intros g Hg n; simpl; [apply Hg|].
  apply IH. intros m Hm. apply nodes_add_node in Hm.
  destruct Hm as [Hm | ->]; [now apply Hg|apply has_at_node_id].
Qed.

(** X8.  Every node identifier of a built graph contains the character
    [@], and so does each end of every edge: a dependency that refers to a
    component in any other form, such as a bare name or an element
    identifier without [@], never becomes an edge. *)
Theorem edges_join_name_at_version {CL : Clients} (sbom_data : dict)
    (graph : DiGraph) (log : list log_record) :
  _build_dependency_graph sbom_data = Ok (graph, log) ->
  (forall n, In n (nodes graph) -> Shapes.has_at n = true)
  /\ (forall u v, In (u, v) (edges graph) ->
                  Shapes.has_at u = true /\ Shapes.has_at v = true).
Proof.
  intro Hbuild.
  destruct (build_inversion _ _ _ Hbuild) as (cs & ds & Hc & Hd & Hg & _).
  assert (Hnodes : forall n, In n (nodes graph) -> Shapes.has_at n = true).
  { intros n Hn. rewrite (built_nodes _ _ _ _ Hbuild Hc) in Hn.
    revert n Hn. apply add_components_has_at. intros m []. }
  split; [exact Hnodes|].
  intros u v Hin.
  assert (Hends : In u (nodes graph) /\ In v (nodes graph)).
  { subst graph. rewrite nodes_enriched.
    unfold edges in Hin. cbn [_adj] in Hin.
    apply (built_edges cs ds u v) in Hin. tauto. }
  split; apply Hnodes; tauto.
Qed.

End NodeSet.

(* ===================================================================== *)
(** ** What enrichment changes and what it leaves alone *)
(* ===================================================================== *)

Section EnrichmentShape.

Context {CL : Clients}.

Lemma update_other (e d : dict) (k : string) :
  ~ In k (keys e) -> alist_get (update d e) k = alist_get d k.
Proof.
  unfold update. revert d.
  induction e as [|[k0 v0] e IH]; intros d Hk; simpl; [reflexivity|].
  simpl in Hk. rewrite IH by tauto.
  apply alist_get_set_other. intro Heq. apply Hk. now left.
Qed.

Lemma update_get_in (e d : dict) (k : string) (v : pyval) :
  NoDup (keys e) -> alist_get e k = Some v ->
  alist_get (update d e) k = Some v.
Proof.
  unfold update. revert d.
  induction e as [|[k0 v0] e IH]; intros d Hnd Hget; simpl in *;
    [discriminate|].
  inversion Hnd as [|? ? Hnotin Hnd']; subst.
  destruct (String.eqb k k0) eqn:E.
  - apply String.eqb_eq in E. subst k0. injection Hget as <-.
    pose proof (update_other e (alist_set d k v0) k Hnotin) as H.
    unfold update in H. rewrite H. apply alist_get_set_same.
  - now apply IH.
Qed.

Lemma keys_alist_set_incl {V} (l : list (string * V)) (k : string) (v : V)
    (K : list string) :
  incl (keys l) K -> In k K -> incl (keys (alist_set l k v)) K.
Proof.
  intros Hl Hk. destruct (in_dec string_dec k (keys l)) as [Hin|Hnotin].
  - now rewrite keys_set_present.
  - rewrite keys_set_absent by exact Hnotin.
    apply incl_app; [exact Hl|]. intros x [<-|[]]. exact Hk.
Qed.

Lemma try_call_keys (st : dict * option exn) (key : string)
    (call : result pyval) :
  incl (keys (fst st)) Shapes.enrichment_keys ->
  In key Shapes.enrichment_keys ->
  incl (keys (fst (try_call st key call))) Shapes.enrichment_keys.
Proof.
  intros Hst Hkey. unfold try_call.
  destruct (snd st); [exact Hst|].
  destruct call; cbn [fst]; [|exact Hst].
  now apply keys_alist_set_incl.
Qed.

(** A task returns nothing but enrichment keys. *)
Lemma enriched_keys (node_id : string) (node_data : dict) (data : dict) :
  fst (_enrich_node_data node_id node_data) = Ok data ->
  incl (keys data) Shapes.enrichment_keys.
Proof.
  unfold _enrich_node_data.
  destruct (_extract_package_manager _) as [pm|e]; [|discriminate].
  destruct (str_mem pm package_registries); cbn [fst]; intros [= <-].
  - apply try_call_keys; [|simpl; tauto].
    apply try_call_keys; [|simpl; tauto].
    apply try_call_keys; [|simpl; tauto]. intros x [].
  - apply try_call_keys; [|simpl; tauto].
    apply try_call_keys; [|simpl; tauto]. intros x [].
Qed.

(** A task logs nothing or one warning about its own node. *)
Lemma enrich_log_shape (node_id : string) (node_data : dict) :
  snd (_enrich_node_data node_id node_data) = []
  \/ exists e, snd (_enrich_node_data node_id node_data)
               = [Warning node_id e].
Proof.
  unfold _enrich_node_data.
  destruct (_extract_package_manager _) as [pm|e]; [|now left].
  cbn [snd]. destruct (snd (try_call _ _ _)) as [e|];
    [right; now exists e|now left].
Qed.

Lemma warnings_follow_nodes (tasks : list (string * dict)) :
  NoDup (keys tasks) ->
  NoDup (map Shapes.warning_node
           (List.concat
              (map (fun task => snd (_enrich_node_data (fst task) (snd task)))
                   tasks)))
  /\ incl (map Shapes.warning_node
             (List.concat
                (map (fun task =>
                        snd (_enrich_node_data (fst task) (snd task)))
                     tasks)))
          (keys tasks).
Proof.
  induction tasks as [|[k d] tasks IH]; simpl; intro Hnd.
  - split; [constructor|intros x []].
  - inversion Hnd as [|? ? Hnotin Hnd']; subst.
    destruct (IH Hnd') as [IH1 IH2].
    destruct (enrich_log_shape k d) as [-> | [e ->]]; simpl.
    + split; [exact IH1|]. intros x Hx. right. now apply IH2.
    + split.
      * constructor; [|exact IH1]. intro Hin. apply Hnotin. now apply IH2.
      * intros x [<-|Hx]; [now left|right; now apply IH2].
Qed.

(** The attributes of a node after the step. *)
Lemma enriched_node_data (g : DiGraph) (n : string) (d : dict) :
  NoDup (nodes g) ->
  NX.node_data g n = Ok d ->
  NX.node_data
    {| _node := map Spec.enriched_node (_node g); _adj := _adj g |} n
  = Ok (snd (Spec.enriched_node (n, d))).
Proof.
  intros Hnd Hd. unfold NX.node_data in *. cbn [_node].
  destruct (alist_get (_node g) n) as [d0|] eqn:E; [|discriminate].
  injection Hd as ->.
  apply (alist_get_In _ _ _ Hnd) in E.
  assert (Hget : alist_get (map Spec.enriched_node (_node g)) n
                 = Some (snd (Spec.enriched_node (n, d)))).
  { apply alist_get_In; [now rewrite keys_enriched|].
    apply in_map_iff. exists (n, d). split; [reflexivity|exact E]. }
  now rewrite Hget.
Qed.

(** X9.  The enrichment step logs at most one warning per node, each about
    a node of the graph, and leaves the node order and the edges as they
    were, however many batches of ten it takes. *)
Theorem enrichment_logs_once_per_node (g g' : DiGraph)
    (log : list log_record) :
  NoDup (nodes g) ->
  _enrich_dependency_graph g = Ok (g', log) ->
  NoDup (map Shapes.warning_node log)
  /\ incl (map Shapes.warning_node log) (nodes g)
  /\ nodes g' = nodes g
  /\ edges g' = edges g.
Proof.
  intros Hnd Hrun.
  rewrite (enrich_dependency_graph_total g Hnd) in Hrun.
  injection Hrun as <- <-.
  destruct (warnings_follow_nodes (_node g) Hnd) as [H1 H2].
  split; [exact H1|]. split; [exact H2|].
  split; [apply keys_enriched|reflexivity].
Qed.

(** X10.  Enrichment writes under the keys [registry_info],
    [security_info] and [trust_info] only: every other attribute of every
    node, the component fields among them, is after the step what it was
    before. *)
Theorem enrichment_keeps_component_fields (g g' : DiGraph)
    (log : list log_record) (n k : string) (d : dict) :
  NoDup (nodes g) ->
  _enrich_dependency_graph g = Ok (g', log) ->
  NX.node_data g n = Ok d ->
  ~ In k Shapes.enrichment_keys ->
  exists d', NX.node_data g' n = Ok d' /\ alist_get d' k = alist_get d k.
Proof.
  intros Hnd Hrun Hd Hk.
  rewrite (enrich_dependency_graph_total g Hnd) in Hrun.
  injection Hrun as <- _.
  eexists. split; [apply enriched_node_data; eassumption|].
  unfold Spec.enriched_node. cbn [fst snd].
  destruct (fst (_enrich_node_data n d)) as [data|e] eqn:E; [|reflexivity].
  apply update_other. intro Hin. apply Hk.
  exact (enriched_keys n d data E k Hin).
Qed.

(** X11.  When no collaborator raises, nothing is logged, and every node
    whose package url is a string or missing ends up with the answers of
    its own security and trust lookups under [security_info] and
    [trust_info]. *)
Theorem enrichment_without_failures (g g' : DiGraph)
    (log : list log_record) :
  NoDup (nodes g) ->
  (forall pm name version,
     exists r, get_package_info pm name version = Ok r) ->
  (forall name version pm,
     exists r, _get_security_information name version pm = Ok r) ->
  (forall name version pm,
     exists r, _get_trust_information name version pm = Ok r) ->
  _enrich_dependency_graph g = Ok (g', log) ->
  log = []
  /\ forall n d pm,
       NX.node_data g n = Ok d ->
       _extract_package_manager (get d "purl" (PStr "")) = Ok pm ->
       exists d',
         NX.node_data g' n = Ok d'
         /\ rmap Some
              (_get_security_information (get d "name" (PStr ""))
                 (get d "version" (PStr "")) pm)
            = Ok (alist_get d' "security_info")
         /\ rmap Some
              (_get_trust_information (get d "name" (PStr ""))
                 (get d "version" (PStr "")) pm)
            = Ok (alist_get d' "trust_info").
Proof.
  intros Hnd Hreg Hsec Htrust Hrun.
  rewrite (enrich_dependency_graph_total g Hnd) in Hrun.
  injection Hrun as <- <-.
  assert (Hone : forall id d pm,
            _extract_package_manager (get d "purl" (PStr "")) = Ok pm ->
            exists s t,
              _get_security_information (get d "name" (PStr ""))
                (get d "version" (PStr "")) pm = Ok s
              /\ _get_trust_information (get d "name" (PStr ""))
                   (get d "version" (PStr "")) pm = Ok t
              /\ snd (_enrich_node_data id d) = []
              /\ exists data,
                   fst (_enrich_node_data id d) = Ok data
                   /\ NoDup (keys data)
                   /\ alist_get data "security_info" = Some s
                   /\ alist_get data "trust_info" = Some t).
  { intros id d pm Hpm.
    destruct (Hsec (get d "name" (PStr "")) (get d "version" (PStr "")) pm)
      as [s Hs].
    destruct (Htrust (get d "name" (PStr "")) (get d "version" (PStr "")) pm)
      as [t Ht].
    destruct (Hreg pm (get d "name" (PStr "")) (get d "version" (PStr "")))
      as [r Hr].
    exists s, t. split; [exact Hs|]. split; [exact Ht|].
    rewrite (enrich_node_data_spec id d pm Hpm). unfold Spec.lookups.
    rewrite Hs, Ht, Hr.
    destruct (str_mem pm package_registries); cbn.
    - split; [reflexivity|]. eexists. split; [reflexivity|].
      split; [|split; reflexivity].
      repeat constructor; simpl; intuition discriminate.
    - split; [reflexivity|]. eexists. split; [reflexivity|].
      split; [|split; reflexivity].
      repeat constructor; simpl; intuition discriminate. }
  split.
  - assert (Hall : forall tasks : list (string * dict),
              List.concat
                (map (fun task =>
                        snd (_enrich_node_data (fst task) (snd task))) tasks)
              = []).
    { induction tasks as [|[k d] tasks IH]; simpl; [reflexivity|].
      rewrite IH, app_nil_r.
      destruct (_extract_package_manager (get d "purl" (PStr "")))
        as [pm|e] eqn:Hpm.
      - destruct (Hone k d pm Hpm) as (_ & _ & _ & _ & Hlog & _).
        exact Hlog.
      - now rewrite (enrich_node_data_raise k d e Hpm). }
    apply Hall.
  - intros n d pm Hd Hpm.
    destruct (Hone n d pm Hpm)
      as (s & t & Hs & Ht & _ & data & Hdata & Hkeys & Hgs & Hgt).
    eexists. split; [apply enriched_node_data; eassumption|].
    unfold Spec.enriched_node. cbn [fst snd]. rewrite Hdata, Hs, Ht.
    cbn [rmap].
    rewrite (update_get_in data d "security_info" s Hkeys Hgs).
    rewrite (update_get_in data d "trust_info" t Hkeys Hgt).
    split; reflexivity.
Qed.

End EnrichmentShape.

(* ===================================================================== *)
(** ** The node list of the analysis *)
(* ===================================================================== *)

Section NodeList.

(** X12.  [_analyze_nodes] returns for the graph without nodes only, and
    then the empty list.  On a graph with a node it raises while it handles
    the first node: when the package manager, the dependency type, the trust
    level and the risk score of that node are all computed, the call of
    [_extract_maintainer_info], a method the class does not define, raises
    [AttributeError]. *)
Theorem analyze_nodes_returns_on_empty_graph_only (graph : DiGraph) :
  (forall analysed,
     _analyze_nodes graph = Ok analysed
     <-> NX.nodes graph = [] /\ analysed = [])
  /\ (forall n rest node_data package_manager dependency_type trust_level
             risk_score,
        NX.nodes graph = n :: rest ->
        NX.node_data graph n = Ok node_data ->
        _extract_package_manager (get node_data "purl" (PStr ""))
        = Ok package_manager ->
        _determine_dependency_type node_data graph n = Ok dependency_type ->
        _calculate_trust_level node_data = Ok trust_level ->
        _calculate_node_risk_score node_data graph n = Ok risk_score ->
        _analyze_nodes graph = Raise AttributeError).
Proof.
  split.
  - intro analysed. split.
    + intro Hrun. destruct (NX.nodes graph) as [|n rest] eqn:Hn.
      * split; [reflexivity|]. unfold _analyze_nodes in Hrun.
        rewrite Hn in Hrun. now injection Hrun as <-.
      * destruct (analyze_nodes_nonempty_raises graph) as [e He];
          [rewrite Hn; discriminate|].
        rewrite Hrun in He. discriminate He.
    + intros [Hn ->]. unfold _analyze_nodes. now rewrite Hn.
  - intros n rest d pm dt t r Hn Hd Hpm Hdt Ht Hr.
    rewrite (analyze_nodes_first_node graph n rest Hn).
    rewrite Hd. cbn [bind]. rewrite Hpm. cbn [bind]. rewrite Hdt.
    cbn [bind]. rewrite Ht. cbn [bind]. now rewrite Hr.
Qed.

End NodeList.

(* ===================================================================== *)
(** ** The analysis with the clients of the module *)
(* ===================================================================== *)

Section ShippedClients.

Local Open Scope Q_scope.

Context {RT : Runtime}.

Lemma extracted_components_unenriched (sbom_data : dict)
    (components : list dict) :
  _extract_components sbom_data = Ok components ->
  Forall (fun c => forall k, In k Shapes.enrichment_keys ->
                             ~ In k (keys c)) components.
Proof.
  intro Hc. pose proof (component_keys_fixed _ _ Hc) as Hkeys.
  eapply Forall_impl; [|exact Hkeys].
  intros c [-> | ->] k Hk Hin; simpl in Hk, Hin;
    intuition (subst; discriminate).
Qed.

Lemma Forall_alist_set {V} (P : string * V -> Prop)
    (l : list (string * V)) (k : string) (v : V) :
  Forall P l -> P (k, v) -> Forall P (alist_set l k v).
Proof.
  intros Hl Hv. induction l as [|[k' v'] l IH]; simpl.
  - repeat constructor. exact Hv.
  - inversion Hl; subst.
    destruct (String.eqb k k') eqn:E.
    + apply String.eqb_eq in E. subst k'. constructor; assumption.
    + constructor; auto.
Qed.

Lemma add_components_unenriched (components : list dict) (g : DiGraph) :
  Forall (fun c => forall k, In k Shapes.enrichment_keys ->
                             ~ In k (keys c)) components ->
  Forall (fun nd => Shapes.unenriched (snd nd)) (_node g) ->
  Forall (fun nd => Shapes.unenriched (snd nd))
         (_node (add_components g components)).
Proof.
  unfold add_components. revert g.
  induction components as [|c cs IH]; intros g Hcs Hg; simpl; [exact Hg|].
  inversion Hcs as [|? ? Hc Hrest]; subst.
  apply IH; [exact Hrest|].
  unfold add_node.
  destruct (alist_get (_node g) _) as [d|] eqn:E; cbn [_node].
  - apply Forall_alist_set; [exact Hg|].
    cbn [snd]. intros k Hk. rewrite update_other by now apply Hc.
    assert (Hd : Shapes.unenriched d).
    { clear -E Hg. induction (_node g) as [|[k' v'] l IHl];
        simpl in E; [discriminate|].
      inversion Hg; subst.
      destruct (String.eqb _ k'); [|now apply IHl].
      injection E as <-. assumption. }
    now apply Hd.
  - apply Forall_app. split; [exact Hg|].
    repeat constructor. cbn [snd]. intros k Hk.
    rewrite update_other by now apply Hc. reflexivity.
Qed.

(** What a task returns with the clients of the module. *)
Lemma placeholder_enrichment (node_id : string) (d : dict) :
  _enrich_node_data (CL := placeholder_clients) node_id d
  = match _extract_package_manager (get d "purl" (PStr "")) with
    | Raise e => (Raise e, [])
    | Ok pm =>
        (Ok ((if str_mem pm package_registries
              then [("registry_info", PDict [])] else [])
             ++ [("security_info",
                  PDict [("vulnerability_count", PInt 0);
                         ("critical_vulnerabilities", PInt 0);
                         ("security_advisories", PList [])]);
                 ("trust_info",
                  PDict [("signed", PBool false);
                         ("maintainer_reputation", PFloat 0.5);
                         ("security_incidents", PInt 0)])])%list,
         [])
    end.
Proof.
  unfold _enrich_node_data.
  destruct (_extract_package_manager _) as [pm|e]; [|reflexivity].
  destruct (str_mem pm package_registries); reflexivity.
Qed.

(** Trust level and risk score of a node enriched by those clients. *)
Lemma placeholder_node_scores (g : DiGraph) (node_id : string) (d : dict) :
  Shapes.unenriched d ->
  let d' := snd (Spec.enriched_node (CL := placeholder_clients) (node_id, d)) in
  _calculate_trust_level d' = Ok NEUTRAL
  /\ exists r,
       _calculate_node_risk_score d' g node_id = Ok r
       /\ r == Qmin (2 + Spec.depth_penalty
                         (Spec.distance_from_first_node g node_id)) 10.
Proof.
  intros Hclean d'. subst d'. unfold Spec.enriched_node. cbn [fst snd].
  rewrite placeholder_enrichment.
  assert (Hreg0 : alist_get d "registry_info" = None)
    by (apply Hclean; simpl; tauto).
  assert (Hsec0 : alist_get d "security_info" = None)
    by (apply Hclean; simpl; tauto).
  assert (Htr0 : alist_get d "trust_info" = None)
    by (apply Hclean; simpl; tauto).
  destruct (_extract_package_manager _) as [pm|e]; cbn [fst].
  - set (sec := PDict [("vulnerability_count", PInt 0);
                       ("critical_vulnerabilities", PInt 0);
                       ("security_advisories", PList [])]).
    set (tr := PDict [("signed", PBool false);
                      ("maintainer_reputation", PFloat 0.5);
                      ("security_incidents", PInt 0)]).
    set (e := ((if str_mem pm package_registries
                then [("registry_info", PDict [])] else [])
               ++ [("security_info", sec); ("trust_info", tr)])%list).
    assert (Hnd : NoDup (keys e)).
    { subst e. destruct (str_mem pm package_registries); simpl;
        repeat constructor; simpl; intuition discriminate. }
    assert (Hs : alist_get (update d e) "security_info" = Some sec).
    { apply update_get_in; [exact Hnd|]. subst e.
      destruct (str_mem pm package_registries); reflexivity. }
    assert (Ht : alist_get (update d e) "trust_info" = Some tr).
    { apply update_get_in; [exact Hnd|]. subst e.
      destruct (str_mem pm package_registries); reflexivity. }
    assert (Hr : get (update d e) "registry_info" (PDict []) = PDict []).
    { unfold get. subst e.
      destruct (str_mem pm package_registries); cbn [app].
      - rewrite (update_get_in _ d "registry_info" (PDict []));
          [reflexivity| |reflexivity].
        repeat constructor; simpl; intuition discriminate.
      - rewrite update_other, Hreg0; [reflexivity|].
        simpl. intuition discriminate. }
    split.
    + unfold _calculate_trust_level, get. rewrite Ht. reflexivity.
    + destruct (node_risk_score_value (update d e)
                  [("vulnerability_count", PInt 0);
                   ("critical_vulnerabilities", PInt 0);
                   ("security_advisories", PList [])]
                  [] g node_id 0 0 365 0 0) as [r [Hrun Hval]];
        try reflexivity.
      * unfold get. now rewrite Hs.
      * exact Hr.
      * exists r. split; [exact Hrun|]. rewrite Hval.
        apply Q.min_compat; [|reflexivity].
        unfold Spec.risk_sum. cbn. lra.
  - split.
    + unfold _calculate_trust_level, get. rewrite Htr0. reflexivity.
    + destruct (node_risk_score_value d [] [] g node_id 0 0 365 0 0)
        as [r [Hrun Hval]]; try reflexivity.
      * unfold get. now rewrite Hsec0.
      * unfold get. now rewrite Hreg0.
      * exists r. split; [exact Hrun|]. rewrite Hval.
        apply Q.min_compat; [|reflexivity].
        unfold Spec.risk_sum. cbn. lra.
Qed.

(** Trust level and risk score of a node of a graph built with those
    clients. *)
Lemma shipped_node_scores (sbom_data : dict) (graph : DiGraph)
    (log : list log_record) (n : string) (node_data : dict) :
  _build_dependency_graph (CL := placeholder_clients) sbom_data
  = Ok (graph, log) ->
  NX.node_data graph n = Ok node_data ->
  _calculate_trust_level node_data = Ok NEUTRAL
  /\ exists r,
       _calculate_node_risk_score node_data graph n = Ok r
       /\ r == Qmin (2 + Spec.depth_penalty
                         (Spec.distance_from_first_node graph n)) 10.
Proof.
  intros Hbuild Hdata.
  destruct (build_inversion _ _ _ Hbuild) as (cs & ds & Hc & Hd & Hg & Hlog).
  set (before := add_dependencies (add_components NX.empty cs) ds) in *.
  assert (Hclean : Forall (fun nd => Shapes.unenriched (snd nd)) (_node before)).
  { unfold before. rewrite add_dependencies_node.
    apply add_components_unenriched; [|constructor].
    exact (extracted_components_unenriched _ _ Hc). }
  assert (Hnd : NoDup (NX.nodes before))
    by apply (wf_nodes _ (wf_before_enrichment cs ds)).
  assert (Hin : exists d, In (n, d) (_node before)
                          /\ node_data
                             = snd (Spec.enriched_node
                                      (CL := placeholder_clients) (n, d))).
  { rewrite Hg in Hdata. unfold NX.node_data in Hdata. cbn [_node] in Hdata.
    destruct (alist_get _ n) as [d'|] eqn:E; [|discriminate Hdata].
    injection Hdata as ->.
    apply alist_get_In in E; [|now rewrite keys_enriched].
    apply in_map_iff in E. destruct E as [[k d] [E Hin]].
    unfold Spec.enriched_node in E. cbn [fst snd] in E.
    injection E as -> <-. exists d. split; [exact Hin|reflexivity]. }
  destruct Hin as [d [Hin ->]].
  rewrite Forall_forall in Hclean.
  exact (placeholder_node_scores graph n d (Hclean _ Hin)).
Qed.

Lemma depth_penalty_rank (distance : option nat) :
  Spec.depth_penalty distance
  == inject_Z (Z.of_nat (Shapes.edges_counted distance)) * 0.1.
Proof. destruct distance; simpl; [reflexivity|]. vm_compute. reflexivity. Qed.

(** X13.  With the clients the module defines, a build logs nothing and
    tells the nodes apart by nothing but their place in the graph: every
    node is rated [NEUTRAL], and its risk score is computed, lies between
    2.0 and 10, is 2.0 for the first node and for every node that cannot be
    reached from it, and is no smaller for a node that is farther from the
    first node.  Two nodes at the same distance have the same score. *)
Theorem shipped_clients_give_depth_only_scores (sbom_data : dict)
    (graph : DiGraph) (log : list log_record) :
  _build_dependency_graph (CL := placeholder_clients) sbom_data
  = Ok (graph, log) ->
  log = []
  /\ (forall n node_data,
        NX.node_data graph n = Ok node_data ->
        _calculate_trust_level node_data = Ok NEUTRAL
        /\ exists r,
             _calculate_node_risk_score node_data graph n = Ok r
             /\ 2 <= r <= 10
             /\ (Shapes.edges_counted
                   (Spec.distance_from_first_node graph n) = 0%nat ->
                 r == 2))
  /\ (forall n1 n2 data1 data2 r1 r2,
        NX.node_data graph n1 = Ok data1 ->
        NX.node_data graph n2 = Ok data2 ->
        _calculate_node_risk_score data1 graph n1 = Ok r1 ->
        _calculate_node_risk_score data2 graph n2 = Ok r2 ->
        (Shapes.edges_counted (Spec.distance_from_first_node graph n1)
         <= Shapes.edges_counted (Spec.distance_from_first_node graph n2))%nat ->
        r1 <= r2).
Proof.
  intro Hbuild. split; [|split].
  - destruct (build_inversion _ _ _ Hbuild) as (cs & ds & _ & _ & _ & Hlog).
    rewrite Hlog. clear.
    induction (_node (add_dependencies (add_components NX.empty cs) ds))
      as [|[k d] l IH]; simpl; [reflexivity|].
    rewrite IH, app_nil_r, placeholder_enrichment.
    now destruct (_extract_package_manager _).
  - intros n d Hd.
    destruct (shipped_node_scores _ _ _ n d Hbuild Hd) as [Ht [r [Hr Hval]]].
    split; [exact Ht|]. exists r. split; [exact Hr|].
    pose proof (depth_penalty_nonneg
                  (Spec.distance_from_first_node graph n)) as Hp.
    split.
    + rewrite Hval. split; [apply Q.min_glb; lra|apply Q.le_min_r].
    + intro H0. rewrite Hval, depth_penalty_rank, H0.
      change (inject_Z (Z.of_nat 0)) with 0.
      rewrite Q.min_l; lra.
  - intros n1 n2 d1 d2 r1 r2 Hd1 Hd2 Hr1 Hr2 Hle.
    destruct (shipped_node_scores _ _ _ n1 d1 Hbuild Hd1)
      as [_ [r1' [Hr1' Hval1]]].
    destruct (shipped_node_scores _ _ _ n2 d2 Hbuild Hd2)
      as [_ [r2' [Hr2' Hval2]]].
    rewrite Hr1 in Hr1'. injection Hr1' as <-.
    rewrite Hr2 in Hr2'. injection Hr2' as <-.
    rewrite Hval1, Hval2, !depth_penalty_rank.
    apply Q.min_le_compat_r.
    assert (H : inject_Z (Z.of_nat (Shapes.edges_counted
                 (Spec.distance_from_first_node graph n1)))
                <= inject_Z (Z.of_nat (Shapes.edges_counted
                     (Spec.distance_from_first_node graph n2)))).
    { rewrite <- Zle_Qle. lia. }
    lra.
Qed.

End ShippedClients.

(* ===================================================================== *)
(** ** Bounds of the two scores *)
(* ===================================================================== *)

Section ScoreBounds.

Local Open Scope Q_scope.

(** X14.  The aggregate score lies between 0 and 10 for every node list,
    every edge list and every set of findings, the empty node list
    included. *)
Theorem supply_chain_score_in_range (nodes : list SupplyChainNode)
    (edges : list SupplyChainEdge) (analysis_results : GraphAnalysis) :
  0 <= _calculate_supply_chain_score nodes edges analysis_results <= 10.
Proof.
  unfold _calculate_supply_chain_score.
  destruct (negb (nonempty nodes)); [split; lra|].
  cbv zeta. split.
  - eapply Qle_trans; [|apply Q.le_max_l]. lra.
  - apply Q.max_lub; [lra|].
    eapply Qle_trans; [apply Q.le_min_l|lra].
Qed.

Lemma supply_chain_score_bounds_aux (nodes : list SupplyChainNode)
    (edges : list SupplyChainEdge) (analysis_results : GraphAnalysis) :
  0 <= _calculate_supply_chain_score nodes edges analysis_results <= 10.
Proof.
  unfold _calculate_supply_chain_score.
  destruct (negb (nonempty nodes)); [split; lra|].
  cbv zeta. split.
  - eapply Qle_trans; [|apply Q.le_max_l]. lra.
  - apply Q.max_lub; [lra|].
    eapply Qle_trans; [apply Q.le_min_l|lra].
Qed.

Lemma score_unguarded (nodes : list SupplyChainNode)
    (edges : list SupplyChainEdge) (analysis_results : GraphAnalysis) :
  nodes <> [] ->
  _calculate_supply_chain_score nodes edges analysis_results
  == Qmax 0.0
       (Qmin 10.0
          (Qsum (map (fun node => 10.0 - n_risk_score node) nodes)
           / Qlen (map (fun node => 10.0 - n_risk_score node) nodes)
           - (0.0
              + Qlen (r_circular_dependencies analysis_results) * 0.5
              + Qlen (r_single_points_of_failure analysis_results) * 0.3
              + Qlen (r_orphaned_dependencies analysis_results) * 0.2
              + Qlen (filter high_risk nodes) * 0.4
              + Qlen (filter untrusted nodes) * 0.6))).
Proof.
  intro Hne. unfold _calculate_supply_chain_score.
  destruct nodes as [|n nodes]; [congruence|].
  change (negb (nonempty (n :: nodes))) with false. cbv iota zeta.
  rewrite !guarded_penalty. reflexivity.
Qed.

Lemma Qlen_le {A B} (xs : list A) (ys : list B) :
  (List.length xs <= List.length ys)%nat -> Qlen xs <= Qlen ys.
Proof.
  intro H. unfold Qlen. rewrite <- Zle_Qle. lia.
Qed.

(** X15.  For one and the same node list, reporting more circular
    dependencies, more single points of failure or more orphaned
    dependencies never raises the aggregate score. *)
Theorem more_findings_never_raise_score (nodes : list SupplyChainNode)
    (edges : list SupplyChainEdge) (fewer more : GraphAnalysis) :
  (List.length (r_circular_dependencies fewer)
   <= List.length (r_circular_dependencies more))%nat ->
  (List.length (r_single_points_of_failure fewer)
   <= List.length (r_single_points_of_failure more))%nat ->
  (List.length (r_orphaned_dependencies fewer)
   <= List.length (r_orphaned_dependencies more))%nat ->
  _calculate_supply_chain_score nodes edges more
  <= _calculate_supply_chain_score nodes edges fewer.
Proof.
  intros Hc Hs Ho.
  destruct nodes as [|n nodes]; [apply Qle_refl|].
  rewrite !(score_unguarded (n :: nodes)) by discriminate.
  apply Q.max_le_compat_l, Q.min_le_compat_l.
  apply Qlen_le in Hc, Hs, Ho.
  unfold Qminus. apply Qplus_le_r. apply Qopp_le_compat. lra.
Qed.

(** X16.  The risk score of a node is computed exactly when
    [security_info] and [registry_info] are mappings (or absent), the two
    vulnerability counts are numbers that convert to float (or absent),
    [age_days] and [downloads] are numbers (or absent) and [maintainers] is
    a sized value (or absent): no missing entry and no failure of the path
    lookup in the graph makes it raise.  An integer count of magnitude
    [2**1024 - 2**970] or more does: the product with [2.0] raises
    [OverflowError].  A computed score never exceeds 10. *)
Theorem node_risk_score_defined (node_data : dict) (graph : DiGraph)
    (node_id : string) :
  ((exists r, _calculate_node_risk_score node_data graph node_id = Ok r)
   <-> exists security_info registry_info critical vulns age_days downloads
              maintainer_count,
         get node_data "security_info" (PDict []) = PDict security_info
         /\ get node_data "registry_info" (PDict []) = PDict registry_info
         /\ to_float (get security_info "critical_vulnerabilities" (PInt 0))
            = Ok critical
         /\ to_float (get security_info "vulnerability_count" (PInt 0))
            = Ok vulns
         /\ as_num (get registry_info "age_days" (PInt 365)) = Ok age_days
         /\ as_num (get registry_info "downloads" (PInt 0)) = Ok downloads
         /\ len (get registry_info "maintainers" (PList []))
            = Ok maintainer_count)
  /\ (forall security_info n,
        get node_data "security_info" (PDict []) = PDict security_info ->
        get security_info "critical_vulnerabilities" (PInt 0) = PInt n ->
        (float_limit <= Z.abs n)%Z ->
        _calculate_node_risk_score node_data graph node_id
        = Raise OverflowError)
  /\ forall r,
       _calculate_node_risk_score node_data graph node_id = Ok r -> r <= 10.
Proof.
  split; [split|split].
  - intros [r Hr]. exact (node_risk_score_reads _ _ _ _ Hr).
  - intros (si & reg & c & v & a & d & m & H1 & H2 & H3 & H4 & H5 & H6 & H7).
    destruct (node_risk_score_value _ _ _ graph node_id _ _ _ _ _
                H1 H2 H3 H4 H5 H6 H7) as [r [Hr _]].
    now exists r.
  - intros si n Hsi Hn Hbig. unfold _calculate_node_risk_score.
    rewrite Hsi. cbn [as_dict bind]. rewrite Hn. unfold to_float.
    apply Z.ltb_ge in Hbig. now rewrite Hbig.
  - intros r Hr.
    destruct (node_risk_score_reads _ _ _ _ Hr)
      as (si & reg & c & v & a & d & m & H1 & H2 & H3 & H4 & H5 & H6 & H7).
    destruct (node_risk_score_value _ _ _ graph node_id _ _ _ _ _
                H1 H2 H3 H4 H5 H6 H7) as [r' [Hr' Hval]].
    rewrite Hr in Hr'. injection Hr' as <-.
    rewrite Hval. apply Q.le_min_r.
Qed.

End ScoreBounds.

(* ===================================================================== *)
(** ** Recommendations *)
(* ===================================================================== *)

Section Recommendations.

Lemma join_names_loop (nodes : list SupplyChainNode) :
  Forall (fun n => exists s, n_name n = PStr s) nodes ->
  forall acc,
    exists names,
      for_each (fun names n =>
                  match n_name n with
                  | PStr s => Ok (names ++ [s])%list
                  | _ => Raise TypeError
                  end) nodes acc = Ok names.
Proof.
  induction 1 as [|n nodes [s Hs] _ IH]; intro acc; simpl.
  - now exists acc.
  - rewrite Hs. simpl. apply IH.
Qed.

Lemma join_names_returns (nodes : list SupplyChainNode) :
  Forall (fun n => exists s, n_name n = PStr s) nodes ->
  exists text, join_names nodes = Ok text.
Proof.
  intro Hall. unfold join_names.
  assert (H3 : Forall (fun n => exists s, n_name n = PStr s)
                      (firstn 3 nodes)).
  { rewrite Forall_forall in *. intros x Hx. apply Hall.
    rewrite <- (firstn_skipn 3 nodes). apply in_or_app. now left. }
  destruct (join_names_loop _ H3 []) as [names ->]. cbn [bind].
  now eexists.
Qed.

Lemma Ok_inj {A} (x y : A) : Ok x = Ok y -> x = y.
Proof. now intros [= ->]. Qed.

(** A returned list is the entries of the findings that apply, followed
    by the six general recommendations. *)
Lemma recommendations_shape (analysis_results : GraphAnalysis)
    (nodes : list SupplyChainNode) (edges : list SupplyChainEdge)
    (recommendations : list string) :
  _generate_recommendations analysis_results nodes edges
  = Ok recommendations ->
  exists specific,
    recommendations = (specific ++ Shapes.general_recommendations)%list
    /\ List.length specific = Shapes.findings analysis_results nodes.
Proof.
  unfold _generate_recommendations, Shapes.findings.
  destruct (nonempty (filter high_risk nodes));
    [destruct (join_names (filter high_risk nodes)); [|discriminate]|];
    cbn [bind];
    (destruct (nonempty (filter untrusted nodes));
     [destruct (join_names (filter untrusted nodes)); [|discriminate]|]);
    cbn [bind];
    destruct (nonempty (r_circular_dependencies analysis_results));
    destruct (nonempty (r_single_points_of_failure analysis_results));
    destruct (nonempty (r_orphaned_dependencies analysis_results));
    destruct (10 <? r_max_depth analysis_results)%Z;
    intro H; apply Ok_inj in H; rewrite <- H;
    eexists; split; reflexivity.
Qed.

(** X17.  When the names of the nodes are strings, the recommendation
    step returns: one entry for each finding that applies (high-risk nodes,
    untrusted nodes, circular dependencies, single points of failure,
    orphaned dependencies, a depth above 10), followed by the same six
    general recommendations, so between six and twelve entries. *)
Theorem recommendations_returned (analysis_results : GraphAnalysis)
    (nodes : list SupplyChainNode) (edges : list SupplyChainEdge) :
  Forall (fun n => exists s, n_name n = PStr s) nodes ->
  exists specific,
    _generate_recommendations analysis_results nodes edges
    = Ok (specific ++ Shapes.general_recommendations)%list
    /\ List.length specific = Shapes.findings analysis_results nodes
    /\ (6 <= List.length (specific ++ Shapes.general_recommendations)
        <= 12)%nat.
Proof.
  intro Hall.
  assert (Hh : Forall (fun n => exists s, n_name n = PStr s)
                      (filter high_risk nodes)).
  { rewrite Forall_forall in *. intros x Hx. apply Hall.
    now apply filter_In in Hx. }
  assert (Hu : Forall (fun n => exists s, n_name n = PStr s)
                      (filter untrusted nodes)).
  { rewrite Forall_forall in *. intros x Hx. apply Hall.
    now apply filter_In in Hx. }
  destruct (join_names_returns _ Hh) as [th Hth].
  destruct (join_names_returns _ Hu) as [tu Htu].
  assert (Hrun : exists l,
            _generate_recommendations analysis_results nodes edges = Ok l).
  { unfold _generate_recommendations. rewrite Hth, Htu.
    destruct (nonempty (filter high_risk nodes));
      destruct (nonempty (filter untrusted nodes));
      cbn [bind]; now eexists. }
  destruct Hrun as [l Hl].
  destruct (recommendations_shape _ _ _ _ Hl) as [specific [-> Hlen]].
  exists specific. split; [exact Hl|]. split; [exact Hlen|].
  rewrite length_app, Hlen. unfold Shapes.findings, Shapes.one_if.
  cbn [Shapes.general_recommendations List.length].
  destruct (nonempty (filter high_risk nodes));
    destruct (nonempty (filter untrusted nodes));
    destruct (nonempty (r_circular_dependencies analysis_results));
    destruct (nonempty (r_single_points_of_failure analysis_results));
    destruct (nonempty (r_orphaned_dependencies analysis_results));
    destruct (10 <? r_max_depth analysis_results)%Z; simpl; lia.
Qed.

(** X18.  A high-risk node whose name is not a string, for instance the
    [None] of a component without a name, makes the recommendation step
    raise [TypeError] when it is the first of the high-risk nodes: the
    names are joined into the message without a check. *)
Theorem nameless_high_risk_node_raises (analysis_results : GraphAnalysis)
    (nodes : list SupplyChainNode) (edges : list SupplyChainEdge)
    (first : SupplyChainNode) (others : list SupplyChainNode) :
  filter high_risk nodes = first :: others ->
  (forall s, n_name first <> PStr s) ->
  _generate_recommendations analysis_results nodes edges = Raise TypeError.
Proof.
  intros Hfilter Hname. unfold _generate_recommendations.
  rewrite Hfilter. cbn [nonempty]. unfold join_names.
  cbn [firstn for_each].
  destruct (n_name first) as [| | | |s| |]; try reflexivity.
  exfalso. exact (Hname s eq_refl).
Qed.

End Recommendations.

(* ===================================================================== *)
(** ** Which of the top-level steps return *)
(* ===================================================================== *)

Section Returns.

Local Open Scope Q_scope.

Context {RT : Runtime} {CL : Clients}.

(** X19.  Graph construction returns exactly when the two extraction
    steps return: neither a dangling reference, nor a repeated component or
    dependency, nor a collaborator that raises can make it fail. *)
Theorem build_returns_iff_extraction_returns (sbom_data : dict) :
  (exists graph log, _build_dependency_graph sbom_data = Ok (graph, log))
  <-> (exists components, _extract_components sbom_data = Ok components)
      /\ (exists dependencies,
            _extract_dependencies sbom_data = Ok dependencies).
Proof.
  split.
  - intros (graph & log & Hbuild).
    destruct (build_inversion _ _ _ Hbuild) as (cs & ds & Hc & Hd & _).
    split; [now exists cs|now exists ds].
  - intros [[cs Hc] [ds Hd]].
    eexists. eexists. apply (build_dependency_graph_spec _ _ _ Hc Hd).
Qed.

(** X20.  No run of [analyze_supply_chain] returns an analysis, whatever
    the document, the clients and the values taken from the environment:
    every run raises.  When graph construction raises, the run raises the
    same exception.  When the built graph has a node, the run raises the
    exception with which [_analyze_nodes] stops at the first node.  When the
    built graph has no node, the two loops are passed and the run raises
    [AttributeError] in [_perform_graph_analysis], at the call of
    [_calculate_max_depth]. *)
Theorem analysis_never_returns (fresh_uuid : string) (now : Z)
    (sbom_data : dict) :
  (exists e, analyze_supply_chain fresh_uuid now sbom_data = Raise e)
  /\ (forall e,
        _build_dependency_graph sbom_data = Raise e ->
        analyze_supply_chain fresh_uuid now sbom_data = Raise e)
  /\ (forall graph log,
        _build_dependency_graph sbom_data = Ok (graph, log) ->
        nodes graph <> [] ->
        exists e,
          _analyze_nodes graph = Raise e
          /\ analyze_supply_chain fresh_uuid now sbom_data = Raise e)
  /\ (forall graph log,
        _build_dependency_graph sbom_data = Ok (graph, log) ->
        nodes graph = [] ->
        analyze_supply_chain fresh_uuid now sbom_data
        = Raise AttributeError).
Proof.
  assert (Hfail : forall e,
            _build_dependency_graph sbom_data = Raise e ->
            analyze_supply_chain fresh_uuid now sbom_data = Raise e).
  { intros e He. unfold analyze_supply_chain. now rewrite He. }
  assert (Hnode : forall graph log,
            _build_dependency_graph sbom_data = Ok (graph, log) ->
            nodes graph <> [] ->
            exists e,
              _analyze_nodes graph = Raise e
              /\ analyze_supply_chain fresh_uuid now sbom_data = Raise e).
  { intros graph log Hb Hne.
    destruct (analyze_nodes_nonempty_raises graph Hne) as [e He].
    exists e. split; [exact He|].
    unfold analyze_supply_chain. rewrite Hb. cbn [bind fst].
    now rewrite He. }
  assert (Hempty : forall graph log,
            _build_dependency_graph sbom_data = Ok (graph, log) ->
            nodes graph = [] ->
            analyze_supply_chain fresh_uuid now sbom_data
            = Raise AttributeError).
  { intros graph log Hb Hn.
    unfold analyze_supply_chain. rewrite Hb. cbn [bind fst].
    assert (Hnodes : _analyze_nodes graph = Ok [])
      by (unfold _analyze_nodes; now rewrite Hn).
    rewrite Hnodes. cbn [bind].
    destruct (_analyze_edges graph) as [es|e] eqn:He.
    - cbn [bind]. now rewrite perform_graph_analysis_raises.
    - exfalso. unfold _analyze_edges in He.
      assert (Hadj : _adj graph = []).
      { destruct (build_inversion _ _ _ Hb) as (cs & ds & _ & _ & Hg & _).
        pose proof (wf_rows _ (wf_before_enrichment cs ds)) as Hrows.
        rewrite Hg in Hn |- *. rewrite nodes_enriched in Hn.
        cbn [_adj]. unfold nodes in Hn. rewrite Hn in Hrows.
        destruct (_adj _); [reflexivity|discriminate Hrows]. }
      unfold NX.edges in He. rewrite Hadj in He. discriminate He. }
  split; [|split; [exact Hfail|split; [exact Hnode|exact Hempty]]].
  destruct (_build_dependency_graph sbom_data) as [[graph log]|e] eqn:Hb.
  - destruct (nodes graph) as [|n rest] eqn:Hn.
    + exists AttributeError. now apply (Hempty graph log).
    + destruct (Hnode graph log eq_refl) as [e [_ He]];
        [rewrite Hn; discriminate|].
      now exists e.
  - exists e. now apply Hfail.
Qed.

End Returns.

(* ===================================================================== *)
(** ** Components that share an identifier *)
(* ===================================================================== *)

Section SharedIdentifier.

Context {RT : Runtime}.

Lemma alist_set_absent {V} (l : list (string * V)) (k : string) (v : V) :
  ~ In k (keys l) -> alist_set l k v = (l ++ [(k, v)])%list.
Proof.
  intro H. rewrite <- (app_nil_r l) at 1.
  now rewrite alist_set_app_absent.
Qed.

Lemma alist_get_app {V} (l1 l2 : list (string * V)) (k : string) :
  alist_get (l1 ++ l2) k
  = match alist_get l1 k with
    | Some v => Some v
    | None => alist_get l2 k
    end.
Proof.
  induction l1 as [|[k' v'] l1 IH]; simpl; [reflexivity|].
  destruct (String.eqb k k'); [reflexivity|exact IH].
Qed.

Lemma update_fresh (c pre : dict) :
  NoDup (keys pre ++ keys c) -> update pre c = (pre ++ c)%list.
Proof.
  unfold update. revert pre.
  induction c as [|[k w] c IH]; intros pre Hnd; simpl.
  - now rewrite app_nil_r.
  - assert (Hk : ~ In k (keys pre)).
    { intro Hin. apply NoDup_remove_2 in Hnd. apply Hnd.
      apply in_or_app. now left. }
    rewrite alist_set_absent by exact Hk.
    rewrite IH.
    + now rewrite <- app_assoc.
    + rewrite keys_app, <- app_assoc. exact Hnd.
Qed.

Lemma update_same_keys (c d pre : dict) :
  keys d = keys c ->
  NoDup (keys pre ++ keys c) ->
  update (pre ++ d)%list c = (pre ++ c)%list.
Proof.
  unfold update. revert d pre.
  induction c as [|[k w] c IH]; intros d pre Hkeys Hnd.
  - destruct d; [reflexivity|discriminate Hkeys].
  - destruct d as [|[k' v] d]; [discriminate Hkeys|].
    simpl in Hkeys. injection Hkeys as -> Hkeys.
    assert (Hk : ~ In k (keys pre)).
    { intro Hin. apply NoDup_remove_2 in Hnd. apply Hnd.
      apply in_or_app. now left. }
    cbn [fold_left fst snd].
    rewrite alist_set_app_absent by exact Hk.
    cbn [alist_set]. rewrite String.eqb_refl.
    replace (pre ++ (k, w) :: d)%list with ((pre ++ [(k, w)]) ++ d)%list
      by now rewrite <- app_assoc.
    rewrite (IH d (pre ++ [(k, w)])%list Hkeys).
    + now rewrite <- app_assoc.
    + rewrite keys_app, <- app_assoc. exact Hnd.
Qed.

(** The components of one document have one and the same list of keys. *)
Lemma extracted_components_uniform (sbom_data : dict)
    (components : list dict) :
  _extract_components sbom_data = Ok components ->
  Forall (fun c => keys c = Shapes.cyclonedx_keys) components
  \/ Forall (fun c => keys c = Shapes.spdx_keys) components.
Proof.
  unfold _extract_components.
  destruct (eq_str (get sbom_data "bomFormat" PNone) "CycloneDX").
  - left. revert H.
    destruct (iterate (get sbom_data "components" (PList [])))
      as [items|e]; [|discriminate]. cbn [bind].
    apply for_each_invariant; [|constructor].
    intros acc item acc' Hacc.
    destruct (as_dict item) as [component|e]; [|discriminate].
    cbn [bind]. intros [= <-].
    apply Forall_app. split; [exact Hacc|]. repeat constructor.
  - destruct (truthy (get sbom_data "spdxVersion" PNone)).
    + right. revert H.
      destruct (iterate (get sbom_data "packages" (PList [])))
        as [items|e]; [|discriminate]. cbn [bind].
      apply for_each_invariant; [|constructor].
      intros acc item acc' Hacc.
      destruct (as_dict item) as [package|e]; [|discriminate].
      cbn [bind]. intros [= <-].
      apply Forall_app. split; [exact Hacc|]. repeat constructor.
    + intros [= <-]. left. constructor.
Qed.

Lemma find_app {A} (p : A -> bool) (l1 l2 : list A) :
  find p (l1 ++ l2)
  = match find p l1 with Some x => Some x | None => find p l2 end.
Proof.
  induction l1 as [|x l1 IH]; simpl; [reflexivity|].
  destruct (p x); [reflexivity|exact IH].
Qed.

Lemma node_data_add_node (g : DiGraph) (id n : string) (c : dict)
    (K : list string) :
  NoDup K -> keys c = K ->
  Forall (fun nd => keys (snd nd) = K) (_node g) ->
  Forall (fun nd => keys (snd nd) = K) (_node (add_node g id c))
  /\ NX.node_data (add_node g id c) n
     = if String.eqb id n then Ok c else NX.node_data g n.
Proof.
  intros HK Hc Hg. unfold add_node, NX.node_data.
  destruct (alist_get (_node g) id) as [d|] eqn:E; cbn [_node].
  - assert (Hd : keys d = K).
    { clear -E Hg. induction (_node g) as [|[k' v'] l IHl];
        simpl in E; [discriminate|].
      inversion Hg as [|? ? Hhd Htl].
      destruct (String.eqb id k'); [|now apply IHl].
      injection E as <-. exact Hhd. }
    assert (Hup : update d c = c).
    { apply (update_same_keys c d []); [congruence|].
      cbn [keys map app]. fold (keys c). now rewrite Hc. }
    rewrite Hup. split.
    + apply Forall_alist_set; [exact Hg|exact Hc].
    + destruct (String.eqb id n) eqn:En.
      * apply String.eqb_eq in En. subst n. now rewrite alist_get_set_same.
      * apply String.eqb_neq in En.
        now rewrite alist_get_set_other.
  - assert (Hup : update [] c = c).
    { apply (update_fresh c []). cbn [keys map app]. fold (keys c).
      now rewrite Hc. }
    rewrite Hup. split.
    + apply Forall_app. split; [exact Hg|]. repeat constructor. exact Hc.
    + rewrite alist_get_app. cbn [alist_get].
      destruct (String.eqb id n) eqn:En.
      * apply String.eqb_eq in En. subst n. rewrite E.
        now rewrite String.eqb_refl.
      * rewrite String.eqb_sym, En.
        now destruct (alist_get (_node g) n).
Qed.

Lemma node_data_fold (K : list string) (components : list dict) :
  NoDup K ->
  Forall (fun c => keys c = K) components ->
  forall (g : DiGraph) (n : string),
    Forall (fun nd => keys (snd nd) = K) (_node g) ->
    NX.node_data
      (fold_left (fun graph c => add_node graph (Shapes.node_id_of c) c)
                 components g) n
    = match find (fun c => String.eqb (Shapes.node_id_of c) n)
                 (rev components) with
      | Some c => Ok c
      | None => NX.node_data g n
      end.
Proof.
  intros HK Hcs.
  induction Hcs as [|c cs Hc Hcs IH]; intros g n Hg; [reflexivity|].
  cbn [fold_left rev]. rewrite find_app. cbn [find].
  destruct (node_data_add_node g (Shapes.node_id_of c) n c K HK Hc Hg)
    as [Hg' Hn].
  rewrite (IH _ n Hg'). unfold dict.
  destruct (find _ (rev cs)); [reflexivity|].
  rewrite Hn. now destruct (String.eqb (Shapes.node_id_of c) n).
Qed.

Lemma node_data_add_components (K : list string) (components : list dict) :
  NoDup K ->
  Forall (fun c => keys c = K) components ->
  forall (g : DiGraph) (n : string),
    Forall (fun nd => keys (snd nd) = K) (_node g) ->
    NX.node_data (add_components g components) n
    = match Shapes.last_component components n with
      | Some c => Ok c
      | None => NX.node_data g n
      end.
Proof.
  intros HK Hcs g n Hg.
  exact (node_data_fold K components HK Hcs g n Hg).
Qed.

(** X21.  When several components of a document share one identifier,
    the node keeps the fields of the last of them: after the build every
    attribute of the node other than the three enrichment keys is the
    attribute of the last component stored under that identifier. *)
Theorem shared_identifier_last_component_wins {CL : Clients}
    (sbom_data : dict) (graph : DiGraph) (log : list log_record)
    (components : list dict) (n : string) (c : dict) :
  _build_dependency_graph sbom_data = Ok (graph, log) ->
  _extract_components sbom_data = Ok components ->
  Shapes.last_component components n = Some c ->
  exists d,
    NX.node_data graph n = Ok d
    /\ forall k, ~ In k Shapes.enrichment_keys ->
                 alist_get d k = alist_get c k.
Proof.
  intros Hbuild Hc Hlast.
  destruct (build_inversion _ _ _ Hbuild) as (cs & ds & Hc' & _ & Hg & _).
  rewrite Hc in Hc'. injection Hc' as <-.
  set (before := add_dependencies (add_components NX.empty components) ds)
    in *.
  assert (Hbefore : NX.node_data before n = Ok c).
  { unfold NX.node_data, before. rewrite add_dependencies_node.
    fold (NX.node_data (add_components NX.empty components) n).
    destruct (extracted_components_uniform _ _ Hc) as [HK|HK].
    - rewrite (node_data_add_components Shapes.cyclonedx_keys components);
        [now rewrite Hlast| |exact HK|constructor].
      repeat constructor; simpl; intuition discriminate.
    - rewrite (node_data_add_components Shapes.spdx_keys components);
        [now rewrite Hlast| |exact HK|constructor].
      repeat constructor; simpl; intuition discriminate. }
  assert (Hnd : NoDup (nodes before))
    by apply (wf_nodes _ (wf_before_enrichment components ds)).
  eexists. split.
  - rewrite Hg. apply enriched_node_data; eassumption.
  - intros k Hk. unfold Spec.enriched_node. cbn [fst snd].
    destruct (fst (_enrich_node_data n c)) as [data|e] eqn:E; [|reflexivity].
    apply update_other. intro Hin. apply Hk.
    exact (enriched_keys n c data E k Hin).
Qed.

End SharedIdentifier.


(** * Nodes whose enrichment failed *)

Section FailedEnrichment.

Context {RT : Runtime} {CL : Clients}.

Lemma try_call_failed (st : dict * option exn) (key : string)
    (call : result pyval) (e : exn) :
  snd (try_call st key call) = Some e ->
  fst (try_call st key call) = fst st.
Proof.
  unfold try_call. destruct (snd st); [reflexivity|].
  destruct call; [discriminate|reflexivity].
Qed.

Lemma try_call_other (st : dict * option exn) (key k : string)
    (call : result pyval) :
  key <> k ->
  alist_get (fst (try_call st key call)) k = alist_get (fst st) k.
Proof.
  intro Hne. unfold try_call. destruct (snd st); [reflexivity|].
  destruct call; cbn [fst]; [|reflexivity].
  now apply alist_get_set_other.
Qed.

(** A task that logs a warning returns a mapping without [trust_info]. *)
Lemma warned_without_trust (node_id n : string) (node_data : dict)
    (e : exn) :
  In (Warning n e) (snd (_enrich_node_data node_id node_data)) ->
  n = node_id
  /\ exists data,
       fst (_enrich_node_data node_id node_data) = Ok data
       /\ alist_get data "trust_info" = None.
Proof.
  unfold _enrich_node_data.
  destruct (_extract_package_manager _) as [pm|e']; [|intros []].
  cbn [fst snd].
  destruct (snd (try_call _ _ _)) as [e'|] eqn:E; [|intros []].
  intros [[= <- <-]|[]]. split; [reflexivity|].
  eexists. split; [reflexivity|].
  rewrite (try_call_failed _ _ _ _ E).
  rewrite try_call_other by discriminate.
  destruct (str_mem pm package_registries); [|reflexivity].
  now rewrite try_call_other by discriminate.
Qed.

(** The attributes of a node before enrichment are those of a component. *)
Lemma node_before_enrichment (sbom_data : dict) (components : list dict)
    (dependencies : list dict) (n : string) (c : dict) :
  _extract_components sbom_data = Ok components ->
  In (n, c) (_node (add_dependencies (add_components NX.empty components)
                      dependencies)) ->
  NX.node_data (add_dependencies (add_components NX.empty components)
                  dependencies) n = Ok c
  /\ Shapes.unenriched c.
Proof.
  intros Hc Hin.
  assert (Hnd : NoDup (nodes (add_dependencies
                                (add_components NX.empty components)
                                dependencies)))
    by apply (wf_nodes _ (wf_before_enrichment components dependencies)).
  assert (Hdata : NX.node_data (add_dependencies
                                  (add_components NX.empty components)
                                  dependencies) n = Ok c).
  { unfold NX.node_data.
    now rewrite (proj2 (alist_get_In _ n c Hnd) Hin). }
  split; [exact Hdata|].
  unfold NX.node_data in Hdata. rewrite add_dependencies_node in Hdata.
  fold (NX.node_data (add_components NX.empty components) n) in Hdata.
  assert (Hkeys : keys c = Shapes.cyclonedx_keys
                  \/ keys c = Shapes.spdx_keys).
  { destruct (extracted_components_uniform _ _ Hc) as [HK|HK].
    - left.
      rewrite (node_data_add_components Shapes.cyclonedx_keys components)
        in Hdata; [| |exact HK|constructor].
      + unfold Shapes.last_component in Hdata.
        destruct (find _ (rev components)) as [c'|] eqn:E;
          [|discriminate Hdata].
        injection Hdata as <-. apply find_some in E.
        rewrite Forall_forall in HK. apply HK, in_rev, (proj1 E).
      + repeat constructor; simpl; intuition discriminate.
    - right.
      rewrite (node_data_add_components Shapes.spdx_keys components)
        in Hdata; [| |exact HK|constructor].
      + unfold Shapes.last_component in Hdata.
        destruct (find _ (rev components)) as [c'|] eqn:E;
          [|discriminate Hdata].
        injection Hdata as <-. apply find_some in E.
        rewrite Forall_forall in HK. apply HK, in_rev, (proj1 E).
      + repeat constructor; simpl; intuition discriminate. }
  intros k Hk. apply alist_get_None.
  destruct Hkeys as [-> | ->]; simpl in Hk |- *; intuition (subst; discriminate).
Qed.

(** X23.  A node about which the build logged a warning has no
    [trust_info]: the trust lookup is the last one, so whichever lookup
    raised, its answer is missing.  The analysis then reads the defaults
    and rates the node [NEUTRAL]: a failed lookup is indistinguishable from
    an unremarkable package. *)
Theorem failed_enrichment_reads_as_neutral (sbom_data : dict)
    (graph : DiGraph) (log : list log_record) (n : string) (e : exn) :
  _build_dependency_graph sbom_data = Ok (graph, log) ->
  In (Warning n e) log ->
  exists d,
    NX.node_data graph n = Ok d
    /\ alist_get d "trust_info" = None
    /\ _calculate_trust_level d = Ok NEUTRAL.
Proof.
  intros Hbuild Hlog.
  destruct (build_inversion _ _ _ Hbuild) as (cs & ds & Hc & _ & Hg & Hl).
  set (before := add_dependencies (add_components NX.empty cs) ds) in *.
  rewrite Hl in Hlog. apply in_concat in Hlog.
  destruct Hlog as [l [Hl' Hin]]. apply in_map_iff in Hl'.
  destruct Hl' as [[id c] [<- Htask]]. cbn [fst snd] in Hin.
  destruct (warned_without_trust _ _ _ _ Hin) as [-> [data [Hdata Htrust]]].
  destruct (node_before_enrichment _ _ _ _ _ Hc Htask) as [Hbefore Hun].
  assert (Hnd : NoDup (nodes before))
    by apply (wf_nodes _ (wf_before_enrichment cs ds)).
  assert (Hnone : alist_get (update c data) "trust_info" = None).
  { rewrite update_other.
    - apply Hun. simpl. tauto.
    - now apply alist_get_None. }
  exists (update c data). split; [|split].
  - rewrite Hg, (enriched_node_data before id c Hnd Hbefore).
    unfold Spec.enriched_node. cbn [fst snd]. now rewrite Hdata.
  - exact Hnone.
  - unfold _calculate_trust_level, get. rewrite Hnone. reflexivity.
Qed.

End FailedEnrichment.

(** * The edge list *)

Section EdgeList.



End EdgeList.

(** * Further properties on sample documents *)

Section Examples.

Local Open Scope Q_scope.

#[local] Existing Instance Samples.sample_runtime.

(** A format tag in lower case is not CycloneDX: the graph is empty although
    the document lists a component. *)
Lemma unrecognised_format_gives_empty_graph_witness :
  _build_dependency_graph (CL := placeholder_clients)
    Documents.sbom_other_spelling = Ok (NX.empty, []).
Proof.
  apply (unrecognised_format_gives_empty_graph (CL := placeholder_clients)
           Documents.sbom_other_spelling); reflexivity.
Defined.

(** One entry with two targets gives two records. *)
Lemma cyclonedx_dependency_records_witness :
  _extract_dependencies Samples.sbom_dangling_entry
  = Ok [Shapes.dependency (PStr "A@1.0") (PStr "B@2.0");
        Shapes.dependency (PStr "A@1.0") (PStr "C@3.0")].
Proof.
  apply (cyclonedx_dependency_records Samples.sbom_dangling_entry
           [[("ref", PStr "A@1.0");
             ("dependsOn", PList [PStr "B@2.0"; PStr "C@3.0"])]]);
    [reflexivity|reflexivity|].
  constructor; [reflexivity|constructor].
Defined.

(** Of a DEPENDS_ON and a DESCRIBES relationship only the first is kept. *)
Lemma spdx_dependency_records_witness :
  _extract_dependencies Documents.sbom_spdx
  = Ok [Shapes.dependency (PStr "SPDXRef-A") (PStr "SPDXRef-B")].
Proof.
  exact (spdx_dependency_records Documents.sbom_spdx
           [Documents.relationship "SPDXRef-A" "DEPENDS_ON" "SPDXRef-B";
            Documents.relationship "SPDXRef-DOCUMENT" "DESCRIBES" "SPDXRef-A"]
           eq_refl eq_refl eq_refl).
Defined.

(** The two packages of the SPDX document have the six SPDX keys. *)
Lemma extracted_component_keys_witness :
  exists components,
    _extract_components Documents.sbom_spdx = Ok components
    /\ List.length components = 2%nat
    /\ Forall (fun component => keys component = Shapes.spdx_keys)
         components
    /\ Forall (fun component =>
                 In "name" (keys component)
                 /\ In "version" (keys component)
                 /\ Shapes.unenriched component) components.
Proof.
  destruct (extracted_component_keys Documents.sbom_spdx _ eq_refl)
    as [_ [Hspdx Hall]].
  eexists. split; [reflexivity|]. split; [reflexivity|].
  split; [exact (Hspdx eq_refl)|exact Hall].
Defined.

(** Three component records, two nodes. *)
Lemma built_nodes_are_distinct_ids_witness :
  exists graph log,
    _build_dependency_graph (CL := placeholder_clients)
      Documents.sbom_shared_identifier = Ok (graph, log)
    /\ nodes graph = ["A@1.0"; "B@2.0"]%string.
Proof.
  destruct (built_nodes_are_distinct_ids (CL := placeholder_clients)
              Documents.sbom_shared_identifier _ _ _ eq_refl eq_refl)
    as [Hn _].
  eexists. eexists. split; [reflexivity|exact Hn].
Defined.

(** The nodes and the edge of the one-edge document. *)
Lemma edges_join_name_at_version_witness :
  exists graph log,
    _build_dependency_graph (CL := placeholder_clients)
      Samples.sbom_one_edge = Ok (graph, log)
    /\ (forall n, In n (nodes graph) -> Shapes.has_at n = true)
    /\ (forall u v, In (u, v) (edges graph) ->
                    Shapes.has_at u = true /\ Shapes.has_at v = true).
Proof.
  eexists. eexists. split; [reflexivity|].
  eapply (edges_join_name_at_version (CL := placeholder_clients)
            Samples.sbom_one_edge).
  reflexivity.
Defined.

Lemma two_node_graph_nodes : NoDup (nodes Documents.two_node_graph).
Proof.
  repeat constructor; simpl; intuition discriminate.
Qed.

(** With the trust database down each of the two nodes is logged once. *)
Lemma enrichment_logs_once_per_node_witness :
  exists g' log,
    _enrich_dependency_graph (CL := Samples.trust_down_clients)
      Documents.two_node_graph = Ok (g', log)
    /\ map Shapes.warning_node log = ["A@1.0"; "B@2.0"]%string
    /\ NoDup (map Shapes.warning_node log)
    /\ incl (map Shapes.warning_node log) (nodes Documents.two_node_graph)
    /\ nodes g' = nodes Documents.two_node_graph
    /\ edges g' = edges Documents.two_node_graph.
Proof.
  eexists. eexists. split; [reflexivity|]. split; [reflexivity|].
  eapply (enrichment_logs_once_per_node (CL := Samples.trust_down_clients)
            Documents.two_node_graph);
    [exact two_node_graph_nodes|reflexivity].
Defined.

(** The name of [A@1.0] survives an enrichment that fails half way. *)
Lemma enrichment_keeps_component_fields_witness :
  exists g' log d',
    _enrich_dependency_graph (CL := Samples.trust_down_clients)
      Documents.two_node_graph = Ok (g', log)
    /\ NX.node_data g' "A@1.0" = Ok d'
    /\ alist_get d' "name" = Some (PStr "A").
Proof.
  destruct (enrichment_keeps_component_fields
              (CL := Samples.trust_down_clients)
              Documents.two_node_graph _ _ "A@1.0" "name" _
              two_node_graph_nodes eq_refl eq_refl)
    as [d' [Hd Hk]].
  { simpl. intuition discriminate. }
  eexists. eexists. exists d'. split; [reflexivity|].
  split; [exact Hd|exact Hk].
Defined.

(** With the module's clients nothing is logged and [B@2.0] carries the
    answer of the trust lookup. *)
Lemma enrichment_without_failures_witness :
  exists g' log d',
    _enrich_dependency_graph (CL := placeholder_clients)
      Documents.two_node_graph = Ok (g', log)
    /\ log = []
    /\ NX.node_data g' "B@2.0" = Ok d'
    /\ rmap Some
         (_get_trust_information (Clients := placeholder_clients)
            (PStr "B") (PStr "2.0") "unknown")
       = Ok (alist_get d' "trust_info").
Proof.
  destruct (enrichment_without_failures (CL := placeholder_clients)
              Documents.two_node_graph _ _ two_node_graph_nodes
              (fun _ _ _ => ex_intro _ _ eq_refl)
              (fun _ _ _ => ex_intro _ _ eq_refl)
              (fun _ _ _ => ex_intro _ _ eq_refl)
              eq_refl)
    as [Hlog Hnodes].
  destruct (Hnodes "B@2.0"%string _ "unknown"%string eq_refl eq_refl)
    as [d' [Hd [_ Ht]]].
  eexists. eexists. exists d'. split; [reflexivity|].
  split; [exact Hlog|]. split; [exact Hd|exact Ht].
Defined.

(** On the two-node graph the node loop stops at [A@1.0]. *)
Lemma analyze_nodes_returns_on_empty_graph_only_witness :
  _analyze_nodes Documents.two_node_graph = Raise AttributeError.
Proof.
  eapply (proj2 (analyze_nodes_returns_on_empty_graph_only
                   Documents.two_node_graph) "A@1.0"%string);
    reflexivity.
Defined.

(** In the one-edge document nothing is logged, [A@1.0] scores 2.0 and
    [B@2.0], one edge away, scores no less. *)
Lemma shipped_clients_give_depth_only_scores_witness :
  match _build_dependency_graph (CL := placeholder_clients)
          Samples.sbom_one_edge with
  | Ok (graph, log) =>
      log = []
      /\ (exists node_data r,
            NX.node_data graph "A@1.0" = Ok node_data
            /\ _calculate_trust_level node_data = Ok NEUTRAL
            /\ _calculate_node_risk_score node_data graph "A@1.0" = Ok r
            /\ r == 2)
      /\ (exists data1 data2 r1 r2,
            NX.node_data graph "A@1.0" = Ok data1
            /\ NX.node_data graph "B@2.0" = Ok data2
            /\ _calculate_node_risk_score data1 graph "A@1.0" = Ok r1
            /\ _calculate_node_risk_score data2 graph "B@2.0" = Ok r2
            /\ r1 <= r2)
  | Raise _ => False
  end.
Proof.
  destruct (_build_dependency_graph (CL := placeholder_clients)
              Samples.sbom_one_edge) as [[graph log]|e] eqn:E;
    [|vm_compute in E; discriminate].
  destruct (shipped_clients_give_depth_only_scores
              Samples.sbom_one_edge graph log E) as [Hlog [Hnode Hle]].
  split; [exact Hlog|].
  vm_compute in E. injection E as <- _. clear Hlog.
  split.
  - eexists.
    destruct (Hnode "A@1.0"%string _ eq_refl) as [Ht [r [Hr [_ H2]]]].
    exists r. split; [reflexivity|]. split; [exact Ht|].
    split; [exact Hr|]. apply H2. reflexivity.
  - eexists. eexists.
    destruct (Hnode "A@1.0"%string _ eq_refl) as [_ [r1 [Hr1 _]]].
    destruct (Hnode "B@2.0"%string _ eq_refl) as [_ [r2 [Hr2 _]]].
    exists r1, r2. split; [reflexivity|]. split; [reflexivity|].
    split; [exact Hr1|]. split; [exact Hr2|].
    apply (Hle "A@1.0"%string "B@2.0"%string _ _ r1 r2 eq_refl eq_refl
             Hr1 Hr2).
    vm_compute. repeat constructor.
Defined.

(** One orphaned dependency more does not raise the score. *)
Lemma more_findings_never_raise_score_witness :
  _calculate_supply_chain_score [Samples.neutral_node 2] []
    Documents.one_orphan
  <= _calculate_supply_chain_score [Samples.neutral_node 2] []
       Samples.no_findings.
Proof.
  apply (more_findings_never_raise_score [Samples.neutral_node 2] []
           Samples.no_findings Documents.one_orphan); simpl; lia.
Defined.

(** A single unremarkable node: the six general recommendations. *)
Lemma recommendations_returned_witness :
  exists specific,
    _generate_recommendations Samples.no_findings [Samples.neutral_node 2] []
    = Ok (specific ++ Shapes.general_recommendations)%list
    /\ List.length specific
       = Shapes.findings Samples.no_findings [Samples.neutral_node 2]
    /\ (6 <= List.length (specific ++ Shapes.general_recommendations)
        <= 12)%nat.
Proof.
  apply (recommendations_returned Samples.no_findings
           [Samples.neutral_node 2] []).
  constructor; [|constructor]. exists "A"%string. reflexivity.
Defined.

(** A node of risk 9.0 whose name is [None]. *)
Lemma nameless_high_risk_node_raises_witness :
  _generate_recommendations Samples.no_findings
    [Samples.neutral_node 2; Documents.nameless_node] []
  = Raise TypeError.
Proof.
  apply (nameless_high_risk_node_raises Samples.no_findings
           [Samples.neutral_node 2; Documents.nameless_node] []
           Documents.nameless_node []).
  - reflexivity.
  - intros s. discriminate.
Defined.

(** Of the two records for [A@1.0] the node keeps the package url of the
    second. *)
Lemma shared_identifier_last_component_wins_witness :
  exists graph log d,
    _build_dependency_graph (CL := placeholder_clients)
      Documents.sbom_shared_identifier = Ok (graph, log)
    /\ NX.node_data graph "A@1.0" = Ok d
    /\ alist_get d "purl" = Some (PStr "pkg:pypi/A@1.0").
Proof.
  destruct (shared_identifier_last_component_wins (CL := placeholder_clients)
              Documents.sbom_shared_identifier _ _ _ "A@1.0" _
              eq_refl eq_refl eq_refl)
    as [d [Hd Hk]].
  eexists. eexists. exists d. split; [reflexivity|].
  split; [exact Hd|].
  rewrite Hk; [reflexivity|]. simpl. intuition discriminate.
Defined.

(** With the trust database down, [A@1.0] has no trust data and is
    neutral. *)
Lemma failed_enrichment_reads_as_neutral_witness :
  exists graph log d,
    _build_dependency_graph (CL := Samples.trust_down_clients)
      Samples.sbom_single = Ok (graph, log)
    /\ NX.node_data graph "A@1.0" = Ok d
    /\ alist_get d "trust_info" = None
    /\ _calculate_trust_level d = Ok NEUTRAL.
Proof.
  destruct (failed_enrichment_reads_as_neutral
              (CL := Samples.trust_down_clients) Samples.sbom_single _ _
              "A@1.0" _ eq_refl (or_introl eq_refl))
    as [d Hd].
  eexists. eexists. exists d. split; [reflexivity|exact Hd].
Defined.


End Examples.
